(** * Roulette sentinel core: stake formula, risk monitor and simulation driver

    A shallow embedding of the Python sources

    - [adaptive_shield_engine.py] (memoised Fibonacci sequence, stake formula),
    - [risk_monitor.py] (risk state, zero buffer, autostop flags),
    - [live_analytics.py] (properties of a roulette number),
    - [simulator.py] (the simulation driver),

    together with the properties of the specification that concern them.

    Python [float] values are IEEE 754 binary64 numbers; they are modelled by
    [spec_float] with the operations of the Standard Library's [SpecFloat]
    (precision 53, maximal exponent 1024).  Python [int] values are [Z].
    A module-level or instance dictionary with a fixed set of keys is a
    record; the memoisation table of the engine is a [gmap Z Z].  The
    recursive function of the engine takes the number of calls that the
    interpreter still allows to be nested in it, and raises
    [RecursionError] when it needs more. *)

From Stdlib Require Import ZArith Bool List Lia Floats.SpecFloat.
From stdpp Require Import gmap strings.

Local Open Scope Z_scope.

(** ** Exceptions

    A computation returns a value or raises an exception.  What a call
    that raises has stored in the memoisation table by then is not kept:
    the theorems follow the code up to the exception. *)

Inductive pyexc : Type :=
| ValueError
| OverflowError
| ZeroDivisionError
| RecursionError.

Inductive result (A : Type) : Type :=
| Ok (a : A)
| Raise (e : pyexc).

Arguments Ok {A} a.
Arguments Raise {A} e.

#[global] Instance result_ret : MRet result := fun _ a => Ok a.

#[global] Instance result_bind : MBind result := fun _ _ k r =>
  match r with
  | Ok a => k a
  | Raise e => Raise e
  end.

(** The interpreter's recursion limit, [sys.getrecursionlimit()]: the
    number of frames it allows on the stack before it raises
    [RecursionError].  It is 1000 unless [sys.setrecursionlimit] is called,
    and the sources do not call it. *)
Definition recursion_limit : nat := 1000.

(** ** Binary64 arithmetic as Python performs it *)

Module Float64.

Definition prec : Z := 53.
Definition emax : Z := 1024.

Abbreviation float := spec_float.

Definition fadd : float -> float -> float := SFadd prec emax.
Definition fsub : float -> float -> float := SFsub prec emax.
Definition fmul : float -> float -> float := SFmul prec emax.
Definition fdiv : float -> float -> float := SFdiv prec emax.

(** [float(z)] where no overflow is possible (small literals). *)
Definition of_Z (z : Z) : float := binary_normalize prec emax z 0 false.

(** The first integer that no longer converts: the midpoint between the
    largest double and [2^1024], which rounds (to even) to [2^1024]. *)
Definition int_overflow_bound : Z := 2 ^ 1024 - 2 ^ 970.

(** Implicit conversion of an [int] operand in mixed arithmetic
    ([PyLong_AsDouble]): correctly rounded, [OverflowError] ("int too large
    to convert to float") when the rounded value would not be finite. *)
Definition float_of_int (z : Z) : result float :=
  if int_overflow_bound <=? Z.abs z then Raise OverflowError
  else Ok (of_Z z).

(** Signed integer a finite float stands for once its exponent is lowered
    to [ez <= e]. *)
Definition aligned (s : bool) (m : positive) (e ez : Z) : Z :=
  cond_Zopp s (Zpos (fst (shl_align m e ez))).

(** Comparison of the values.  [SFcompare] orders finite numbers by
    exponent first, which is the order of the values on canonical
    representations; aligning the mantissas gives the same answer there and
    is the order of the values on every representation. *)
Definition fcompare (x y : float) : option comparison :=
  match x, y with
  | S754_finite sx mx ex, S754_finite sy my ey =>
      let ez := Z.min ex ey in
      Some (aligned sx mx ex ez ?= aligned sy my ey ez)
  | _, _ => SFcompare x y
  end.

Definition flt (x y : float) : bool :=
  match fcompare x y with Some Lt => true | _ => false end.
Definition fle (x y : float) : bool :=
  match fcompare x y with Some (Lt | Eq) => true | _ => false end.
Definition feq (x y : float) : bool :=
  match fcompare x y with Some Eq => true | _ => false end.
Definition fgt (x y : float) : bool := flt y x.
Definition fge (x y : float) : bool := fle y x.

(** Built-in [min(a, b)] and [max(a, b)]: the first argument is kept unless
    the second one is strictly smaller (larger). *)
Definition pymin (a b : float) : float := if flt b a then b else a.
Definition pymax (a b : float) : float := if fgt b a then b else a.

(** Quotient [a / b] rounded to the nearest integer, ties to even. *)
Definition rhe_div (a b : Z) : Z :=
  let q := a / b in
  match 2 * (a mod b) ?= b with
  | Lt => q
  | Gt => q + 1
  | Eq => if Z.even q then q else q + 1
  end.

(** [D * 2^k <= n] for an exponent [k] of any sign. *)
Definition scale_le (D k n : Z) : bool :=
  if 0 <=? k then D * 2 ^ k <=? n else D <=? n * 2 ^ (- k).

(** The binade of the ratio [n / D] of two positive integers: the [b] with
    [2^b <= n / D < 2^(b+1)]. *)
Definition binade (n D : Z) : Z :=
  let k := Z.log2 n - Z.log2 D in
  if scale_le D k n then k else k - 1.

(** The exponent of the unit in the last place in that binade,
    bounded below by the exponent of the subnormal numbers. *)
Definition ulp_exponent (n D : Z) : Z :=
  Z.max (binade n D - (prec - 1)) (3 - emax - prec).

(** [n / (D * 2^E)] rounded to the nearest integer, ties to even. *)
Definition mantissa (n D E : Z) : Z :=
  if E <? 0 then rhe_div (n * 2 ^ (- E)) D else rhe_div n (D * 2 ^ E).

(** A mantissa that the rounding has carried to [2^53] moves to the next
    binade. *)
Definition normalize (M E : Z) : Z * Z :=
  if M =? 2 ^ prec then (2 ^ (prec - 1), E + 1) else (M, E).

(** The float of sign [s] with the given mantissa and exponent: a zero when
    the mantissa vanishes, an infinity when the exponent is out of range. *)
Definition pack (s : bool) (ME : Z * Z) : float :=
  match fst ME with
  | Zpos p =>
      if snd ME <=? emax - prec then S754_finite s p (snd ME)
      else S754_infinity s
  | _ => S754_zero s
  end.

(** The double nearest to the ratio [n / D] of two positive integers, ties
    to even, with sign [s]. *)
Definition nearest_ratio (s : bool) (n D : Z) : float :=
  if n <=? 0 then S754_zero s
  else
    let E := ulp_exponent n D in
    pack s (normalize (mantissa n D E) E).

(** [|x| * D] rounded to the nearest integer, ties to even, for the finite
    float with mantissa [m] and exponent [e]. *)
Definition scaled (m : positive) (e : Z) (D : Z) : Z :=
  if 0 <=? e then D * Zpos m * 2 ^ e
  else rhe_div (D * Zpos m) (2 ^ (- e)).

(** Built-in [round(x, ndigits)] on a float, [0 <= ndigits]: the decimal
    with [ndigits] places nearest to the exact value of [x] (ties to the
    even digit), converted back to the nearest double.  Zeros, infinities
    and NaN round to themselves. *)
Definition pyround (x : float) (ndigits : Z) : float :=
  match x with
  | S754_finite s m e =>
      let D := 10 ^ ndigits in nearest_ratio s (scaled m e D) D
  | _ => x
  end.

(** True division [a / b] of two [int]s: the correctly rounded quotient. *)
Definition int_truediv (a b : Z) : result float :=
  if b =? 0 then Raise ZeroDivisionError
  else
    match nearest_ratio (xorb (a <? 0) (b <? 0)) (Z.abs a) (Z.abs b) with
    | S754_infinity _ => Raise OverflowError
    | q => Ok q
    end.

(** Float literals of the sources. *)
Definition f0 : float := Eval vm_compute in of_Z 0.
Definition f1 : float := Eval vm_compute in of_Z 1.
Definition f15 : float := Eval vm_compute in of_Z 15.
Definition f50 : float := Eval vm_compute in of_Z 50.
Definition f100 : float := Eval vm_compute in of_Z 100.
Definition f0_05 : float := Eval vm_compute in fdiv (of_Z 5) (of_Z 100).
Definition f0_20 : float := Eval vm_compute in fdiv (of_Z 20) (of_Z 100).
Definition f0_50 : float := Eval vm_compute in fdiv (of_Z 50) (of_Z 100).

(** A float given by a decimal literal [num / den] ([den] a power of ten
    below [2^53]): literals are parsed to the nearest double. *)
Definition dec (num den : Z) : float :=
  if num <? 0 then SFopp (fdiv (of_Z (- num)) (of_Z den))
  else fdiv (of_Z num) (of_Z den).

End Float64.

(** ** adaptive_shield_engine.py *)

Module Engine.
Import Float64.

(** A number received where the signature announces an [int] or a [float]:
    Python does not enforce the annotation, so either can arrive. *)
Inductive pynum : Type :=
| PyInt (z : Z)
| PyFloat (f : float).

(** [streak < 0] on such a value. *)
Definition pynum_neg (v : pynum) : bool :=
  match v with
  | PyInt z => z <? 0
  | PyFloat f => flt f f0
  end.

(** [base_bet <= 0] on such a value. *)
Definition pynum_nonpos (v : pynum) : bool :=
  match v with
  | PyInt z => z <=? 0
  | PyFloat f => fle f f0
  end.

(** The operand of an operation whose other operand is a [float]: an [int]
    is converted. *)
Definition pynum_to_float (v : pynum) : result float :=
  match v with
  | PyInt z => float_of_int z
  | PyFloat f => Ok f
  end.

(** [v * k] for an [int] [k]: the exact product of two [int]s; with a
    [float] on the left the [int] is converted first. *)
Definition pynum_mul_int (v : pynum) (k : Z) : result pynum :=
  match v with
  | PyInt z => Ok (PyInt (z * k))
  | PyFloat f => fk ← float_of_int k; Ok (PyFloat (fmul f fk))
  end.

(** The body of [get_fib_for_streak] once the argument is known to be a
    non-negative [int]; the table [FIBONACCI_CACHE] is threaded through.
    The recursion follows the calls on [streak - 1] and [streak - 2].

    [frames] is the number of calls that the interpreter still allows to be
    nested in the running one: its recursion limit less the frames in use.
    Each of the two calls takes one frame for as long as it runs; with none
    left, calling raises [RecursionError].  Looking the table up and the
    three first terms need no call. *)
Fixpoint fib_rec (frames : nat) (n : nat) (c : gmap Z Z)
  : result (Z * gmap Z Z) :=
  match c !! Z.of_nat n with
  | Some v => Ok (v, c)
  | None =>
      match n with
      | S (S (S _ as n2) as n1) =>
          match frames with
          | O => Raise RecursionError
          | S frames' =>
              '(val_minus_1, c1) ← fib_rec frames' n1 c;
              '(val_minus_2, c2) ← fib_rec frames' n2 c1;
              let r := val_minus_1 + val_minus_2 in
              Ok (r, <[Z.of_nat n := r]> c2)
          end
      | _ => Ok (1, <[Z.of_nat n := 1]> c)
      end
  end.

(** [get_fib_for_streak(streak)], with [frames] calls still allowed inside
    it and the table [c]. *)
Definition get_fib_for_streak (streak : pynum) (frames : nat) (c : gmap Z Z)
  : result (Z * gmap Z Z) :=
  match streak with
  | PyInt z => if z <? 0 then Raise ValueError else fib_rec frames (Z.to_nat z) c
  | PyFloat _ => Raise ValueError
  end.

(** [calculate_bet(base_bet, current_streak, z_count_last_50)]; [frames] is
    the number of calls still allowed inside the call of
    [get_fib_for_streak] that it makes.  In [base_bet * fib_k *
    buffer_factor] the first product is that of two [int]s when the base
    stake is an [int], and is converted as a whole by the second. *)
Definition calculate_bet (base_bet : pynum) (current_streak : pynum)
    (z_count_last_50 : Z) (frames : nat) (c : gmap Z Z)
  : result (float * gmap Z Z) :=
  let streak := current_streak in
  if pynum_nonpos base_bet then Ok (f0, c)
  else if pynum_neg streak then Ok (f0, c)
  else if negb ((0 <=? z_count_last_50) && (z_count_last_50 <=? 50))
  then Ok (f0, c)
  else
    '(fib_k, c1) ← get_fib_for_streak streak frames c;
    zf ← float_of_int z_count_last_50;
    let buffer_factor := fsub f1 (fdiv zf f50) in
    if fle buffer_factor f0 then Ok (f0, c1)
    else
      sf ← pynum_to_float streak;
      let risk_index := fadd f1 (fdiv sf f15) in
      if fle risk_index f0 then Ok (f0, c1)
      else
        product ← pynum_mul_int base_bet fib_k;
        pf ← pynum_to_float product;
        let bet_amount := fdiv (fmul pf buffer_factor) risk_index in
        Ok (pyround bet_amount 2, c1).

End Engine.

(** ** risk_monitor.py *)

Module RiskMonitor.
Import Float64.

Definition MAX_CONSECUTIVE_LOSSES_LIMIT : Z := 15.
Definition MAX_ZEROS_IN_50_SPINS_LIMIT : Z := 4.
Definition DRAWDOWN_LIMIT_PERCENTAGE : float := f0_20.
Definition ZERO_BUFFER_CONTRIBUTION_RATE : float := f0_05.
Definition ZERO_LOSS_COMPENSATION_RATE : float := f0_50.
Definition MAX_HISTORY_FOR_ZERO_COUNT : Z := 50.

(** The dictionary [stop_conditions_met]; its three keys are fixed. *)
Record stop_flags : Type := {
  loss_streak_limit : bool;
  zero_count_limit : bool;
  drawdown_limit : bool
}.

Record risk_monitor : Type := {
  initial_bank : float;
  base_bet : float;
  current_bank : float;
  current_streak : Z;
  z_count_last_50 : Z;
  zero_buffer : float;
  spin_history_for_zero_count : list Z;
  stop_conditions_met : stop_flags
}.

Definition reset_state (new_initial_bank new_base_bet : float) : risk_monitor :=
  {| initial_bank := new_initial_bank;
     base_bet := new_base_bet;
     current_bank := new_initial_bank;
     current_streak := 0;
     z_count_last_50 := 0;
     zero_buffer := f0;
     spin_history_for_zero_count := [];
     stop_conditions_met :=
       {| loss_streak_limit := false;
          zero_count_limit := false;
          drawdown_limit := false |} |}.

(** [RiskMonitor(initial_bank, base_bet)]. *)
Definition init (initial_bank base_bet : float) : risk_monitor :=
  reset_state initial_bank base_bet.

Definition set_current_bank (b : float) (rm : risk_monitor) : risk_monitor :=
  {| initial_bank := initial_bank rm; base_bet := base_bet rm;
     current_bank := b;
     current_streak := current_streak rm;
     z_count_last_50 := z_count_last_50 rm;
     zero_buffer := zero_buffer rm;
     spin_history_for_zero_count := spin_history_for_zero_count rm;
     stop_conditions_met := stop_conditions_met rm |}.

Definition set_current_streak (k : Z) (rm : risk_monitor) : risk_monitor :=
  {| initial_bank := initial_bank rm; base_bet := base_bet rm;
     current_bank := current_bank rm;
     current_streak := k;
     z_count_last_50 := z_count_last_50 rm;
     zero_buffer := zero_buffer rm;
     spin_history_for_zero_count := spin_history_for_zero_count rm;
     stop_conditions_met := stop_conditions_met rm |}.

Definition set_z_count (k : Z) (rm : risk_monitor) : risk_monitor :=
  {| initial_bank := initial_bank rm; base_bet := base_bet rm;
     current_bank := current_bank rm;
     current_streak := current_streak rm;
     z_count_last_50 := k;
     zero_buffer := zero_buffer rm;
     spin_history_for_zero_count := spin_history_for_zero_count rm;
     stop_conditions_met := stop_conditions_met rm |}.

Definition set_zero_buffer (b : float) (rm : risk_monitor) : risk_monitor :=
  {| initial_bank := initial_bank rm; base_bet := base_bet rm;
     current_bank := current_bank rm;
     current_streak := current_streak rm;
     z_count_last_50 := z_count_last_50 rm;
     zero_buffer := b;
     spin_history_for_zero_count := spin_history_for_zero_count rm;
     stop_conditions_met := stop_conditions_met rm |}.

Definition set_history (h : list Z) (rm : risk_monitor) : risk_monitor :=
  {| initial_bank := initial_bank rm; base_bet := base_bet rm;
     current_bank := current_bank rm;
     current_streak := current_streak rm;
     z_count_last_50 := z_count_last_50 rm;
     zero_buffer := zero_buffer rm;
     spin_history_for_zero_count := h;
     stop_conditions_met := stop_conditions_met rm |}.

Definition set_flags (f : stop_flags) (rm : risk_monitor) : risk_monitor :=
  {| initial_bank := initial_bank rm; base_bet := base_bet rm;
     current_bank := current_bank rm;
     current_streak := current_streak rm;
     z_count_last_50 := z_count_last_50 rm;
     zero_buffer := zero_buffer rm;
     spin_history_for_zero_count := spin_history_for_zero_count rm;
     stop_conditions_met := f |}.

(** Built-in [sum] of a list of [int]s. *)
Definition pysum (l : list Z) : Z := foldr Z.add 0 l.

Definition update_z_count (rm : risk_monitor) : risk_monitor :=
  set_z_count (pysum (spin_history_for_zero_count rm)) rm.

Definition is_stop_suggested (rm : risk_monitor) : bool :=
  let f := stop_conditions_met rm in
  loss_streak_limit f || zero_count_limit f || drawdown_limit f.

Definition check_stop_conditions (rm : risk_monitor) : risk_monitor :=
  let loss := MAX_CONSECUTIVE_LOSSES_LIMIT <=? current_streak rm in
  let zero := MAX_ZEROS_IN_50_SPINS_LIMIT <=? z_count_last_50 rm in
  let dd :=
    if fgt (initial_bank rm) f0 then
      let drawdown :=
        fdiv (fsub (initial_bank rm) (current_bank rm)) (initial_bank rm) in
      fge drawdown DRAWDOWN_LIMIT_PERCENTAGE
    else if flt (current_bank rm) f0 then true
    else false in
  set_flags {| loss_streak_limit := loss;
               zero_count_limit := zero;
               drawdown_limit := dd |} rm.

(** [update_state]; [spin_result] and [is_simulation] are not read by the
    body and are left out, [current_bank_override] is [None] when the caller
    omits it. *)
Definition update_state (rm : risk_monitor) (bet_amount win_amount : float)
    (is_zero_result : bool) (current_bank_override : option float)
  : risk_monitor :=
  let rm :=
    match current_bank_override with
    | Some b => set_current_bank b rm
    | None => rm
    end in
  let h := spin_history_for_zero_count rm ++ [if is_zero_result then 1 else 0] in
  let h := if MAX_HISTORY_FOR_ZERO_COUNT <? Z.of_nat (length h) then tail h
           else h in
  let rm := update_z_count (set_history h rm) in
  let rm :=
    if fgt win_amount f0 then
      let rm := set_current_bank (fadd (current_bank rm) win_amount) rm in
      let rm := set_current_streak 0 rm in
      let contribution := fmul win_amount ZERO_BUFFER_CONTRIBUTION_RATE in
      set_zero_buffer (pyround (fadd (zero_buffer rm) contribution) 2) rm
    else
      let rm := set_current_bank (fsub (current_bank rm) bet_amount) rm in
      let rm := set_current_streak (current_streak rm + 1) rm in
      if is_zero_result then
        let potential_compensation :=
          fmul bet_amount ZERO_LOSS_COMPENSATION_RATE in
        let actual_compensation :=
          pymin potential_compensation (zero_buffer rm) in
        let actual_compensation := pyround actual_compensation 2 in
        let rm :=
          set_current_bank (fadd (current_bank rm) actual_compensation) rm in
        set_zero_buffer
          (pyround (fsub (zero_buffer rm) actual_compensation) 2) rm
      else rm in
  let rm := set_current_bank (pyround (current_bank rm) 2) rm in
  check_stop_conditions rm.

(** The helper [check_autostop_conditions_func].  Each reason is a message
    built from a fixed template; it is kept as the template and the values
    formatted into it. *)
Inductive stop_reason : Type :=
| LossStreakReached (streak : Z)
| ZeroCountReached (z_count_last_50 : Z)
| DrawdownReached (drawdown initial_bank current_bank : float)
| NegativeBank (current_bank initial_bank : float).

Definition check_autostop_conditions_func (streak z_count_last_50 : Z)
    (initial_bank current_bank : float) : list stop_reason :=
  let reasons := [] in
  let reasons :=
    if MAX_CONSECUTIVE_LOSSES_LIMIT <=? streak
    then reasons ++ [LossStreakReached streak] else reasons in
  let reasons :=
    if MAX_ZEROS_IN_50_SPINS_LIMIT <=? z_count_last_50
    then reasons ++ [ZeroCountReached z_count_last_50] else reasons in
  if fgt initial_bank f0 then
    let drawdown := fdiv (fsub initial_bank current_bank) initial_bank in
    if fge drawdown DRAWDOWN_LIMIT_PERCENTAGE
    then reasons ++ [DrawdownReached drawdown initial_bank current_bank]
    else reasons
  else if flt current_bank f0
  then reasons ++ [NegativeBank current_bank initial_bank]
  else reasons.

End RiskMonitor.

(** ** live_analytics.py *)

Module Analytics.

Definition RED_NUMBERS : gset Z :=
  list_to_set [1; 3; 5; 7; 9; 12; 14; 16; 18; 19; 21; 23; 25; 27; 30; 32; 34; 36].
Definition BLACK_NUMBERS : gset Z :=
  list_to_set [2; 4; 6; 8; 10; 11; 13; 15; 17; 20; 22; 24; 26; 28; 29; 31; 33; 35].
Definition ZERO_NUMBER : Z := 0.
Definition ALL_NUMBERS : gset Z := list_to_set (seqZ 0 37).

(** [DOZENS] and [COLUMNS] are read by iteration in insertion order. *)
Definition DOZENS : list (Z * gset Z) :=
  [(1, list_to_set (seqZ 1 12));
   (2, list_to_set (seqZ 13 12));
   (3, list_to_set (seqZ 25 12))].

Definition COLUMNS : list (Z * gset Z) :=
  [(1, list_to_set [1; 4; 7; 10; 13; 16; 19; 22; 25; 28; 31; 34]);
   (2, list_to_set [2; 5; 8; 11; 14; 17; 20; 23; 26; 29; 32; 35]);
   (3, list_to_set [3; 6; 9; 12; 15; 18; 21; 24; 27; 30; 33; 36])].

Definition EVEN_NUMBERS : gset Z :=
  list_to_set (filter (fun i => i `mod` 2 = 0) (seqZ 1 36)).
Definition ODD_NUMBERS : gset Z :=
  list_to_set (filter (fun i => i `mod` 2 <> 0) (seqZ 1 36)).
Definition LOW_NUMBERS : gset Z := list_to_set (seqZ 1 18).
Definition HIGH_NUMBERS : gset Z := list_to_set (seqZ 19 18).

(** The dictionary built by [get_number_properties]. *)
Record number_properties : Type := {
  number : Z;
  is_zero : bool;
  color : option string;
  parity : option string;
  range : option string;
  dozen : option Z;
  column : option Z
}.

(** The key of the first entry whose set holds [n] (loop with [break]). *)
Definition first_zone (n : Z) (zones : list (Z * gset Z)) : option Z :=
  fst <$> List.find (fun z => bool_decide (n ∈ snd z)) zones.

Definition get_number_properties (n : Z) : result number_properties :=
  if negb (bool_decide (n ∈ ALL_NUMBERS)) then Raise ValueError
  else if bool_decide (n ≠ ZERO_NUMBER) then
    Ok {| number := n;
          is_zero := bool_decide (n = ZERO_NUMBER);
          color := Some (if bool_decide (n ∈ RED_NUMBERS) then "red"
                         else "black")%string;
          parity := Some (if bool_decide (n ∈ EVEN_NUMBERS) then "even"
                          else "odd")%string;
          range := Some (if bool_decide (n ∈ LOW_NUMBERS) then "low"
                         else "high")%string;
          dozen := first_zone n DOZENS;
          column := first_zone n COLUMNS |}
  else
    Ok {| number := n;
          is_zero := bool_decide (n = ZERO_NUMBER);
          color := None; parity := None; range := None;
          dozen := None; column := None |}.

Import Float64.

(** [THEORETICAL_PROBABILITIES]; the values are quotients of [int]s. *)
Definition p_1_37 : float := Eval vm_compute in fdiv (of_Z 1) (of_Z 37).
Definition p_12_37 : float := Eval vm_compute in fdiv (of_Z 12) (of_Z 37).
Definition p_18_37 : float := Eval vm_compute in fdiv (of_Z 18) (of_Z 37).

Definition THEORETICAL_PROBABILITIES : gmap string float :=
  list_to_map
    [("number", p_1_37); ("red", p_18_37); ("black", p_18_37);
     ("zero", p_1_37); ("even", p_18_37); ("odd", p_18_37);
     ("low", p_18_37); ("high", p_18_37); ("dozen", p_12_37);
     ("column", p_12_37)]%string.

(** [calculate_non_event_streak]: the loop over [reversed(history)], left
    at the first number on which the event holds.  The checker is taken to
    return a truth value. *)
Fixpoint non_event_loop (rev_history : list Z)
    (event_checker_func : number_properties -> bool) (streak : Z)
  : result Z :=
  match rev_history with
  | [] => Ok streak
  | spin_number :: rest =>
      props ← get_number_properties spin_number;
      if event_checker_func props then Ok streak
      else non_event_loop rest event_checker_func (streak + 1)
  end.

Definition calculate_non_event_streak (history : list Z)
    (event_checker_func : number_properties -> bool) : result Z :=
  non_event_loop (reverse history) event_checker_func 0.

(** [c[k] += 1] on a [Counter]: a missing key counts for 0. *)
Definition counter_incr `{Countable K} (k : K) (c : gmap K Z) : gmap K Z :=
  <[k := default 0 (c !! k) + 1]> c.

(** [if props[key]: c[props[key]] += 1]: [None], [0] and the empty string
    are false. *)
Definition count_int (o : option Z) (c : gmap Z Z) : gmap Z Z :=
  match o with
  | Some k => if bool_decide (k ≠ 0) then counter_incr k c else c
  | None => c
  end.

Definition count_str (o : option string) (c : gmap string Z)
  : gmap string Z :=
  match o with
  | Some k => if bool_decide (k ≠ ""%string) then counter_incr k c else c
  | None => c
  end.

(** The dictionary returned by [analyze_zone_distribution]; the key
    ["parity"] is the field [parity_counts]. *)
Record zone_distribution : Type := {
  dozens : gmap Z Z;
  columns : gmap Z Z;
  colors : gmap string Z;
  parity_counts : gmap string Z;
  ranges : gmap string Z;
  total_spins_analyzed : Z
}.

Definition count_spin (props : number_properties) (d : zone_distribution)
  : zone_distribution :=
  {| dozens := count_int (dozen props) (dozens d);
     columns := count_int (column props) (columns d);
     colors := count_str (color props) (colors d);
     parity_counts := count_str (parity props) (parity_counts d);
     ranges := count_str (range props) (ranges d);
     total_spins_analyzed := total_spins_analyzed d |}.

Fixpoint count_spins (relevant_history : list Z) (d : zone_distribution)
  : result zone_distribution :=
  match relevant_history with
  | [] => Ok d
  | spin_number :: rest =>
      props ← get_number_properties spin_number;
      count_spins rest (count_spin props d)
  end.

(** [history[-last_n_spins:]] when [last_n_spins] is given and positive,
    [history] otherwise. *)
Definition relevant_history (history : list Z) (last_n_spins : option Z)
  : list Z :=
  match last_n_spins with
  | Some n =>
      if 0 <? n then drop (length history - Z.to_nat n) history else history
  | None => history
  end.

Definition analyze_zone_distribution (history : list Z)
    (last_n_spins : option Z) : result zone_distribution :=
  let relevant_history := relevant_history history last_n_spins in
  count_spins relevant_history
    {| dozens := ∅; columns := ∅; colors := ∅; parity_counts := ∅;
       ranges := ∅;
       total_spins_analyzed := Z.of_nat (length relevant_history) |}.

(** One innermost dictionary of [calculate_deviation_from_theoretical]. *)
Record deviation_entry : Type := {
  count : Z;
  actual_frequency : float;
  theoretical_frequency : float;
  deviation : float
}.

Definition deviation_of (count total_spins : Z) (theoretical_freq : float)
  : result deviation_entry :=
  actual_freq ← int_truediv count total_spins;
  Ok {| count := count;
        actual_frequency := pyround actual_freq 4;
        theoretical_frequency := pyround theoretical_freq 4;
        deviation := pyround (fsub actual_freq theoretical_freq) 4 |}.

(** One loop [for key, count in counts.items()] filling a dictionary of
    entries. *)
Definition deviations_of `{Countable K} (counts : gmap K Z) (total_spins : Z)
    (theoretical_freq : K -> float) : result (gmap K deviation_entry) :=
  entries ← mapM (fun kc : K * Z =>
                    e ← deviation_of kc.2 total_spins (theoretical_freq kc.1);
                    Ok (kc.1, e))
                 (map_to_list counts);
  Ok (list_to_map entries).

(** [str.lower] on the letters A to Z. *)
Definition ascii_lower (a : Ascii.ascii) : Ascii.ascii :=
  let n := Ascii.nat_of_ascii a in
  if ((65 <=? n) && (n <=? 90))%nat then Ascii.ascii_of_nat (n + 32) else a.

Fixpoint str_lower (s : string) : string :=
  match s with
  | EmptyString => EmptyString
  | String a r => String (ascii_lower a) (str_lower r)
  end.

(** The non-empty dictionary of [calculate_deviation_from_theoretical];
    [dev_zero] is its entry ["zero"], a dictionary with the single key
    [0]. *)
Record deviation_report : Type := {
  dev_colors : gmap string deviation_entry;
  dev_zero : deviation_entry;
  dev_dozens : gmap Z deviation_entry;
  dev_columns : gmap Z deviation_entry
}.

(** [calculate_deviation_from_theoretical]; [None] is the empty dictionary
    returned for an empty history. *)
Definition calculate_deviation_from_theoretical (history : list Z)
  : result (option deviation_report) :=
  let total_spins := Z.of_nat (length history) in
  if total_spins =? 0 then Ok None
  else
    distributions ← analyze_zone_distribution history None;
    dc ← deviations_of (colors distributions) total_spins
            (fun color =>
               default f0 (THEORETICAL_PROBABILITIES !! str_lower color));
    let zero_count :=
      Z.of_nat (length (filter (fun n => n = 0) history)) in
    dz ← deviation_of zero_count total_spins
            (default f0 (THEORETICAL_PROBABILITIES !! "zero"%string));
    dd ← deviations_of (dozens distributions) total_spins
            (fun _ => default f0 (THEORETICAL_PROBABILITIES !! "dozen"%string));
    dl ← deviations_of (columns distributions) total_spins
            (fun _ => default f0 (THEORETICAL_PROBABILITIES !! "column"%string));
    Ok (Some {| dev_colors := dc; dev_zero := dz;
                dev_dozens := dd; dev_columns := dl |}).

End Analytics.

(** ** simulator.py *)

Module Simulator.
Import Float64.

(** One entry of [bet_history]. *)
Record bet_record : Type := {
  spin : Z;
  result_number : Z;
  bet_amount : float;
  win_amount_from_bet : float;
  bank_before_bet : float;
  bank_after_spin : float;
  streak_before_bet : Z;
  z_count_before_bet : Z;
  risk_index : float;
  buffer_factor : float
}.

(** [session_stats["stop_triggers"]]: one counter per stop flag. *)
Record trigger_counts : Type := {
  n_loss_streak_limit : Z;
  n_zero_count_limit : Z;
  n_drawdown_limit : Z
}.

Record session_stats : Type := {
  total_spins : Z;
  wins : Z;
  losses : Z;
  zeros_hit : Z;
  max_streak_loss : Z;
  max_drawdown : float;
  current_drawdown : float;
  bank_history : list float;
  stop_triggers : trigger_counts;
  final_bank : float;
  profit_loss : float;
  roi : float;
  zero_buffer_accumulated : float;
  zero_buffer_spent : float
}.

Record simulator : Type := {
  initial_bank : float;
  base_bet : float;
  risk_monitor : RiskMonitor.risk_monitor;
  current_bank : float;
  spin_history : list Z;
  bet_history : list bet_record;
  stats : session_stats
}.

(** How the loop of [run_simulation] was left (the three [break]s and the
    exhaustion of [range]). *)
Inductive exit_reason : Type :=
| StopBeforeBet
| StopAfterBet
| Bankrupt
| Completed.

(** [RouletteSimulator(initial_bank, base_bet, calculate_bet, monitor)]. *)
Definition init (initial_bank base_bet : float)
    (risk_monitor_instance : RiskMonitor.risk_monitor) : simulator :=
  {| initial_bank := initial_bank;
     base_bet := base_bet;
     risk_monitor := risk_monitor_instance;
     current_bank := initial_bank;
     spin_history := [];
     bet_history := [];
     stats :=
       {| total_spins := 0; wins := 0; losses := 0; zeros_hit := 0;
          max_streak_loss := 0; max_drawdown := f0; current_drawdown := f0;
          bank_history := [initial_bank];
          stop_triggers := {| n_loss_streak_limit := 0;
                              n_zero_count_limit := 0;
                              n_drawdown_limit := 0 |};
          final_bank := initial_bank; profit_loss := f0; roi := f0;
          zero_buffer_accumulated := f0; zero_buffer_spent := f0 |} |}.

Definition with_stats (f : session_stats -> session_stats) (s : simulator)
  : simulator :=
  {| initial_bank := initial_bank s; base_bet := base_bet s;
     risk_monitor := risk_monitor s; current_bank := current_bank s;
     spin_history := spin_history s; bet_history := bet_history s;
     stats := f (stats s) |}.

Definition set_total_spins (k : Z) (st : session_stats) : session_stats :=
  {| total_spins := k; wins := wins st; losses := losses st;
     zeros_hit := zeros_hit st; max_streak_loss := max_streak_loss st;
     max_drawdown := max_drawdown st; current_drawdown := current_drawdown st;
     bank_history := bank_history st; stop_triggers := stop_triggers st;
     final_bank := final_bank st; profit_loss := profit_loss st;
     roi := roi st; zero_buffer_accumulated := zero_buffer_accumulated st;
     zero_buffer_spent := zero_buffer_spent st |}.

(** [for k, v in stop_conditions_met.items(): if v: stop_triggers[k] += 1]. *)
Definition count_triggers (f : RiskMonitor.stop_flags) (st : session_stats)
  : session_stats :=
  let t := stop_triggers st in
  let bump (v : bool) (k : Z) := if v then k + 1 else k in
  {| total_spins := total_spins st; wins := wins st; losses := losses st;
     zeros_hit := zeros_hit st; max_streak_loss := max_streak_loss st;
     max_drawdown := max_drawdown st; current_drawdown := current_drawdown st;
     bank_history := bank_history st;
     stop_triggers :=
       {| n_loss_streak_limit :=
            bump (RiskMonitor.loss_streak_limit f) (n_loss_streak_limit t);
          n_zero_count_limit :=
            bump (RiskMonitor.zero_count_limit f) (n_zero_count_limit t);
          n_drawdown_limit :=
            bump (RiskMonitor.drawdown_limit f) (n_drawdown_limit t) |};
     final_bank := final_bank st; profit_loss := profit_loss st;
     roi := roi st; zero_buffer_accumulated := zero_buffer_accumulated st;
     zero_buffer_spent := zero_buffer_spent st |}.

(** The statistics updated after a round in which a stake was placed. *)
Definition record_round (bank win : float) (is_zero_result : bool)
    (streak : Z) (zb_before zb_after init_bank : float) (st : session_stats)
  : session_stats :=
  let current_drawdown_val := fsub init_bank bank in
  {| total_spins := total_spins st;
     wins := if fgt win f0 then wins st + 1 else wins st;
     losses := if fgt win f0 then losses st else losses st + 1;
     zeros_hit := if is_zero_result then zeros_hit st + 1 else zeros_hit st;
     max_streak_loss := Z.max (max_streak_loss st) streak;
     max_drawdown :=
       if fgt current_drawdown_val f0
       then pymax (max_drawdown st) current_drawdown_val
       else max_drawdown st;
     current_drawdown := current_drawdown_val;
     bank_history := bank_history st ++ [bank];
     stop_triggers := stop_triggers st;
     final_bank := final_bank st; profit_loss := profit_loss st;
     roi := roi st;
     zero_buffer_accumulated :=
       if fgt zb_after zb_before
       then fadd (zero_buffer_accumulated st)
                 (pyround (fsub zb_after zb_before) 2)
       else zero_buffer_accumulated st;
     zero_buffer_spent :=
       if fgt zb_after zb_before then zero_buffer_spent st
       else if flt zb_after zb_before
       then fadd (zero_buffer_spent st) (pyround (fsub zb_before zb_after) 2)
       else zero_buffer_spent st |}.

(** The statistics completed once the loop is left. *)
Definition final_stats (bank init_bank : float) (st : session_stats)
  : session_stats :=
  let pl := fsub bank init_bank in
  {| total_spins := total_spins st; wins := wins st; losses := losses st;
     zeros_hit := zeros_hit st; max_streak_loss := max_streak_loss st;
     max_drawdown := max_drawdown st; current_drawdown := current_drawdown st;
     bank_history := bank_history st; stop_triggers := stop_triggers st;
     final_bank := bank;
     profit_loss := pl;
     roi := if fgt init_bank f0 then fmul (fdiv pl init_bank) f100 else f0;
     zero_buffer_accumulated := zero_buffer_accumulated st;
     zero_buffer_spent := zero_buffer_spent st |}.

(** The bot always stakes on red, paid 1:1. *)
Definition place_bet_and_determine_outcome (bet_amount : float)
    (spin_result : Z) : result (float * bool) :=
  if fle bet_amount f0 then Ok (f0, false)
  else
    props ← Analytics.get_number_properties spin_result;
    let is_zero_result := Analytics.is_zero props in
    if negb is_zero_result
       && bool_decide (Analytics.color props = Some "red"%string)
    then Ok (bet_amount, is_zero_result)
    else Ok (f0, is_zero_result).

(** [1 + (k / 15)] and [1 - (k / 50)] on [int]s [k]. *)
Definition risk_index_of (streak : Z) : result float :=
  q ← int_truediv streak 15; Ok (fadd f1 q).
Definition buffer_factor_of (z_count : Z) : result float :=
  q ← int_truediv z_count 50; Ok (fsub f1 q).

(** The calls still allowed inside [get_fib_for_streak] when the driver
    calls the strategy engine.  The script runs the driver from the top
    level of the module (line 237); the module, [run_simulation],
    [calculate_bet] and [get_fib_for_streak] hold four of the frames that
    the interpreter allows. *)
Definition engine_frames : nat := recursion_limit - 4.

Section Driver.

(** The outcome source, [random.choice(EUROPEAN_ROULETTE_NUMBERS)]: the
    number drawn by the [i]-th call of [_spin_wheel], counted from 0. *)
Variable wheel : nat -> Z.

(** A round in which no stake is placed. *)
Definition skip_round (spin_count : Z) (s : simulator)
  : result simulator :=
  let actual_spin_result := wheel (length (spin_history s)) in
  let spins := spin_history s ++ [actual_spin_result] in
  props ← Analytics.get_number_properties actual_spin_result;
  let rm :=
    RiskMonitor.update_state (risk_monitor s) f0 f0
      (Analytics.is_zero props) None in
  ri ← risk_index_of (RiskMonitor.current_streak rm);
  bf ← buffer_factor_of (RiskMonitor.z_count_last_50 rm);
  let rec :=
    {| spin := spin_count; result_number := actual_spin_result;
       bet_amount := f0; win_amount_from_bet := f0;
       bank_before_bet := current_bank s; bank_after_spin := current_bank s;
       streak_before_bet := RiskMonitor.current_streak rm;
       z_count_before_bet := RiskMonitor.z_count_last_50 rm;
       risk_index := ri; buffer_factor := bf |} in
  Ok {| initial_bank := initial_bank s; base_bet := base_bet s;
        risk_monitor := rm; current_bank := current_bank s;
        spin_history := spins; bet_history := bet_history s ++ [rec];
        stats := stats s |}.

(** A round in which the stake [bet_amount > 0] is placed; the second
    component tells whether the loop is left afterwards. *)
Definition bet_round (spin_count : Z) (bet_amount : float) (s : simulator)
  : result (simulator * option exit_reason) :=
  let actual_spin_result := wheel (length (spin_history s)) in
  let spins := spin_history s ++ [actual_spin_result] in
  let bank_before_bet_for_this_spin := current_bank s in
  '(win_amount, is_zero_result) ←
    place_bet_and_determine_outcome bet_amount actual_spin_result;
  let initial_zero_buffer_before_update :=
    RiskMonitor.zero_buffer (risk_monitor s) in
  let rm :=
    RiskMonitor.update_state (risk_monitor s) bet_amount win_amount
      is_zero_result (Some bank_before_bet_for_this_spin) in
  let bank := RiskMonitor.current_bank rm in
  let streak_before_this_spin := RiskMonitor.current_streak rm in
  let z_count_before_this_spin := RiskMonitor.z_count_last_50 rm in
  let streak_before_this_spin :=
    if feq win_amount f0 && negb is_zero_result
    then streak_before_this_spin - 1 else streak_before_this_spin in
  let z_count_before_this_spin :=
    if is_zero_result then z_count_before_this_spin - 1
    else z_count_before_this_spin in
  let streak_before_this_spin := Z.max 0 streak_before_this_spin in
  let z_count_before_this_spin := Z.max 0 z_count_before_this_spin in
  ri ← risk_index_of streak_before_this_spin;
  bf ← buffer_factor_of z_count_before_this_spin;
  let rec :=
    {| spin := spin_count; result_number := actual_spin_result;
       bet_amount := bet_amount; win_amount_from_bet := win_amount;
       bank_before_bet := bank_before_bet_for_this_spin;
       bank_after_spin := bank;
       streak_before_bet := streak_before_this_spin;
       z_count_before_bet := z_count_before_this_spin;
       risk_index := pyround ri 4; buffer_factor := pyround bf 4 |} in
  let st :=
    record_round bank win_amount is_zero_result
      (RiskMonitor.current_streak rm) initial_zero_buffer_before_update
      (RiskMonitor.zero_buffer rm) (initial_bank s) (stats s) in
  let s' :=
    {| initial_bank := initial_bank s; base_bet := base_bet s;
       risk_monitor := rm; current_bank := bank;
       spin_history := spins; bet_history := bet_history s ++ [rec];
       stats := st |} in
  if RiskMonitor.is_stop_suggested rm then
    Ok (with_stats (count_triggers (RiskMonitor.stop_conditions_met rm)) s',
        Some StopAfterBet)
  else if fle bank f0 then Ok (s', Some Bankrupt)
  else Ok (s', None).

(** One iteration of the loop of [run_simulation]; [None] stands for
    reaching the end of the body or its [continue]. *)
Definition loop_body (spin_count : Z) (s : simulator) (c : gmap Z Z)
  : result (simulator * gmap Z Z * option exit_reason) :=
  let s := with_stats (set_total_spins spin_count) s in
  let rm := risk_monitor s in
  if RiskMonitor.is_stop_suggested rm then
    Ok (with_stats (count_triggers (RiskMonitor.stop_conditions_met rm)) s,
        c, Some StopBeforeBet)
  else
    '(bet_amount, c) ←
      Engine.calculate_bet (Engine.PyFloat (base_bet s))
        (Engine.PyInt (RiskMonitor.current_streak rm))
        (RiskMonitor.z_count_last_50 rm) engine_frames c;
    let bet_amount := pyround bet_amount 2 in
    let bet_amount := pymin bet_amount (current_bank s) in
    if fle bet_amount f0 then
      s' ← skip_round spin_count s; Ok (s', c, None)
    else
      '(s', e) ← bet_round spin_count bet_amount s; Ok (s', c, e).

(** [for spin_count in range(first, first + n)]. *)
Fixpoint run_loop (n : nat) (spin_count : Z) (s : simulator) (c : gmap Z Z)
  : result (simulator * gmap Z Z * exit_reason) :=
  match n with
  | O => Ok (s, c, Completed)
  | S n' =>
      '(s', c', e) ← loop_body spin_count s c;
      match e with
      | Some why => Ok (s', c', why)
      | None => run_loop n' (spin_count + 1) s' c'
      end
  end.

Definition run_simulation (num_spins : Z) (s : simulator) (c : gmap Z Z)
  : result (simulator * gmap Z Z * exit_reason) :=
  '(s', c', why) ← run_loop (Z.to_nat num_spins) 1 s c;
  Ok (with_stats (final_stats (current_bank s') (initial_bank s')) s',
      c', why).

End Driver.

End Simulator.

(** * Notions used in the statements *)

#[global] Instance pyexc_eq_dec : EqDecision pyexc.
Proof. solve_decision. Defined.

#[global] Instance float_eq_dec : EqDecision spec_float.
Proof. solve_decision. Defined.

#[global] Instance result_eq_dec {A} `{EqDecision A} : EqDecision (result A).
Proof. solve_decision. Defined.

Section Notions.
Import Float64 RiskMonitor.

(** ** The stake formula *)

(** The sequence in the words of the specification: [fib 0 = fib 1 = fib 2
    = 1] and [fib k = fib (k-1) + fib (k-2)] from [k = 3] on. *)
Fixpoint fib (k : nat) : Z :=
  match k with
  | S (S (S _ as k2) as k1) => fib k1 + fib k2
  | _ => 1
  end.

(** Every entry of the memoisation table is a term of the sequence. *)
Definition cache_ok (c : gmap Z Z) : Prop :=
  forall (n : nat) (v : Z), c !! Z.of_nat n = Some v -> v = fib n.




(** The largest streak whose term of the sequence still converts to a
    float. *)
Definition max_streak : Z := 1476.

(** The [int] that [calculate_bet] converts to a float still converts:
    the term of the sequence on a [float] base, the product of the base
    and the term on an [int] base. *)
Definition product_converts (base : Engine.pynum) (streak : Z) : Prop :=
  match base with
  | Engine.PyInt b => b * fib (Z.to_nat streak) < int_overflow_bound
  | Engine.PyFloat _ => fib (Z.to_nat streak) < int_overflow_bound
  end.

(** The calls that [get_fib_for_streak(k)] nests fit those the interpreter
    allows: the table [c] holds the term, which needs no call, or [k - 2]
    calls are allowed, which is enough from any table (from an empty one
    the calls on [k - 1], ..., 2 are nested one in the other). *)
Definition within_limit (k : Z) (frames : nat) (c : gmap Z Z) : Prop :=
  is_Some (c !! k) \/ k - 2 <= Z.of_nat frames.




(** What the conversions and quotients of [calculate_bet] come to on a zero
    count and on a streak; both are checked on the whole range. *)
Definition zero_count_row (z : Z) : Prop :=
  float_of_int z = Ok (of_Z z)
  /\ int_truediv z 50 = Ok (fdiv (of_Z z) f50).

Definition streak_row (s : Z) : Prop :=
  float_of_int s = Ok (of_Z s)
  /\ int_truediv s 15 = Ok (fdiv (of_Z s) f15)
  /\ fle (fadd f1 (fdiv (of_Z s) f15)) f0 = false.

(** ** Roulette numbers *)

(** What [get_number_properties] answers on a number of the wheel other
    than zero. *)
Definition coloured (n : Z) : Prop :=
  exists p, Analytics.get_number_properties n = Ok p
            /\ Analytics.is_zero p = false
            /\ (Analytics.color p = Some "red"%string
                \/ Analytics.color p = Some "black"%string).

(** ** Floats *)

(** [k] is a nearest integer to [a / b], the even one of the two in a tie. *)
Definition nearest_even (a b k : Z) : Prop :=
  b * (2 * k - 1) <= 2 * a <= b * (2 * k + 1)
  /\ (2 * a = b * (2 * k - 1) -> Z.even k = true)
  /\ (2 * a = b * (2 * k + 1) -> Z.even k = true).

(** [x] is a zero, a finite number or an infinity of sign [s]. *)
Definition has_sign (s : bool) (x : float) : Prop :=
  match x with
  | S754_zero s' | S754_infinity s' | S754_finite s' _ _ => s' = s
  | S754_nan => False
  end.

(** The mantissa fits the precision and the exponent the range. *)
Definition in_range (x : float) : Prop :=
  match x with
  | S754_finite _ m e => Zpos (digits2_pos m) <= prec /\ e <= emax - prec
  | _ => True
  end.

(** A zero or a finite number in range: a float that is a number and not an
    infinity. *)
Definition finite_amount (x : float) : Prop :=
  match x with
  | S754_zero _ => True
  | S754_finite _ m e => Zpos (digits2_pos m) <= prec /\ e <= emax - prec
  | _ => False
  end.

(** The largest double. *)
Definition max_double : float := S754_finite false 9007199254740991 971.

(** ** Sequences of transitions of the risk state *)

(** The arguments of one call of [update_state]. *)
Record transition : Type := {
  t_bet : float;
  t_win : float;
  t_zero : bool;
  t_bank : option float
}.

Definition apply_transition (rm : risk_monitor) (t : transition)
  : risk_monitor :=
  update_state rm (t_bet t) (t_win t) (t_zero t) (t_bank t).

Definition run_transitions (rm : risk_monitor) (l : list transition)
  : risk_monitor :=
  fold_left apply_transition l rm.

(** The flag a transition pushes on the zero window. *)
Definition zero_flag (t : transition) : Z := if t_zero t then 1 else 0.

(** The stake and the win of a transition are numbers, not infinities. *)
Definition amounts_finite (t : transition) : Prop :=
  finite_amount (t_bet t) /\ finite_amount (t_win t).

(** What the transitions maintain on the reserve: it is not negative and
    it is rounded to two decimals. *)
Definition reserve_ok (zb : float) : Prop :=
  has_sign false zb /\ pyround zb 2 = zb.

(** The part of the invariant on the window, the count and the streak, in
    the form the induction carries: the window is made of the last 50 flags
    pushed. *)
Definition risk_invariant (l : list transition) (rm : risk_monitor) : Prop :=
  spin_history_for_zero_count rm = drop (length l - 50) (map zero_flag l)
  /\ z_count_last_50 rm = pysum (spin_history_for_zero_count rm)
  /\ 0 <= current_streak rm.

(** A stake that is not a number, lost on zero. *)
Definition nan_stake_on_zero : list transition :=
  [ {| t_bet := S754_nan; t_win := f0; t_zero := true; t_bank := None |} ].

(** An infinite win, then an infinite stake lost on zero. *)
Definition infinite_win_then_stake : list transition :=
  [ {| t_bet := of_Z 10; t_win := S754_infinity false; t_zero := false;
       t_bank := None |};
    {| t_bet := S754_infinity false; t_win := f0; t_zero := true;
       t_bank := None |} ].

(** A win of 200 on a stake of 10, then a stake of 10 lost on zero. *)
Definition win_then_zero : list transition :=
  [ {| t_bet := of_Z 10; t_win := of_Z 200; t_zero := false;
       t_bank := Some (of_Z 1000) |};
    {| t_bet := of_Z 10; t_win := f0; t_zero := true;
       t_bank := Some (of_Z 1200) |} ].

(** ** The driver *)

(** The three autostop conditions on a risk state. *)
Definition stop_condition (rm : risk_monitor) : Prop :=
  15 <= current_streak rm
  \/ 4 <= z_count_last_50 rm
  \/ (fgt (initial_bank rm) f0 = true
      /\ fge (fdiv (fsub (initial_bank rm) (current_bank rm))
                   (initial_bank rm)) f0_20 = true).

(** The round from [s] to [s1] was one without stake: its record holds the
    stake 0. *)
Definition round_without_stake (s s1 : Simulator.simulator) : Prop :=
  exists r, Simulator.bet_history s1 = Simulator.bet_history s ++ [r]
            /\ Simulator.bet_amount r = f0.

(** A risk state three zero outcomes after its reset, and the driver built
    on it; a wheel that always draws zero. *)
Definition after_three_zeros : risk_monitor :=
  let zero_round rm := update_state rm f0 f0 true None in
  zero_round (zero_round (zero_round (init (of_Z 1000) (of_Z 10)))).

Definition driver_after_three_zeros : Simulator.simulator :=
  Simulator.init (of_Z 1000) (of_Z 10) after_three_zeros.

Definition zero_wheel : nat -> Z := fun _ => 0.

(** The driver of the reference configuration and a wheel that draws 2
    (black), then 1 (red). *)
Definition reference_driver : Simulator.simulator :=
  Simulator.init (of_Z 1000) (of_Z 10) (init (of_Z 1000) (of_Z 10)).

Definition black_red_wheel : nat -> Z := fun i => nth i [2; 1] 0.

(** A driver with no bank and no base stake, and a wheel that always draws
    7. *)
Definition empty_handed_driver : Simulator.simulator :=
  Simulator.init f0 f0 (init f0 f0).


End Notions.

(** * Notions used in the further properties *)

Section EngineNotions.
Import Float64.

(** A finite float above zero. *)
Definition is_finite_pos (x : float) : bool :=
  match x with S754_finite false _ _ => true | _ => false end.

(** What [buffer_factor] and [risk_index] are on the zero counts and on the
    streaks that reach them; both are checked on the whole range. *)
(** The terms [a], [b], [a + b], ... of the sequence, [n] of them, all
    convert to finite floats above zero. *)
Fixpoint all_finite_pos (n : nat) (a b : Z) : bool :=
  match n with
  | O => true
  | S m => is_finite_pos (of_Z a) && all_finite_pos m b (a + b)
  end.

Definition is_finite (x : float) : bool :=
  match x with S754_finite _ _ _ | S754_zero _ => true | _ => false end.

Definition buffer_factor_row (z : Z) : Prop :=
  is_finite (fsub f1 (fdiv (of_Z z) f50)) = true.

Definition risk_index_row (s : Z) : Prop :=
  is_finite_pos (fadd f1 (fdiv (of_Z s) f15)) = true.

End EngineNotions.

Section RiskMonitorNotions.
Import Float64 RiskMonitor.

(** A transition is a win when [win_amount > 0]. *)
Definition is_win (t : transition) : bool := fgt (t_win t) f0.

(** The reasons that three flags and the sign of the initial bank call
    for, in the order in which the helper appends them. *)
Definition reasons_of_flags (f : stop_flags) (streak z_count : Z)
    (initial current : float) : list stop_reason :=
  (if loss_streak_limit f then [LossStreakReached streak] else [])
  ++ (if zero_count_limit f then [ZeroCountReached z_count] else [])
  ++ (if drawdown_limit f
      then [if fgt initial f0
            then DrawdownReached (fdiv (fsub initial current) initial)
                   initial current
            else NegativeBank current initial]
      else []).

End RiskMonitorNotions.

#[global] Instance number_properties_eq_dec : EqDecision Analytics.number_properties.
Proof. solve_decision. Defined.

Section NumberNotions.
Import Float64 Analytics.

(** The properties of a number of [1..36] by arithmetic: the dozen and the
    column from the quotient and the remainder, the parity and the half
    from the number itself, the colour from the table of the black
    numbers. *)
Definition properties_by_arithmetic (n : Z) : number_properties :=
  {| number := n;
     is_zero := false;
     color := Some (if bool_decide (n ∈ BLACK_NUMBERS) then "black"%string
                    else "red"%string);
     parity := Some (if Z.even n then "even"%string else "odd"%string);
     range := Some (if n <=? 18 then "low"%string else "high"%string);
     dozen := Some ((n - 1) / 12 + 1);
     column := Some ((n - 1) `mod` 3 + 1) |}.

(** The tables that [get_number_properties] does not read say the same as
    those it reads. *)
Definition tables_agree (n : Z) : Prop :=
  (n ∈ BLACK_NUMBERS <-> n ∉ RED_NUMBERS)
  /\ (n ∈ ODD_NUMBERS <-> n ∉ EVEN_NUMBERS)
  /\ (n ∈ HIGH_NUMBERS <-> n ∉ LOW_NUMBERS)
  /\ (n ∈ EVEN_NUMBERS <-> Z.even n = true)
  /\ (n ∈ LOW_NUMBERS <-> n <= 18).

End NumberNotions.

Section StreakNotions.
Import Float64 Analytics.

(** On the number [n], which is one of the wheel, the event has not
    happened; it has happened. *)
Definition quiet (event : number_properties -> bool) (n : Z) : Prop :=
  exists p, get_number_properties n = Ok p /\ event p = false.

Definition happens (event : number_properties -> bool) (n : Z) : Prop :=
  exists p, get_number_properties n = Ok p /\ event p = true.

(** The checker of the zero event. *)
Definition zero_event : number_properties -> bool := is_zero.

End StreakNotions.

Section DistributionNotions.
Import Float64 Analytics.

(** The value of one property of a number, [None] when the number is not
    one of the wheel or has not the property. *)
Definition property_of {K : Type} (sel : number_properties -> option K)
    (n : Z) : option K :=
  match get_number_properties n with
  | Ok p => sel p
  | Raise _ => None
  end.

(** How many numbers of [l] have the value [k] for the property. *)
Definition occurrences {K : Type} `{EqDecision K}
    (sel : number_properties -> option K) (k : K) (l : list Z) : Z :=
  Z.of_nat (length (filter (fun n => property_of sel n = Some k) l)).

(** The counter [c] holds, for every value that occurs in [l], the number
    of its occurrences, and no other key. *)
Definition counts_of {K : Type} `{Countable K} (c : gmap K Z)
    (sel : number_properties -> option K) (l : list Z) : Prop :=
  forall k : K,
    c !! k = if occurrences sel k l =? 0 then None
             else Some (occurrences sel k l).

(** [c.get(k, 0)]. *)
Definition tally {K : Type} `{Countable K} (c : gmap K Z) (k : K) : Z :=
  default 0 (c !! k).

(** A number of the wheel. *)
Definition on_wheel (n : Z) : Prop := 0 <= n <= 36.

(** What the number [n] adds to the count of the value [k]. *)
Definition hit {K : Type} `{EqDecision K}
    (sel : number_properties -> option K) (k : K) (n : Z) : Z :=
  if decide (property_of sel n = Some k) then 1 else 0.

(** A number of the wheel is zero or has exactly one colour, one parity,
    one half, one dozen and one column. *)
Definition one_of_each (n : Z) : Prop :=
  let z := if decide (n = 0) then 1 else 0 in
  hit color "red"%string n + hit color "black"%string n + z = 1
  /\ hit parity "even"%string n + hit parity "odd"%string n + z = 1
  /\ hit range "low"%string n + hit range "high"%string n + z = 1
  /\ hit dozen 1 n + hit dozen 2 n + hit dozen 3 n + z = 1
  /\ hit column 1 n + hit column 2 n + hit column 3 n + z = 1.

(** The number of zeros of a list of numbers, [l.count(0)]. *)
Definition zeros (l : list Z) : Z :=
  Z.of_nat (length (filter (fun n => n = 0) l)).

End DistributionNotions.

#[global] Instance on_wheel_dec (n : Z) : Decision (on_wheel n).
Proof. unfold on_wheel. apply _. Defined.

Section DeviationNotions.
Import Float64 Analytics.

(** The entries of a dictionary of deviations are those that
    [deviation_of] computes from the counts of a counter, key by key. *)
Definition entries_of {K : Type} `{Countable K}
    (entries : gmap K deviation_entry) (counts : gmap K Z) (total : Z)
    (theoretical : K -> float) : Prop :=
  forall k : K,
    match counts !! k with
    | Some c =>
        exists e, entries !! k = Some e
                  /\ deviation_of c total (theoretical k) = Ok e
    | None => entries !! k = None
    end.

(** The entry that [deviation_of] returns when the quotient is a float. *)
Definition entry_for (c total : Z) (theoretical : float) : deviation_entry :=
  let actual_freq := nearest_ratio false c total in
  {| count := c;
     actual_frequency := pyround actual_freq 4;
     theoretical_frequency := pyround theoretical 4;
     deviation := pyround (fsub actual_freq theoretical) 4 |}.

End DeviationNotions.

Section RecordNotions.
Import Float64 Simulator.

(** A record of a round in which a stake was placed: the stake is not
    [<= 0]. *)
Definition staked (r : bet_record) : bool := negb (fle (bet_amount r) f0).

(** A record of a round that was won. *)
Definition won (r : bet_record) : bool := fgt (win_amount_from_bet r) f0.

(** The number of records of a list that pass a test. *)
Definition number_of (test : bet_record -> bool) (l : list bet_record) : Z :=
  Z.of_nat (length (filter (fun r => test r = true) l)).

End RecordNotions.

Section RoundNotions.
Import Float64 Simulator.

(** The stake of a round: the value of [calculate_bet], rounded and capped
    by the bank. *)
Definition stake_of (b bank : float) : float := pymin (pyround b 2) bank.

(** What a round without stake leaves: the number [n] is drawn, the risk
    state moves by a transition without stake, a record without stake is
    appended, the bank and the statistics stay (the round is counted). *)
Definition round_skipped (k : Z) (n : Z) (s s' : simulator) : Prop :=
  initial_bank s' = initial_bank s
  /\ base_bet s' = base_bet s
  /\ current_bank s' = current_bank s
  /\ spin_history s' = spin_history s ++ [n]
  /\ risk_monitor s'
     = RiskMonitor.update_state (risk_monitor s) f0 f0 (bool_decide (n = 0))
         None
  /\ stats s' = set_total_spins k (stats s)
  /\ exists r,
       bet_history s' = bet_history s ++ [r]
       /\ spin r = k /\ result_number r = n
       /\ bet_amount r = f0 /\ win_amount_from_bet r = f0
       /\ bank_before_bet r = current_bank s
       /\ bank_after_spin r = current_bank s.

(** What a round with the stake [bet] leaves, before the counting of the
    stop flags: the number [n] is drawn, the stake wins its amount on red,
    the risk state moves by the transition of the outcome from the bank of
    the driver, whose bank becomes that of the risk state; a record is
    appended and the statistics are updated. *)
Definition round_staked (k : Z) (n : Z) (bet : float) (s s' : simulator)
  : Prop :=
  let win := if bool_decide (n ∈ Analytics.RED_NUMBERS) then bet else f0 in
  let rm' :=
    RiskMonitor.update_state (risk_monitor s) bet win (bool_decide (n = 0))
      (Some (current_bank s)) in
  initial_bank s' = initial_bank s
  /\ base_bet s' = base_bet s
  /\ current_bank s' = RiskMonitor.current_bank rm'
  /\ spin_history s' = spin_history s ++ [n]
  /\ risk_monitor s' = rm'
  /\ total_spins (stats s') = k
  /\ wins (stats s')
     = (if fgt win f0 then wins (stats s) + 1 else wins (stats s))
  /\ losses (stats s')
     = (if fgt win f0 then losses (stats s) else losses (stats s) + 1)
  /\ zeros_hit (stats s')
     = (if bool_decide (n = 0) then zeros_hit (stats s) + 1
        else zeros_hit (stats s))
  /\ max_streak_loss (stats s')
     = Z.max (max_streak_loss (stats s)) (RiskMonitor.current_streak rm')
  /\ bank_history (stats s')
     = bank_history (stats s) ++ [RiskMonitor.current_bank rm']
  /\ exists r,
       bet_history s' = bet_history s ++ [r]
       /\ spin r = k /\ result_number r = n
       /\ bet_amount r = bet /\ win_amount_from_bet r = win
       /\ bank_before_bet r = current_bank s
       /\ bank_after_spin r = RiskMonitor.current_bank rm'.

(** The counters of the stop flags when none has been counted, and when the
    flags [f] have been counted once. *)
Definition no_trigger : trigger_counts :=
  {| n_loss_streak_limit := 0; n_zero_count_limit := 0;
     n_drawdown_limit := 0 |}.

Definition triggers_of (f : RiskMonitor.stop_flags) : trigger_counts :=
  {| n_loss_streak_limit := if RiskMonitor.loss_streak_limit f then 1 else 0;
     n_zero_count_limit := if RiskMonitor.zero_count_limit f then 1 else 0;
     n_drawdown_limit := if RiskMonitor.drawdown_limit f then 1 else 0 |}.

(** The draws are recorded: when [played] rounds have been played, the
    numbers drawn are the first draws of the wheel, in order, and there is
    one record for each, numbered from 1. *)
Definition draws_recorded (wheel : nat -> Z) (played : Z) (s : simulator)
  : Prop :=
  0 <= played
  /\ spin_history s = wheel <$> seq 0 (Z.to_nat played)
  /\ result_number <$> bet_history s = spin_history s
  /\ spin <$> bet_history s = seqZ 1 played.

(** The statistics count the records: the wins are the records won, the
    wins and the losses together the records with a stake, the zeros hit are
    among the losses, and the history of the bank is the initial bank
    followed by the bank after each round with a stake, the last one being
    the bank of the driver. *)
Definition statistics_count (s : simulator) : Prop :=
  wins (stats s) = number_of won (bet_history s)
  /\ wins (stats s) + losses (stats s) = number_of staked (bet_history s)
  /\ 0 <= zeros_hit (stats s) <= losses (stats s)
  /\ bank_history (stats s)
     = initial_bank s
       :: (bank_after_spin <$> filter (fun r => staked r = true)
                                 (bet_history s))
  /\ last (bank_history (stats s)) = Some (current_bank s).

Definition books (wheel : nat -> Z) (played : Z) (s : simulator) : Prop :=
  draws_recorded wheel played s /\ statistics_count s.

(** How a run was left, against the stop flags [f] of the risk state and
    the counters [t] of the statistics. *)
Definition exit_accounted (why : exit_reason) (s : simulator) : Prop :=
  let rm := risk_monitor s in
  match why with
  | StopBeforeBet | StopAfterBet =>
      RiskMonitor.is_stop_suggested rm = true
      /\ stop_triggers (stats s)
         = triggers_of (RiskMonitor.stop_conditions_met rm)
  | Bankrupt =>
      RiskMonitor.is_stop_suggested rm = false
      /\ fle (current_bank s) f0 = true
      /\ stop_triggers (stats s) = no_trigger
  | Completed => stop_triggers (stats s) = no_trigger
  end.

End RoundNotions.

Section SolvencyNotions.
Import Float64 Simulator.

(** A risk state from which the driver can go on: the streak is not
    negative and is flagged once it has reached the limit, and the zero
    window holds at most 50 flags. *)
Definition monitor_ready (rm : RiskMonitor.risk_monitor) : Prop :=
  0 <= RiskMonitor.current_streak rm
  /\ (15 <= RiskMonitor.current_streak rm ->
      RiskMonitor.is_stop_suggested rm = true)
  /\ Forall (fun x => x = 0 \/ x = 1)
       (RiskMonitor.spin_history_for_zero_count rm)
  /\ (length (RiskMonitor.spin_history_for_zero_count rm) <= 50)%nat.

(** A record whose stake the bank covered and whose round left a bank
    that is not negative. *)
Definition covered (r : bet_record) : Prop :=
  fle (bet_amount r) (bank_before_bet r) = true
  /\ has_sign false (bank_after_spin r).

(** No round started from a bank that is not a number or is infinite. *)
Definition banks_finite (s : simulator) : Prop :=
  Forall (fun r => finite_amount (bank_before_bet r)) (bet_history s).

(** The bank and the reserve are not negative and every stake was
    covered. *)
Definition solvent (s : simulator) : Prop :=
  has_sign false (current_bank s)
  /\ reserve_ok (RiskMonitor.zero_buffer (risk_monitor s))
  /\ Forall covered (bet_history s).

End SolvencyNotions.

(** * Properties *)

(** ** The memoised sequence *)

Section FibFacts.
Import Engine.

Lemma fib_step (k : nat) : fib (S (S (S k))) = fib (S (S k)) + fib (S k).
Proof. reflexivity. Qed.

Lemma fib_pos (k : nat) : 0 < fib k /\ 0 < fib (S k).
Proof.
  induction k as [|k [IH1 IH2]]; [split; reflexivity|].
  split; [exact IH2|].
  destruct k as [|k]; [reflexivity|].
  rewrite fib_step. lia.
Qed.

Lemma fib_succ_le (k : nat) : fib k <= fib (S k).
Proof.
  destruct k as [|[|k]]; [reflexivity | reflexivity |].
  rewrite fib_step. pose proof (fib_pos k) as [_ H]. lia.
Qed.

Lemma fib_mono (j k : nat) : (j <= k)%nat -> fib j <= fib k.
Proof.
  intros H. induction H as [|m _ IH]; [lia|].
  pose proof (fib_succ_le m). lia.
Qed.

Lemma cache_ok_empty : cache_ok ∅.
Proof. intros n v H. rewrite lookup_empty in H. discriminate. Qed.

Lemma cache_ok_insert (c : gmap Z Z) (n : nat) :
  cache_ok c -> cache_ok (<[Z.of_nat n := fib n]> c).
Proof.
  intros Hc m v. destruct (decide (n = m)) as [->|Hne].
  - rewrite lookup_insert_eq. congruence.
  - rewrite lookup_insert_ne by lia. apply Hc.
Qed.

Lemma fib_rec_unfold (frames n : nat) (c : gmap Z Z) :
  fib_rec frames n c =
  match c !! Z.of_nat n with
  | Some v => Ok (v, c)
  | None =>
      match n with
      | S (S (S _ as n2) as n1) =>
          match frames with
          | O => Raise RecursionError
          | S frames' =>
              '(val_minus_1, c1) ← fib_rec frames' n1 c;
              '(val_minus_2, c2) ← fib_rec frames' n2 c1;
              let r := val_minus_1 + val_minus_2 in
              Ok (r, <[Z.of_nat n := r]> c2)
          end
      | _ => Ok (1, <[Z.of_nat n := 1]> c)
      end
  end.
Proof. destruct frames; reflexivity. Qed.

(** A term that the table holds is answered without any call. *)
Lemma fib_rec_hit (frames n : nat) (c : gmap Z Z) (v : Z) :
  c !! Z.of_nat n = Some v -> fib_rec frames n c = Ok (v, c).
Proof. intros H. rewrite fib_rec_unfold, H. reflexivity. Qed.

(** When the memoised computation returns, it returns the term of the
    sequence and keeps the table sound, whatever sound table it starts
    from. *)
Lemma fib_rec_spec (frames : nat) :
  forall (n : nat) (c c' : gmap Z Z) (v : Z),
    cache_ok c -> fib_rec frames n c = Ok (v, c') ->
    v = fib n /\ cache_ok c'.
Proof.
  induction frames as [|f IH]; intros n c c' v Hc; rewrite fib_rec_unfold;
    (destruct (c !! Z.of_nat n) as [w|] eqn:Hl;
     [intros [= <- <-]; split; [apply (Hc _ _ Hl) | exact Hc]|]);
    (destruct n as [|[|[|k]]];
     [intros [= <- <-]; split; [reflexivity | exact (cache_ok_insert c 0 Hc)]
     |intros [= <- <-]; split; [reflexivity | exact (cache_ok_insert c 1 Hc)]
     |intros [= <- <-]; split; [reflexivity | exact (cache_ok_insert c 2 Hc)]
     |]); [discriminate|].
  destruct (fib_rec f (S (S k)) c) as [[v1 c1]|e] eqn:E1; [|discriminate].
  destruct (IH _ _ _ _ Hc E1) as [-> Hc1].
  cbn [mbind result_bind].
  destruct (fib_rec f (S k) c1) as [[v2 c2]|e] eqn:E2; [|discriminate].
  destruct (IH _ _ _ _ Hc1 E2) as [-> Hc2].
  cbn [mbind result_bind]. intros [= <- <-]. split; [reflexivity|].
  exact (cache_ok_insert c2 (S (S (S k))) Hc2).
Qed.


(** With [n - 2] calls allowed inside, the computation returns from any
    table. *)
Lemma fib_rec_returns (frames : nat) :
  forall (n : nat) (c : gmap Z Z),
    (n - 2 <= frames)%nat -> exists v c', fib_rec frames n c = Ok (v, c').
Proof.
  induction frames as [|f IH]; intros n c Hn; rewrite fib_rec_unfold;
    (destruct (c !! Z.of_nat n) as [w|]; [eauto|]);
    (destruct n as [|[|[|k]]]; [eauto | eauto | eauto |]); [lia|].
  destruct (IH (S (S k)) c ltac:(lia)) as (v1 & c1 & ->).
  cbn [mbind result_bind].
  destruct (IH (S k) c1 ltac:(lia)) as (v2 & c2 & ->).
  cbn [mbind result_bind]. eauto.
Qed.


Lemma get_fib_for_streak_sound (k : Z) (frames : nat) (c c' : gmap Z Z)
    (v : Z) :
  cache_ok c -> get_fib_for_streak (PyInt k) frames c = Ok (v, c') ->
  0 <= k /\ v = fib (Z.to_nat k) /\ cache_ok c'.
Proof.
  intros Hc. unfold get_fib_for_streak.
  destruct (Z.ltb_spec k 0) as [?|Hk]; [discriminate|].
  intros E. split; [exact Hk|]. exact (fib_rec_spec _ _ _ _ _ Hc E).
Qed.

Lemma get_fib_for_streak_returns (k : Z) (frames : nat) (c : gmap Z Z) :
  0 <= k -> within_limit k frames c ->
  exists v c', get_fib_for_streak (PyInt k) frames c = Ok (v, c').
Proof.
  intros Hk Hf. unfold get_fib_for_streak.
  destruct (Z.ltb_spec k 0); [lia|].
  destruct Hf as [[v Hv]|Hf].
  - exists v, c. apply fib_rec_hit. rewrite Z2Nat.id by exact Hk. exact Hv.
  - apply fib_rec_returns. lia.
Qed.

Lemma get_fib_for_streak_ok (k : Z) (frames : nat) (c : gmap Z Z) :
  0 <= k -> within_limit k frames c -> cache_ok c ->
  exists c', get_fib_for_streak (PyInt k) frames c
             = Ok (fib (Z.to_nat k), c')
             /\ cache_ok c'.
Proof.
  intros Hk Hf Hc.
  destruct (get_fib_for_streak_returns k frames c Hk Hf) as (v & c' & E).
  destruct (get_fib_for_streak_sound _ _ _ _ _ Hc E) as (_ & -> & Hc').
  exists c'. split; assumption.
Qed.


End FibFacts.

(** ** Elementary facts on the float operations *)

Section FloatBasics.
Import Float64.



Lemma fle_f0_f0 : fle f0 f0 = true.
Proof. reflexivity. Qed.

Lemma float_of_int_small (z : Z) :
  Z.abs z < int_overflow_bound -> float_of_int z = Ok (of_Z z).
Proof.
  intros H. unfold float_of_int.
  destruct (Z.leb_spec int_overflow_bound (Z.abs z)); [lia | reflexivity].
Qed.

Lemma float_of_int_large (z : Z) :
  int_overflow_bound <= Z.abs z -> float_of_int z = Raise OverflowError.
Proof.
  intros H. unfold float_of_int.
  destruct (Z.leb_spec int_overflow_bound (Z.abs z)); [reflexivity | lia].
Qed.

Lemma float_of_int_inv (z : Z) (x : float) :
  float_of_int z = Ok x -> Z.abs z < int_overflow_bound /\ x = of_Z z.
Proof.
  unfold float_of_int.
  destruct (Z.leb_spec int_overflow_bound (Z.abs z)); [discriminate|].
  intros [= <-]. split; [assumption | reflexivity].
Qed.


(** The bound is the first integer that [binary_normalize] sends to
    infinity. *)
Lemma int_overflow_bound_sharp :
  of_Z (int_overflow_bound - 1) = SFmax_float prec emax
  /\ of_Z int_overflow_bound = S754_infinity false.
Proof. split; vm_compute; reflexivity. Qed.

End FloatBasics.

(** Values the interpreter prints for the same expressions. *)

Section FloatExamples.
Import Float64.

(** [round(0.125, 2) = 0.12]: a tie, to the even digit. *)
Example pyround_tie : pyround (dec 125 1000) 2 = dec 12 100.
Proof. reflexivity. Qed.

(** [round(2.675, 2) = 2.67] and [round(1.005, 2) = 1.0]: the doubles are
    below the decimals they are written with. *)
Example pyround_below_half : pyround (dec 2675 1000) 2 = dec 267 100.
Proof. reflexivity. Qed.

Example pyround_one : pyround (dec 1005 1000) 2 = of_Z 1.
Proof. reflexivity. Qed.

(** [round(-0.001, 2) = -0.0]. *)
Example pyround_negative_zero : pyround (dec (-1) 1000) 2 = S754_zero true.
Proof. reflexivity. Qed.

(** [0.1 + 0.2 = 0.30000000000000004], which is not [0.3], and
    [round(0.1 + 0.2, 2) = 0.3]. *)
Example fadd_tenths :
  fadd (dec 1 10) (dec 2 10) = S754_finite false 5404319552844596 (-54)
  /\ fadd (dec 1 10) (dec 2 10) <> dec 3 10
  /\ pyround (fadd (dec 1 10) (dec 2 10)) 2 = dec 3 10.
Proof. split; [reflexivity|]. split; [discriminate | reflexivity]. Qed.

(** [min(nan, 1.0)] is [nan] and [min(1.0, nan)] is [1.0]. *)
Example pymin_nan : pymin S754_nan f1 = S754_nan /\ pymin f1 S754_nan = f1.
Proof. split; reflexivity. Qed.

(** [float(2 ** 1024)] raises [OverflowError]. *)
Example float_of_int_pow : float_of_int (2 ^ 1024) = Raise OverflowError.
Proof. reflexivity. Qed.

End FloatExamples.

(** ** Rounding a quotient half-even *)

Section RheDiv.
Import Float64.

Lemma rhe_div_spec (a b : Z) : 0 < b -> nearest_even a b (rhe_div a b).
Proof.
  intros Hb. unfold rhe_div, nearest_even.
  pose proof (Z.div_mod a b ltac:(lia)) as Hdm.
  pose proof (Z.mod_pos_bound a b Hb) as Hr.
  set (q := a / b) in *. set (r := a mod b) in *.
  destruct (Z.compare_spec (2 * r) b) as [He|Hl|Hg].
  - destruct (Z.even q) eqn:Hq.
    + split; [nia|]. split; [intros; exact Hq | intros; exact Hq].
    + split; [nia|]. rewrite Z.even_add, Hq. split; [intros; reflexivity|].
      intros H. nia.
  - split; [nia|]. split; intros H; nia.
  - split; [nia|]. split; intros H; nia.
Qed.

Lemma nearest_even_unique (a b k1 k2 : Z) :
  0 < b -> nearest_even a b k1 -> nearest_even a b k2 -> k1 = k2.
Proof.
  intros Hb (B1 & L1 & U1) (B2 & L2 & U2).
  destruct (Z.lt_trichotomy k1 k2) as [H|[H|H]]; [|exact H|].
  - assert (k2 = k1 + 1) by nia. subst k2.
    assert (E1 : 2 * a = b * (2 * k1 + 1)) by nia.
    assert (E2 : 2 * a = b * (2 * (k1 + 1) - 1)) by nia.
    specialize (U1 E1). specialize (L2 E2).
    rewrite Z.even_add, U1 in L2. discriminate.
  - assert (k1 = k2 + 1) by nia. subst k1.
    assert (E1 : 2 * a = b * (2 * k2 + 1)) by nia.
    assert (E2 : 2 * a = b * (2 * (k2 + 1) - 1)) by nia.
    specialize (U2 E1). specialize (L1 E2).
    rewrite Z.even_add, U2 in L1. discriminate.
Qed.

Lemma rhe_div_unique (a b k : Z) :
  0 < b -> nearest_even a b k -> rhe_div a b = k.
Proof.
  intros Hb Hk. apply (nearest_even_unique a b); [exact Hb | | exact Hk].
  apply rhe_div_spec, Hb.
Qed.

(** Strictly inside the half-unit interval there is no tie to decide. *)
Lemma rhe_div_inside (a b k : Z) :
  0 < b -> b * (2 * k - 1) < 2 * a < b * (2 * k + 1) -> rhe_div a b = k.
Proof.
  intros Hb H. apply rhe_div_unique; [exact Hb|].
  split; [lia|]. split; intros E; lia.
Qed.

Lemma rhe_div_exact (k b : Z) : 0 < b -> rhe_div (k * b) b = k.
Proof. intros Hb. apply rhe_div_inside; [exact Hb | nia]. Qed.

Lemma rhe_div_scale (a b c : Z) :
  0 < b -> 0 < c -> rhe_div (a * c) (b * c) = rhe_div a b.
Proof.
  intros Hb Hc. apply rhe_div_unique; [nia|].
  destruct (rhe_div_spec a b Hb) as (B & L & U).
  split; [nia|]. split; intros E; [apply L | apply U]; nia.
Qed.

Lemma rhe_div_mono (a1 a2 b : Z) :
  0 < b -> a1 <= a2 -> rhe_div a1 b <= rhe_div a2 b.
Proof.
  intros Hb Ha.
  pose proof (rhe_div_spec a1 b Hb) as (B1 & L1 & U1).
  pose proof (rhe_div_spec a2 b Hb) as (B2 & L2 & U2).
  remember (rhe_div a1 b) as k1 eqn:Ek1. remember (rhe_div a2 b) as k2 eqn:Ek2.
  clear Ek1 Ek2.
  destruct (Z.le_gt_cases k1 k2) as [H|H]; [exact H|].
  exfalso.
  assert (k1 = k2 + 1) by nia. subst k1.
  assert (E1 : 2 * a1 = b * (2 * (k2 + 1) - 1)) by nia.
  assert (E2 : 2 * a2 = b * (2 * k2 + 1)) by nia.
  specialize (L1 E1). specialize (U2 E2).
  replace (k2 + 1) with (Z.succ k2) in L1 by lia.
  rewrite Z.even_succ, <- Z.negb_even, U2 in L1. discriminate.
Qed.

Lemma rhe_div_nonneg (a b : Z) : 0 <= a -> 0 < b -> 0 <= rhe_div a b.
Proof.
  intros Ha Hb. pose proof (rhe_div_mono 0 a b Hb Ha) as H.
  replace (rhe_div 0 b) with 0 in H; [exact H|].
  symmetry. apply (rhe_div_exact 0 b Hb).
Qed.

End RheDiv.

(** ** What the rounding of [SpecFloat] returns *)

Section Rounding.
Import Float64.

Lemma digits2_pos_size (p : positive) : digits2_pos p = Pos.size p.
Proof. induction p as [p IH|p IH|]; simpl; congruence. Qed.

Lemma digits2_bounds (p : positive) :
  2 ^ (Zpos (digits2_pos p) - 1) <= Zpos p < 2 ^ Zpos (digits2_pos p).
Proof.
  rewrite digits2_pos_size.
  pose proof (Pos.size_gt p) as Hgt. pose proof (Pos.size_le p) as Hle.
  apply Pos2Z.pos_lt_pos in Hgt. apply Pos2Z.pos_le_pos in Hle.
  rewrite Pos2Z.inj_pow in Hgt, Hle.
  change (Zpos p~0) with (2 * Zpos p) in Hle.
  replace (Zpos (Pos.size p)) with (Z.succ (Zpos (Pos.size p) - 1)) in Hle
    by lia.
  rewrite Z.pow_succ_r in Hle by lia. lia.
Qed.

Lemma Zdigits2_le (m d : Z) : 0 <= m -> 0 <= d -> m < 2 ^ d -> Zdigits2 m <= d.
Proof.
  intros Hm Hd H. destruct m as [|p|p]; [simpl; lia| |lia].
  cbn [Zdigits2]. pose proof (digits2_bounds p) as [Hl _].
  destruct (Z.le_gt_cases (Zpos (digits2_pos p)) d) as [?|Hgt]; [assumption|].
  exfalso.
  pose proof (Z.pow_le_mono_r 2 d (Zpos (digits2_pos p) - 1) ltac:(lia) ltac:(lia)).
  lia.
Qed.

Lemma Zdigits2_nonneg (m : Z) : 0 <= Zdigits2 m.
Proof. destruct m; simpl; lia. Qed.

Lemma Zdigits2_gt (m : Z) : 0 <= m -> m < 2 ^ Zdigits2 m.
Proof.
  intros Hm. destruct m as [|p|p]; [reflexivity| |lia].
  apply digits2_bounds.
Qed.

Lemma shr_1_m (r : shr_record) : 0 <= shr_m r -> shr_m (shr_1 r) = shr_m r / 2.
Proof.
  destruct r as [m r s]. cbn [shr_m]. intros Hm.
  destruct m as [|[p|p|]|p]; cbn [shr_1 shr_m]; [reflexivity| | | |lia].
  - change (Zpos p~1) with (2 * Zpos p + 1).
    apply (Z.div_unique _ _ _ 1); lia.
  - change (Zpos p~0) with (2 * Zpos p).
    apply (Z.div_unique _ _ _ 0); lia.
  - reflexivity.
Qed.

Lemma div_pow2_add (a x y : Z) :
  0 <= x -> 0 <= y -> a / 2 ^ x / 2 ^ y = a / 2 ^ (x + y).
Proof.
  intros Hx Hy. rewrite Z.pow_add_r by assumption.
  apply Z.div_div; [apply Z.pow_nonzero; lia | apply Z.pow_pos_nonneg; lia].
Qed.

Lemma div_pow2_nonneg (a x : Z) : 0 <= a -> 0 <= a / 2 ^ x.
Proof.
  intros Ha. destruct (Z.le_gt_cases 0 x) as [Hx|Hx].
  - apply Z.div_pos; [assumption | apply Z.pow_pos_nonneg; lia].
  - rewrite Z.pow_neg_r by assumption. rewrite Z.div_0_r. lia.
Qed.

Lemma iter_pos_shr_m (p : positive) :
  forall r, 0 <= shr_m r ->
    shr_m (SpecFloat.iter_pos shr_1 p r) = shr_m r / 2 ^ Zpos p.
Proof.
  induction p as [p IH|p IH|]; intros r Hr; cbn [SpecFloat.iter_pos].
  - assert (H1 : 0 <= shr_m (shr_1 r))
      by (rewrite shr_1_m by assumption; apply Z.div_pos; lia).
    assert (H2 : 0 <= shr_m (SpecFloat.iter_pos shr_1 p (shr_1 r)))
      by (rewrite IH by assumption; apply div_pow2_nonneg, H1).
    rewrite (IH _ H2), (IH _ H1), shr_1_m by assumption.
    change 2 with (2 ^ 1) at 1. rewrite !div_pow2_add by lia.
    f_equal. f_equal. lia.
  - assert (H2 : 0 <= shr_m (SpecFloat.iter_pos shr_1 p r))
      by (rewrite IH by assumption; apply div_pow2_nonneg, Hr).
    rewrite (IH _ H2), (IH _ Hr), div_pow2_add by lia.
    f_equal. f_equal. lia.
  - rewrite shr_1_m by assumption. reflexivity.
Qed.

Lemma shr_spec (r : shr_record) (e n : Z) :
  0 <= shr_m r ->
  shr_m (fst (shr r e n)) = (if 0 <? n then shr_m r / 2 ^ n else shr_m r)
  /\ snd (shr r e n) = (if 0 <? n then e + n else e).
Proof.
  intros Hr. destruct n as [|p|p]; cbn [shr fst snd Z.ltb Z.compare];
    [split; reflexivity | | split; reflexivity].
  split; [apply iter_pos_shr_m, Hr | reflexivity].
Qed.

Lemma shr_record_of_loc_m (m : Z) (l : location) :
  shr_m (shr_record_of_loc m l) = m.
Proof. destruct l as [|[]]; reflexivity. Qed.

(** The mantissa and the exponent after [shr_fexp]. *)
Lemma shr_fexp_spec (m e : Z) (l : location) :
  0 <= m ->
  let r := shr_fexp prec emax m e l in
  0 <= shr_m (fst r) < 2 ^ prec
  /\ snd r = Z.max e (fexp prec emax (Zdigits2 m + e)).
Proof.
  intros Hm r. subst r. unfold shr_fexp.
  pose proof (shr_spec (shr_record_of_loc m l) e
                (fexp prec emax (Zdigits2 m + e) - e)) as [Hs He];
    [rewrite shr_record_of_loc_m; exact Hm|].
  rewrite shr_record_of_loc_m in Hs. rewrite Hs, He. clear Hs He.
  pose proof (Zdigits2_gt m Hm) as Hd.
  pose proof (Zdigits2_nonneg m) as Hd0.
  set (d := Zdigits2 m) in *.
  unfold fexp, SpecFloat.emin, prec, emax in *.
  destruct (Z.ltb_spec 0 (Z.max (d + e - 53) (3 - 1024 - 53) - e)) as [Hn|Hn].
  - set (n := Z.max (d + e - 53) (3 - 1024 - 53) - e) in *.
    split; [|lia]. split; [apply div_pow2_nonneg, Hm|].
    apply Z.div_lt_upper_bound; [apply Z.pow_pos_nonneg; lia|].
    rewrite <- Z.pow_add_r by lia.
    apply (Z.lt_le_trans _ _ _ Hd). apply Z.pow_le_mono_r; lia.
  - split; [|lia]. split; [exact Hm|].
    apply (Z.lt_le_trans _ _ _ Hd). apply Z.pow_le_mono_r; lia.
Qed.

Lemma round_nearest_even_bounds (m : Z) (l : location) :
  m <= round_nearest_even m l <= m + 1.
Proof.
  destruct l as [|[]]; cbn [round_nearest_even]; try lia.
  destruct (Z.even m); lia.
Qed.

Lemma mantissa_fits (p : positive) :
  Zpos p < 2 ^ prec -> Zpos (digits2_pos p) <= prec.
Proof.
  intros H. pose proof (digits2_bounds p) as [Hl _].
  destruct (Z.le_gt_cases (Zpos (digits2_pos p)) prec) as [?|Hgt];
    [assumption|]. exfalso.
  pose proof (Z.pow_le_mono_r 2 prec (Zpos (digits2_pos p) - 1)
                ltac:(lia) ltac:(lia)). lia.
Qed.

(** Whatever it is given, [binary_round_aux] returns a zero, a finite number
    in range or an infinity, of the sign it is given; it stays finite when
    the exponent it starts from leaves room for one carry. *)
Lemma binary_round_aux_class (s : bool) (m e : Z) (l : location) :
  0 <= m ->
  let r := binary_round_aux prec emax s m e l in
  has_sign s r /\ in_range r
  /\ (Z.max e (fexp prec emax (Zdigits2 m + e)) + 1 <= emax - prec ->
      r <> S754_infinity s).
Proof.
  intros Hm r. subst r. unfold binary_round_aux.
  pose proof (shr_fexp_spec m e l Hm) as [H1 E1]. cbv zeta in H1, E1.
  destruct (shr_fexp prec emax m e l) as [r1 e1]. cbn [fst snd] in H1, E1.
  pose proof (round_nearest_even_bounds (shr_m r1) (loc_of_shr_record r1)) as Hr.
  set (m1 := round_nearest_even (shr_m r1) (loc_of_shr_record r1)) in *.
  pose proof (shr_fexp_spec m1 e1 loc_Exact ltac:(lia)) as [H2 E2].
  cbv zeta in H2, E2.
  destruct (shr_fexp prec emax m1 e1 loc_Exact) as [r2 e2].
  cbn [fst snd] in H2, E2.
  destruct (shr_m r2) as [|p|p] eqn:Em2; [repeat split; discriminate| |lia].
  destruct (Z.leb_spec e2 (emax - prec)) as [Hle|Hgt].
  - split; [reflexivity|]. split; [|discriminate].
    split; [apply mantissa_fits; lia | exact Hle].
  - split; [reflexivity|]. split; [exact I|]. intros Hroom. exfalso.
    assert (Hd1 : Zdigits2 m1 <= prec + 1).
    { apply Zdigits2_le; [lia | unfold prec; lia |].
      replace (prec + 1) with (Z.succ prec) by lia.
      rewrite Z.pow_succ_r by (unfold prec; lia).
      pose proof (Z.pow_pos_nonneg 2 prec ltac:(lia) ltac:(unfold prec; lia)).
      lia. }
    unfold fexp, SpecFloat.emin, prec, emax in *. lia.
Qed.

End Rounding.

(** ** Signs and ranges of the results of the operations *)

Section Classes.
Import Float64.

Lemma valid_binary_finite_amount (x : float) :
  valid_binary prec emax x = true ->
  match x with S754_infinity _ | S754_nan => False | _ => True end ->
  finite_amount x.
Proof.
  destruct x as [s|s| |s m e]; cbn [valid_binary finite_amount]; try tauto.
  unfold bounded, canonical_mantissa, fexp, SpecFloat.emin, prec, emax.
  intros H _. apply andb_true_iff in H as [H1 H2].
  apply Z.eqb_eq in H1. apply Z.leb_le in H2. lia.
Qed.

Lemma binary_round_class (s : bool) (m : positive) (e : Z) :
  has_sign s (binary_round prec emax s m e)
  /\ in_range (binary_round prec emax s m e).
Proof.
  unfold binary_round.
  destruct (shl_align m e _) as [mz ez].
  pose proof (binary_round_aux_class s (Zpos mz) ez loc_Exact ltac:(lia))
    as (H1 & H2 & _). split; assumption.
Qed.

Lemma binary_normalize_nonneg (m e : Z) :
  0 <= m -> has_sign false (binary_normalize prec emax m e false)
            /\ in_range (binary_normalize prec emax m e false).
Proof.
  intros Hm. destruct m as [|p|p]; [split; reflexivity| |lia].
  apply binary_round_class.
Qed.

Lemma fmul_class (sx sy : bool) (x y : float) :
  has_sign sx x -> has_sign sy y ->
  match x, y with
  | S754_infinity _, S754_zero _ | S754_zero _, S754_infinity _ => False
  | _, _ => True
  end ->
  has_sign (xorb sx sy) (fmul x y).
Proof.
  destruct x as [s1|s1| |s1 m1 e1], y as [s2|s2| |s2 m2 e2];
    cbn [has_sign fmul SFmul]; try tauto; intros -> -> _; try reflexivity.
  apply (binary_round_aux_class _ (Zpos (m1 * m2))). lia.
Qed.

(** Half of a finite amount is a zero or a finite number in range. *)
Lemma fmul_half_finite (x : float) :
  finite_amount x -> finite_amount (fmul x f0_50).
Proof.
  destruct x as [s|s| |s m e]; cbn [finite_amount]; try tauto.
  intros [Hm He]. unfold fmul, f0_50. cbn [SFmul].
  pose proof (binary_round_aux_class (xorb s false)
                (Zpos (m * 4503599627370496)) (e + -53) loc_Exact
                ltac:(lia)) as (Hs & Hr & Hfin).
  cbv zeta in Hs, Hr, Hfin.
  assert (Hroom : Z.max (e + -53)
                   (fexp prec emax
                      (Zdigits2 (Zpos (m * 4503599627370496)) + (e + -53)))
                  + 1 <= emax - prec).
  { assert (Hd : Zdigits2 (Zpos (m * 4503599627370496)) <= 105).
    { apply Zdigits2_le; [lia | lia |].
      pose proof (digits2_bounds m) as [_ Hu].
      assert (Zpos m < 2 ^ 53).
      { apply (Z.lt_le_trans _ _ _ Hu). apply Z.pow_le_mono_r; [lia|].
        unfold prec in Hm. lia. }
      rewrite Pos2Z.inj_mul.
      change (2 ^ 105) with (2 ^ 53 * 4503599627370496). nia. }
    unfold fexp, SpecFloat.emin, prec, emax in *. lia. }
  specialize (Hfin Hroom).
  destruct (binary_round_aux prec emax (xorb s false) _ _ _)
    as [s'|s'| |s' m' e']; cbn [finite_amount has_sign in_range] in *;
    [exact I | congruence | contradiction | exact Hr].
Qed.

Lemma fadd_nonneg (x y : float) :
  has_sign false x -> has_sign false y -> has_sign false (fadd x y).
Proof.
  destruct x as [s1|s1| |s1 m1 e1], y as [s2|s2| |s2 m2 e2];
    cbn [has_sign fadd SFadd]; try tauto; intros -> ->; try reflexivity.
  cbn [cond_Zopp Z.add]. apply binary_round_class.
Qed.

Lemma fsub_self (x : float) :
  has_sign false x -> x <> S754_infinity false -> fsub x x = S754_zero false.
Proof.
  destruct x as [s|s| |s m e]; cbn [has_sign fsub SFsub]; try tauto.
  - intros ->. reflexivity.
  - intros ->. congruence.
  - intros -> _. rewrite Z.sub_diag. reflexivity.
Qed.

(** Subtracting a number that is negative, or not larger, from a
    non-negative one leaves a non-negative one. *)
Lemma fsub_nonneg (x y : float) (sy : bool) :
  has_sign false x -> has_sign sy y ->
  sy = true \/ (fle y x = true /\ y <> S754_infinity false) ->
  has_sign false (fsub x y).
Proof.
  destruct x as [s1|s1| |s1 m1 e1], y as [s2|s2| |s2 m2 e2];
    cbn [has_sign]; try tauto; intros -> ->; destruct sy;
    cbn [fsub SFsub has_sign negb]; try reflexivity;
    try (intros [H|[H1 H2]]; congruence);
    try (intros [H|[H1 H2]]; [discriminate | discriminate H1]).
  - cbn [cond_Zopp Z.opp Z.sub Z.add]. intros _. apply binary_round_class.
  - intros [H|[H _]]; [discriminate|]. apply binary_normalize_nonneg.
    unfold fle, fcompare, aligned in H. rewrite (Z.min_comm e2 e1) in H.
    cbn [cond_Zopp] in *.
    destruct (Z.compare_spec (Zpos (fst (shl_align m2 e2 (Z.min e1 e2))))
                (Zpos (fst (shl_align m1 e1 (Z.min e1 e2)))));
      try discriminate; lia.
Qed.

Lemma pack_sign (s : bool) (ME : Z * Z) : has_sign s (pack s ME).
Proof.
  unfold pack. destruct (fst ME); try reflexivity.
  destruct (_ <=? _); reflexivity.
Qed.

Lemma nearest_ratio_sign (s : bool) (n D : Z) : has_sign s (nearest_ratio s n D).
Proof.
  unfold nearest_ratio. destruct (n <=? 0); [reflexivity|]. apply pack_sign.
Qed.

Lemma pyround_sign (s : bool) (x : float) (d : Z) :
  has_sign s x -> has_sign s (pyround x d).
Proof.
  destruct x as [s'|s'| |s' m e]; cbn [has_sign pyround]; try tauto.
  intros ->. apply nearest_ratio_sign.
Qed.

Lemma has_sign_false_fge (x : float) : has_sign false x -> fge x f0 = true.
Proof.
  destruct x as [s|s| |s m e]; cbn [has_sign]; try tauto; intros ->; reflexivity.
Qed.

(** ** Order *)

Lemma fcompare_antisym (x y : float) (c : comparison) :
  fcompare x y = Some c -> fcompare y x = Some (CompOpp c).
Proof.
  destruct x as [s1|s1| |s1 m1 e1], y as [s2|s2| |s2 m2 e2];
    cbn [fcompare SFcompare]; try discriminate;
    try (destruct s1; intros [= <-]; reflexivity);
    try (destruct s2; intros [= <-]; reflexivity);
    try (destruct s1, s2; intros [= <-]; reflexivity).
  intros [= <-]. rewrite (Z.min_comm e2 e1). f_equal.
  apply Z.compare_antisym.
Qed.

Lemma flt_false_fle (x y : float) :
  x <> S754_nan -> y <> S754_nan -> flt x y = false -> fle y x = true.
Proof.
  intros Hx Hy. unfold flt, fle.
  destruct (fcompare x y) as [c|] eqn:E.
  - rewrite (fcompare_antisym x y c E). destruct c; cbn; congruence.
  - destruct x as [s1|s1| |s1 m1 e1], y as [s2|s2| |s2 m2 e2];
      cbn [fcompare SFcompare] in E; congruence.
Qed.

End Classes.

(** ** Values and hundredths *)

Section Values.
Import Float64.

Lemma pow2_pos (x : Z) : 0 <= x -> 0 < 2 ^ x.
Proof. intros. apply Z.pow_pos_nonneg; lia. Qed.

Lemma pow2_split (x y : Z) : 0 <= x -> 0 <= y -> 2 ^ (x + y) = 2 ^ x * 2 ^ y.
Proof. intros. apply Z.pow_add_r; assumption. Qed.

Lemma pos_iter_xO (m d : positive) :
  Zpos (Pos.iter xO m d) = Zpos m * 2 ^ Zpos d.
Proof.
  induction d as [|d IH] using Pos.peano_ind.
  - cbn [Pos.iter]. change (2 ^ 1) with 2. lia.
  - rewrite Pos.iter_succ, Pos2Z.inj_succ, Z.pow_succ_r by lia.
    change (Zpos (Pos.iter xO m d)~0) with (2 * Zpos (Pos.iter xO m d)).
    rewrite IH. lia.
Qed.

Lemma shl_align_value (m : positive) (e ez : Z) :
  ez <= e -> Zpos (fst (shl_align m e ez)) = Zpos m * 2 ^ (e - ez).
Proof.
  intros H. unfold shl_align.
  destruct (ez - e) as [|d|d] eqn:E; cbn [fst].
  - replace (e - ez) with 0 by lia. lia.
  - lia.
  - rewrite pos_iter_xO. f_equal. f_equal. lia.
Qed.

(** The order of two positive finite floats is the order of their mantissas
    once both are written with a common exponent [e0]. *)
Lemma fle_finite (m1 m2 : positive) (e1 e2 e0 : Z) :
  e0 <= e1 -> e0 <= e2 ->
  fle (S754_finite false m1 e1) (S754_finite false m2 e2) = true <->
  Zpos m1 * 2 ^ (e1 - e0) <= Zpos m2 * 2 ^ (e2 - e0).
Proof.
  intros H1 H2. unfold fle, fcompare, aligned. cbn [cond_Zopp].
  rewrite !shl_align_value by lia.
  set (ez := Z.min e1 e2).
  replace (e1 - e0) with ((e1 - ez) + (ez - e0)) by lia.
  replace (e2 - e0) with ((e2 - ez) + (ez - e0)) by lia.
  rewrite !pow2_split by lia.
  pose proof (pow2_pos (ez - e0) ltac:(lia)) as Hp.
  destruct (Z.compare_spec (Zpos m1 * 2 ^ (e1 - ez)) (Zpos m2 * 2 ^ (e2 - ez)));
    split; intros; try discriminate; try reflexivity; nia.
Qed.

Lemma scaled_common (m : positive) (e D e0 : Z) :
  e0 <= e -> e0 <= 0 ->
  scaled m e D = rhe_div (D * Zpos m * 2 ^ (e - e0)) (2 ^ (- e0)).
Proof.
  intros H1 H2. unfold scaled.
  pose proof (pow2_pos (- e0) ltac:(lia)) as Hp.
  destruct (Z.leb_spec 0 e) as [He|He].
  - replace (e - e0) with (e + - e0) by lia. rewrite pow2_split by lia.
    replace (D * Zpos m * (2 ^ e * 2 ^ (- e0)))
      with (D * Zpos m * 2 ^ e * 2 ^ (- e0)) by lia.
    symmetry. apply rhe_div_exact, Hp.
  - replace (2 ^ (- e0)) with (2 ^ (- e) * 2 ^ (e - e0))
      by (rewrite <- pow2_split by lia; f_equal; lia).
    apply eq_sym, rhe_div_scale; apply pow2_pos; lia.
Qed.

Lemma scaled_mono (m1 m2 : positive) (e1 e2 D : Z) :
  0 < D ->
  fle (S754_finite false m1 e1) (S754_finite false m2 e2) = true ->
  scaled m1 e1 D <= scaled m2 e2 D.
Proof.
  intros HD H.
  set (e0 := Z.min (Z.min e1 e2) 0).
  apply (fle_finite m1 m2 e1 e2 e0) in H; try (unfold e0; lia).
  rewrite (scaled_common m1 e1 D e0), (scaled_common m2 e2 D e0)
    by (unfold e0; lia).
  apply rhe_div_mono; [apply pow2_pos; unfold e0; lia | nia].
Qed.

Lemma scaled_nonneg (m : positive) (e D : Z) : 0 < D -> 0 <= scaled m e D.
Proof.
  intros HD. unfold scaled. destruct (0 <=? e) eqn:E.
  - apply Z.leb_le in E. pose proof (pow2_pos e E). nia.
  - apply Z.leb_gt in E. apply rhe_div_nonneg; [nia | apply pow2_pos; lia].
Qed.

End Values.

(** ** The nearest double of a ratio *)

Section Nearest.
Import Float64.

Lemma pow2_ge_1 (x : Z) : 0 <= x -> 1 <= 2 ^ x.
Proof. intros. pose proof (pow2_pos x ltac:(lia)). lia. Qed.

Lemma pow2_ge_2 (x : Z) : 1 <= x -> 2 <= 2 ^ x.
Proof.
  intros. replace x with (1 + (x - 1)) by lia. rewrite pow2_split by lia.
  pose proof (pow2_pos (x - 1) ltac:(lia)). change (2 ^ 1) with 2. lia.
Qed.

Lemma pow2_lt_inv (x y : Z) : 0 <= x -> 0 <= y -> 2 ^ x < 2 ^ y -> x < y.
Proof. intros Hx Hy H. apply (Z.pow_lt_mono_r_iff 2); [lia | assumption | assumption]. Qed.

Lemma scale_le_iff (D k n B : Z) :
  0 <= B -> 0 <= k + B ->
  scale_le D k n = true <-> D * 2 ^ (k + B) <= n * 2 ^ B.
Proof.
  intros HB Hk. unfold scale_le. pose proof (pow2_pos B HB) as PB.
  destruct (Z.leb_spec 0 k) as [H|H]; rewrite Z.leb_le.
  - rewrite pow2_split by lia. rewrite Z.mul_assoc.
    apply Z.mul_le_mono_pos_r, PB.
  - replace (2 ^ B) with (2 ^ (- k) * 2 ^ (k + B))
      by (rewrite <- pow2_split by lia; f_equal; lia).
    rewrite Z.mul_assoc. apply Z.mul_le_mono_pos_r, pow2_pos, Hk.
Qed.

(** Rescaling both sides of a comparison of [D * 2^b] with [n]. *)
Lemma lift_le (D b n B B' : Z) :
  0 <= B <= B' -> 0 <= b + B ->
  D * 2 ^ (b + B) <= n * 2 ^ B <-> D * 2 ^ (b + B') <= n * 2 ^ B'.
Proof.
  intros HB Hb.
  replace (2 ^ (b + B')) with (2 ^ (b + B) * 2 ^ (B' - B))
    by (rewrite <- pow2_split by lia; f_equal; lia).
  replace (2 ^ B') with (2 ^ B * 2 ^ (B' - B))
    by (rewrite <- pow2_split by lia; f_equal; lia).
  rewrite !Z.mul_assoc.
  apply Z.mul_le_mono_pos_r, pow2_pos. lia.
Qed.

Lemma lift_lt (D b n B B' : Z) :
  0 <= B <= B' -> 0 <= b + B ->
  n * 2 ^ B < D * 2 ^ (b + B) <-> n * 2 ^ B' < D * 2 ^ (b + B').
Proof.
  intros HB Hb.
  replace (2 ^ (b + B')) with (2 ^ (b + B) * 2 ^ (B' - B))
    by (rewrite <- pow2_split by lia; f_equal; lia).
  replace (2 ^ B') with (2 ^ B * 2 ^ (B' - B))
    by (rewrite <- pow2_split by lia; f_equal; lia).
  rewrite !Z.mul_assoc.
  apply Z.mul_lt_mono_pos_r, pow2_pos. lia.
Qed.

(** The binade brackets the ratio. *)
Lemma binade_spec (n D B : Z) :
  0 < n -> 0 < D -> 0 <= B -> 0 <= binade n D + B ->
  D * 2 ^ (binade n D + B) <= n * 2 ^ B
  /\ n * 2 ^ B < D * 2 ^ (binade n D + 1 + B).
Proof.
  intros Hn HD HB. unfold binade.
  pose proof (Z.log2_spec n Hn) as [Ln Un].
  pose proof (Z.log2_spec D HD) as [Ld Ud].
  pose proof (Z.log2_nonneg n) as Hln. pose proof (Z.log2_nonneg D) as Hld.
  rewrite Z.pow_succ_r in Un, Ud by assumption.
  set (ln := Z.log2 n) in *. set (ld := Z.log2 D) in *.
  pose proof (pow2_pos B HB) as PB.
  destruct (scale_le D (ln - ld) n) eqn:S; intros Hb.
  - split; [apply (scale_le_iff D (ln - ld) n B HB Hb), S|].
    assert (E : 2 ^ ld * 2 ^ (ln - ld + 1 + B) = 2 * (2 ^ ln * 2 ^ B)).
    { rewrite <- (pow2_split ld) by lia. rewrite <- (pow2_split ln) by lia.
      rewrite <- Z.pow_succ_r by lia. f_equal. lia. }
    pose proof (pow2_pos (ln - ld + 1 + B) ltac:(lia)). nia.
  - replace (ln - ld - 1 + 1 + B) with (ln - ld + B) by lia.
    split.
    + assert (E : 2 * (2 ^ ld * 2 ^ (ln - ld - 1 + B)) = 2 ^ ln * 2 ^ B).
      { rewrite <- (pow2_split ld) by lia. rewrite <- (pow2_split ln) by lia.
        rewrite <- Z.pow_succ_r by lia. f_equal. lia. }
      pose proof (pow2_pos (ln - ld - 1 + B) ltac:(lia)). nia.
    + destruct (Z.lt_ge_cases (n * 2 ^ B) (D * 2 ^ (ln - ld + B))) as [?|Hge];
        [assumption|].
      apply (scale_le_iff D (ln - ld) n B HB ltac:(lia)) in Hge. congruence.
Qed.

Lemma binade_unique (n D b B : Z) :
  0 < n -> 0 < D -> 0 <= B -> 0 <= b + B ->
  D * 2 ^ (b + B) <= n * 2 ^ B -> n * 2 ^ B < D * 2 ^ (b + 1 + B) ->
  binade n D = b.
Proof.
  intros Hn HD HB Hb Hl Hu.
  set (b0 := binade n D).
  set (B' := B + Z.abs b0 + Z.abs b).
  pose proof (binade_spec n D B' Hn HD ltac:(lia) ltac:(lia)) as [Hl0 Hu0].
  fold b0 in Hl0, Hu0.
  apply (lift_le D b n B B' ltac:(lia) Hb) in Hl.
  apply (lift_lt D (b + 1) n B B' ltac:(lia) ltac:(lia)) in Hu.
  assert (H1 : 2 ^ (b0 + B') < 2 ^ (b + 1 + B')) by nia.
  assert (H2 : 2 ^ (b + B') < 2 ^ (b0 + 1 + B')) by nia.
  apply pow2_lt_inv in H1; [|lia|lia]. apply pow2_lt_inv in H2; lia.
Qed.

Lemma binade_mono (n1 n2 D : Z) :
  0 < n1 <= n2 -> 0 < D -> binade n1 D <= binade n2 D.
Proof.
  intros Hn HD.
  set (b1 := binade n1 D). set (b2 := binade n2 D).
  set (B := Z.abs b1 + Z.abs b2).
  pose proof (binade_spec n1 D B ltac:(lia) HD ltac:(lia) ltac:(lia)) as [L1 _].
  pose proof (binade_spec n2 D B ltac:(lia) HD ltac:(lia) ltac:(lia)) as [_ U2].
  fold b1 in L1. fold b2 in U2.
  pose proof (pow2_pos B ltac:(lia)).
  assert (H1 : 2 ^ (b1 + B) < 2 ^ (b2 + 1 + B)) by nia.
  apply pow2_lt_inv in H1; lia.
Qed.

Lemma binade_lower (n D : Z) :
  0 < n -> 0 < D <= 2 ^ 1000 -> -1001 < binade n D.
Proof.
  intros Hn HD.
  set (b := binade n D). set (B := Z.abs b).
  pose proof (binade_spec n D B Hn ltac:(lia) ltac:(lia) ltac:(lia)) as [_ U].
  fold b in U.
  pose proof (pow2_pos B ltac:(lia)). pose proof (pow2_pos (b + 1 + B) ltac:(lia)).
  assert (H1 : 2 ^ B < 2 ^ (1000 + (b + 1 + B))).
  { rewrite pow2_split by lia. nia. }
  apply pow2_lt_inv in H1; lia.
Qed.

Lemma ulp_exponent_normal (n D : Z) :
  0 < n -> 0 < D <= 2 ^ 1000 -> ulp_exponent n D = binade n D - 52.
Proof.
  intros Hn HD. pose proof (binade_lower n D Hn HD).
  unfold ulp_exponent, prec, emax. lia.
Qed.

Lemma mantissa_common (n D E B : Z) :
  0 < D -> 0 <= B -> 0 <= E + B ->
  mantissa n D E = rhe_div (n * 2 ^ B) (D * 2 ^ (E + B)).
Proof.
  intros HD HB HE. unfold mantissa.
  destruct (Z.ltb_spec E 0) as [H|H].
  - replace (2 ^ B) with (2 ^ (- E) * 2 ^ (E + B))
      by (rewrite <- pow2_split by lia; f_equal; lia).
    rewrite Z.mul_assoc. symmetry.
    apply rhe_div_scale; [assumption | apply pow2_pos; lia].
  - rewrite pow2_split by lia. rewrite Z.mul_assoc. symmetry.
    apply rhe_div_scale; [|apply pow2_pos; lia].
    pose proof (pow2_pos E H). nia.
Qed.

Lemma mantissa_bounds (n D : Z) :
  0 < n -> 0 < D ->
  2 ^ 52 <= mantissa n D (binade n D - 52) <= 2 ^ 53.
Proof.
  intros Hn HD. set (b := binade n D).
  set (B := Z.abs b + 52).
  pose proof (binade_spec n D B Hn HD ltac:(lia) ltac:(lia)) as [L U].
  fold b in L, U.
  rewrite (mantissa_common n D (b - 52) B HD) by lia.
  set (Y := D * 2 ^ (b - 52 + B)).
  assert (HY : 0 < Y) by (pose proof (pow2_pos (b - 52 + B) ltac:(lia)); nia).
  assert (E52 : D * 2 ^ (b + B) = 2 ^ 52 * Y).
  { unfold Y. replace (b + B) with (52 + (b - 52 + B)) by lia.
    rewrite pow2_split by lia. lia. }
  assert (E53 : D * 2 ^ (b + 1 + B) = 2 ^ 53 * Y).
  { unfold Y. replace (b + 1 + B) with (53 + (b - 52 + B)) by lia.
    rewrite pow2_split by lia. lia. }
  rewrite E52 in L. rewrite E53 in U.
  split.
  - rewrite <- (rhe_div_exact (2 ^ 52) Y HY) at 1.
    apply rhe_div_mono; [exact HY | exact L].
  - rewrite <- (rhe_div_exact (2 ^ 53) Y HY) at 1.
    apply rhe_div_mono; [exact HY | lia].
Qed.

Lemma nearest_ratio_normal (s : bool) (n D : Z) :
  0 < n -> 0 < D <= 2 ^ 1000 ->
  nearest_ratio s n D =
  pack s (normalize (mantissa n D (binade n D - 52)) (binade n D - 52)).
Proof.
  intros Hn HD. unfold nearest_ratio.
  destruct (Z.leb_spec n 0); [lia|].
  rewrite (ulp_exponent_normal n D Hn HD). reflexivity.
Qed.

Lemma fle_zero_nonneg (x : float) :
  has_sign false x -> fle (S754_zero false) x = true.
Proof.
  destruct x as [s|s| |s m e]; cbn [has_sign]; try tauto; intros ->; reflexivity.
Qed.

Lemma fle_nonneg_inf (x : float) :
  has_sign false x -> fle x (S754_infinity false) = true.
Proof.
  destruct x as [s|s| |s m e]; cbn [has_sign]; try tauto; intros ->; reflexivity.
Qed.

Lemma pack_mono (Ma Ea Mb Eb : Z) :
  0 < Ma -> 0 < Mb -> Ea <= Eb -> Ma <= Mb * 2 ^ (Eb - Ea) ->
  fle (pack false (Ma, Ea)) (pack false (Mb, Eb)) = true.
Proof.
  intros Ha Hb HE HM. unfold pack. cbn [fst snd].
  destruct Ma as [|pa|pa]; try lia. destruct Mb as [|pb|pb]; try lia.
  destruct (Z.leb_spec Ea (emax - prec)), (Z.leb_spec Eb (emax - prec));
    try reflexivity; try lia.
  apply (fle_finite pa pb Ea Eb Ea); try lia.
  rewrite Z.sub_diag. change (2 ^ 0) with 1. lia.
Qed.

Lemma normalize_mono (M1 E1 M2 E2 : Z) :
  2 ^ 52 <= M1 <= 2 ^ 53 -> 2 ^ 52 <= M2 <= 2 ^ 53 ->
  E1 < E2 \/ (E1 = E2 /\ M1 <= M2) ->
  let a := normalize M1 E1 in
  let b := normalize M2 E2 in
  0 < fst a /\ 0 < fst b /\ snd a <= snd b
  /\ fst a <= fst b * 2 ^ (snd b - snd a).
Proof.
  intros H1 H2 H. unfold normalize, prec.
  change (2 ^ (53 - 1)) with (2 ^ 52).
  assert (P52 : 0 < 2 ^ 52) by reflexivity.
  assert (P53 : 2 ^ 53 = 2 * 2 ^ 52) by reflexivity.
  destruct (Z.eqb_spec M1 (2 ^ 53)) as [->|N1],
           (Z.eqb_spec M2 (2 ^ 53)) as [->|N2]; cbn [fst snd].
  - split; [lia|]. split; [lia|]. split; [lia|].
    pose proof (pow2_ge_1 (E2 + 1 - (E1 + 1)) ltac:(lia)). nia.
  - assert (E1 < E2) by lia.
    split; [lia|]. split; [lia|]. split; [lia|].
    pose proof (pow2_ge_1 (E2 - (E1 + 1)) ltac:(lia)). nia.
  - split; [lia|]. split; [lia|]. split; [lia|].
    pose proof (pow2_ge_2 (E2 + 1 - E1) ltac:(lia)). nia.
  - split; [lia|]. split; [lia|]. split; [lia|].
    destruct H as [H|[-> H]].
    + pose proof (pow2_ge_2 (E2 - E1) ltac:(lia)). nia.
    + rewrite Z.sub_diag. change (2 ^ 0) with 1. lia.
Qed.

(** Rounding a ratio to the nearest double is monotone in the numerator. *)
Lemma nearest_ratio_mono (n1 n2 D : Z) :
  0 <= n1 <= n2 -> 0 < D <= 2 ^ 1000 ->
  fle (nearest_ratio false n1 D) (nearest_ratio false n2 D) = true.
Proof.
  intros Hn HD.
  destruct (Z.eq_dec n1 0) as [->|N1].
  { apply fle_zero_nonneg, nearest_ratio_sign. }
  rewrite !nearest_ratio_normal by lia.
  pose proof (binade_mono n1 n2 D ltac:(lia) ltac:(lia)) as Hb.
  pose proof (mantissa_bounds n1 D ltac:(lia) ltac:(lia)) as B1.
  pose proof (mantissa_bounds n2 D ltac:(lia) ltac:(lia)) as B2.
  set (b1 := binade n1 D) in *. set (b2 := binade n2 D) in *.
  assert (H : b1 - 52 < b2 - 52
              \/ (b1 - 52 = b2 - 52
                  /\ mantissa n1 D (b1 - 52) <= mantissa n2 D (b2 - 52))).
  { destruct (Z.eq_dec b1 b2) as [E|N]; [right | left; lia].
    split; [lia|]. rewrite <- E.
    set (B := Z.abs b1 + 52).
    rewrite (mantissa_common n1 D (b1 - 52) B), (mantissa_common n2 D (b1 - 52) B)
      by lia.
    pose proof (pow2_pos B ltac:(lia)).
    pose proof (pow2_pos (b1 - 52 + B) ltac:(lia)).
    apply rhe_div_mono; nia. }
  pose proof (normalize_mono _ _ _ _ B1 B2 H) as (Ha & Hb' & HE & HM).
  cbv zeta in Ha, Hb', HE, HM.
  destruct (normalize (mantissa n1 D (b1 - 52)) (b1 - 52)) as [Ma Ea].
  destruct (normalize (mantissa n2 D (b2 - 52)) (b2 - 52)) as [Mb Eb].
  apply pack_mono; assumption.
Qed.

End Nearest.

(** ** Rounding to two decimals *)

Section RoundTwice.
Import Float64.

Lemma hundred_small : 0 < 100 <= 2 ^ 1000.
Proof. split; [reflexivity | discriminate]. Qed.

Lemma pack_normal (s : bool) (p : positive) (E : Z) :
  Zpos p < 2 ^ 53 -> E <= 971 ->
  pack s (normalize (Zpos p) E) = S754_finite s p E.
Proof.
  intros Hp HE. unfold normalize, prec.
  destruct (Z.eqb_spec (Zpos p) (2 ^ 53)) as [H|_]; [lia|].
  unfold pack, emax, prec. cbn [fst snd].
  destruct (Z.leb_spec E (1024 - 53)); [reflexivity | lia].
Qed.

(** A double whose unit in the last place is at least [2^-6] is its own
    rounding to two decimals. *)
Lemma pyround2_large (s : bool) (p : positive) (E : Z) :
  2 ^ 52 <= Zpos p < 2 ^ 53 -> -6 <= E <= 971 ->
  pyround (S754_finite s p E) 2 = S754_finite s p E.
Proof.
  intros Hp HE. cbn [pyround]. change (10 ^ 2) with 100.
  set (n' := scaled p E 100).
  assert (P52 : 2 ^ 52 = 4503599627370496) by reflexivity.
  assert (P53 : 2 ^ 53 = 9007199254740992) by reflexivity.
  assert (Hb : 100 * 2 ^ (E + 52) <= n' < 100 * 2 ^ (E + 53)
               /\ mantissa n' 100 E = Zpos p).
  { unfold n', scaled, mantissa.
    destruct (Z.leb_spec 0 E) as [H0|H0]; destruct (Z.ltb_spec E 0) as [H1|H1];
      try lia.
    - pose proof (pow2_pos E H0) as PE.
      replace (E + 52) with (52 + E) by lia.
      replace (E + 53) with (53 + E) by lia. rewrite !pow2_split by lia.
      split; [nia|].
      replace (100 * Zpos p * 2 ^ E) with (Zpos p * (100 * 2 ^ E)) by lia.
      apply rhe_div_exact. lia.
    - set (Q := 2 ^ (- E)).
      assert (HQ : 2 <= Q <= 64).
      { unfold Q. split; [apply pow2_ge_2; lia|].
        change 64 with (2 ^ 6). apply Z.pow_le_mono_r; lia. }
      assert (EL : Q * 2 ^ (E + 52) = 2 ^ 52).
      { unfold Q. rewrite <- pow2_split by lia. f_equal. lia. }
      assert (EU : Q * 2 ^ (E + 53) = 2 ^ 53).
      { unfold Q. rewrite <- pow2_split by lia. f_equal. lia. }
      pose proof (rhe_div_spec (100 * Zpos p) Q ltac:(lia)) as (Bd & _ & _).
      set (k := rhe_div (100 * Zpos p) Q) in *.
      pose proof (pow2_pos (E + 52) ltac:(lia)) as PL.
      pose proof (pow2_pos (E + 53) ltac:(lia)) as PU.
      split; [split|].
      + assert (Q * (100 * 2 ^ (E + 52)) <= Q * k); [|nia].
        assert (2 * (Q * (100 * 2 ^ (E + 52))) <= 2 * (Q * k) + Q); [nia|].
        assert (Hdiv : (Q | 100 * 2 ^ 52)).
        { exists (100 * 2 ^ (E + 52)). lia. }
        destruct (Z.le_gt_cases (100 * 2 ^ (E + 52)) k); nia.
      + nia.
      + apply rhe_div_inside; [lia | nia]. }
  destruct Hb as [[Hl Hu] Hm].
  assert (Hn : 0 < n') by (pose proof (pow2_pos (E + 52) ltac:(lia)); lia).
  rewrite (nearest_ratio_normal s n' 100 Hn hundred_small).
  assert (Hbin : binade n' 100 = E + 52).
  { apply (binade_unique n' 100 (E + 52) 0); try lia.
    - rewrite Z.add_0_r. change (2 ^ 0) with 1. lia.
    - rewrite Z.add_0_r. change (2 ^ 0) with 1.
      replace (E + 52 + 1) with (E + 53) by lia. lia. }
  rewrite Hbin. replace (E + 52 - 52) with E by lia. rewrite Hm.
  apply pack_normal; lia.
Qed.

(** Below that, the rounding error of the double is less than half a
    hundredth, and the hundredths are recovered. *)
Lemma scaled_nearest (n : Z) (p : positive) (E E' : Z) :
  0 < n -> E <= -7 ->
  mantissa n 100 E = Zpos p * 2 ^ (E' - E) -> E <= E' < 0 ->
  scaled p E' 100 = n.
Proof.
  intros Hn HE Hm HE'. unfold scaled.
  destruct (Z.leb_spec 0 E'); [lia|].
  unfold mantissa in Hm. destruct (Z.ltb_spec E 0); [|lia].
  pose proof (rhe_div_spec (n * 2 ^ (- E)) 100 ltac:(lia)) as (Bd & _ & _).
  rewrite Hm in Bd.
  assert (HQ : 128 <= 2 ^ (- E)).
  { change 128 with (2 ^ 7). apply Z.pow_le_mono_r; lia. }
  assert (EQ : 2 ^ (- E) = 2 ^ (- E') * 2 ^ (E' - E)).
  { rewrite <- pow2_split by lia. f_equal. lia. }
  pose proof (pow2_pos (- E') ltac:(lia)) as PQ.
  pose proof (pow2_pos (E' - E) ltac:(lia)) as PS.
  set (Q' := 2 ^ (- E')) in *. set (S := 2 ^ (E' - E)) in *.
  apply rhe_div_inside; [exact PQ|]. nia.
Qed.

Lemma normalize_value (M E : Z) :
  2 ^ 52 <= M <= 2 ^ 53 ->
  exists p E', normalize M E = (Zpos p, E')
               /\ 2 ^ 52 <= Zpos p < 2 ^ 53
               /\ E <= E' <= E + 1
               /\ M = Zpos p * 2 ^ (E' - E).
Proof.
  intros HM. unfold normalize, prec. change (2 ^ (53 - 1)) with (2 ^ 52).
  destruct (Z.eqb_spec M (2 ^ 53)) as [->|N].
  - exists (Z.to_pos (2 ^ 52)), (E + 1). split; [reflexivity|].
    split; [split; [reflexivity | reflexivity]|]. split; [lia|].
    replace (E + 1 - E) with 1 by lia. reflexivity.
  - exists (Z.to_pos M), E.
    assert (0 < M) by (assert (0 < 2 ^ 52) by reflexivity; lia).
    rewrite Z2Pos.id by assumption. split; [reflexivity|].
    split; [lia|]. split; [lia|]. rewrite Z.sub_diag. change (2 ^ 0) with 1. lia.
Qed.

(** A float that results from rounding to two decimals rounds to itself. *)
Lemma pyround2_nearest (s : bool) (n : Z) :
  pyround (nearest_ratio s n 100) 2 = nearest_ratio s n 100.
Proof.
  destruct (Z.le_gt_cases n 0) as [Hn|Hn].
  { unfold nearest_ratio. destruct (Z.leb_spec n 0); [reflexivity | lia]. }
  rewrite (nearest_ratio_normal s n 100 Hn hundred_small).
  pose proof (mantissa_bounds n 100 Hn ltac:(lia)) as HM.
  set (E := binade n 100 - 52) in *.
  destruct (normalize_value (mantissa n 100 E) E HM)
    as (p & E' & Hnorm & Hp & HE' & Hval).
  rewrite Hnorm. unfold pack, emax, prec. cbn [fst snd].
  destruct (Z.leb_spec E' (1024 - 53)) as [Hle|Hgt]; [|reflexivity].
  destruct (Z.le_gt_cases E (-7)) as [Hs|Hl].
  - cbn [pyround]. change (10 ^ 2) with 100.
    rewrite (scaled_nearest n p E E' Hn Hs Hval ltac:(lia)).
    rewrite (nearest_ratio_normal s n 100 Hn hundred_small). fold E.
    rewrite Hnorm. unfold pack, emax, prec. cbn [fst snd].
    destruct (Z.leb_spec E' (1024 - 53)); [reflexivity | lia].
  - apply pyround2_large; lia.
Qed.

(** Rounding to two decimals twice is rounding once. *)
Lemma pyround2_idem (x : float) : pyround (pyround x 2) 2 = pyround x 2.
Proof.
  destruct x as [s|s| |s m e]; try reflexivity.
  cbn [pyround]. change (10 ^ 2) with 100. apply pyround2_nearest.
Qed.

(** Rounding to two decimals is monotone on the non-negative floats. *)
Lemma pyround2_mono (x y : float) :
  has_sign false x -> has_sign false y -> fle x y = true ->
  fle (pyround x 2) (pyround y 2) = true.
Proof.
  intros Hx Hy Hle.
  destruct x as [sx|sx| |sx mx ex]; cbn [has_sign] in Hx; try contradiction;
    subst sx.
  - apply fle_zero_nonneg, pyround_sign, Hy.
  - destruct y as [sy|sy| |sy my ey]; cbn [has_sign] in Hy;
      try contradiction; subst sy; try discriminate Hle. reflexivity.
  - destruct y as [sy|sy| |sy my ey]; cbn [has_sign] in Hy;
      try contradiction; subst sy; try discriminate Hle.
    + apply fle_nonneg_inf, (pyround_sign false (S754_finite false mx ex)).
      reflexivity.
    + cbn [pyround]. change (10 ^ 2) with 100.
      apply nearest_ratio_mono; [|exact hundred_small].
      split; [apply scaled_nonneg; lia | apply scaled_mono; [lia | exact Hle]].
Qed.

Lemma fle_max_double (x : float) :
  has_sign false x -> finite_amount x -> fle x max_double = true.
Proof.
  destruct x as [s|s| |s m e]; cbn [has_sign finite_amount].
  1: intros -> _; reflexivity.
  1: intros _ [].
  1: intros [].
  intros -> [Hm He]. unfold prec, emax in Hm, He.
  apply (fle_finite m 9007199254740991 e 971 e); try lia.
  rewrite Z.sub_diag. change (2 ^ 0) with 1.
  pose proof (digits2_bounds m) as [_ Hu].
  assert (Zpos m < 2 ^ 53).
  { apply (Z.lt_le_trans _ _ _ Hu). apply Z.pow_le_mono_r; lia. }
  pose proof (pow2_ge_1 (971 - e) ltac:(lia)).
  change (2 ^ 53) with 9007199254740992 in *. nia.
Qed.

(** Rounding a finite non-negative amount does not overflow. *)
Lemma pyround2_finite (x : float) :
  has_sign false x -> finite_amount x ->
  pyround x 2 <> S754_infinity false.
Proof.
  intros Hs Hf E.
  pose proof (pyround2_mono x max_double Hs ltac:(reflexivity)
                (fle_max_double x Hs Hf)) as H.
  rewrite E in H.
  replace (pyround max_double 2) with max_double in H
    by (vm_compute; reflexivity).
  discriminate H.
Qed.

End RoundTwice.

(** ** Agreement with the comparison of [SpecFloat] *)

Section Agreement.
Import Float64.

Lemma canonical_bounds (m : positive) (e : Z) :
  bounded prec emax m e = true ->
  Zpos m < 2 ^ 53 /\ (-1074 < e -> 2 ^ 52 <= Zpos m) /\ -1074 <= e.
Proof.
  unfold bounded, canonical_mantissa, fexp, SpecFloat.emin, prec, emax.
  intros H. apply andb_true_iff in H as [H _]. apply Z.eqb_eq in H.
  pose proof (digits2_bounds m) as [Hl Hu].
  set (d := Zpos (digits2_pos m)) in *.
  split; [|split].
  - apply (Z.lt_le_trans _ _ _ Hu). apply Z.pow_le_mono_r; lia.
  - intros He. replace d with 53 in Hl by lia. exact Hl.
  - lia.
Qed.

(** On canonical representations the comparison of the values is the
    comparison of [SpecFloat]. *)
Lemma fcompare_valid (x y : float) :
  valid_binary prec emax x = true -> valid_binary prec emax y = true ->
  fcompare x y = SFcompare x y.
Proof.
  destruct x as [s1|s1| |s1 m1 e1], y as [s2|s2| |s2 m2 e2]; try reflexivity.
  cbn [valid_binary]. intros V1 V2.
  apply canonical_bounds in V1 as (U1 & L1 & E1).
  apply canonical_bounds in V2 as (U2 & L2 & E2).
  cbn [fcompare SFcompare]. f_equal. unfold aligned.
  rewrite !shl_align_value by lia.
  assert (P53 : 2 ^ 53 = 2 * 2 ^ 52) by reflexivity.
  assert (P52 : 0 < 2 ^ 52) by reflexivity.
  assert (C : (Zpos m1 * 2 ^ (e1 - Z.min e1 e2)
               ?= Zpos m2 * 2 ^ (e2 - Z.min e1 e2)) =
              match e1 ?= e2 with
              | Lt => Lt
              | Gt => Gt
              | Eq => Pos.compare_cont Eq m1 m2
              end).
  { destruct (Z.compare_spec e1 e2) as [->|H|H].
    - rewrite Z.min_id, Z.sub_diag. change (2 ^ 0) with 1.
      rewrite !Z.mul_1_r. reflexivity.
    - rewrite Z.min_l by lia. rewrite Z.sub_diag. change (2 ^ 0) with 1.
      pose proof (pow2_ge_2 (e2 - e1) ltac:(lia)).
      specialize (L2 ltac:(lia)). apply Z.compare_lt_iff. nia.
    - rewrite Z.min_r by lia. rewrite Z.sub_diag. change (2 ^ 0) with 1.
      pose proof (pow2_ge_2 (e1 - e2) ltac:(lia)).
      specialize (L1 ltac:(lia)). apply Z.compare_gt_iff. nia. }
  set (a := Zpos m1 * 2 ^ (e1 - Z.min e1 e2)) in *.
  set (b := Zpos m2 * 2 ^ (e2 - Z.min e1 e2)) in *.
  destruct s1, s2; cbn [cond_Zopp].
  - rewrite Z.compare_opp, (Z.compare_antisym a b), C.
    destruct (e1 ?= e2); reflexivity.
  - pose proof (pow2_pos (e1 - Z.min e1 e2) ltac:(lia)).
    pose proof (pow2_pos (e2 - Z.min e1 e2) ltac:(lia)).
    apply Z.compare_lt_iff. unfold a, b. nia.
  - pose proof (pow2_pos (e1 - Z.min e1 e2) ltac:(lia)).
    pose proof (pow2_pos (e2 - Z.min e1 e2) ltac:(lia)).
    apply Z.compare_gt_iff. unfold a, b. nia.
  - exact C.
Qed.

End Agreement.

(** ** The stake formula *)

Section StakeFacts.
Import Float64 Engine.

Lemma zero_count_table (z : Z) : 0 <= z <= 50 -> zero_count_row z.
Proof.
  intros Hz.
  assert (H : Forall zero_count_row (seqZ 0 51)).
  { apply (bool_decide_unpack _). vm_compute. reflexivity. }
  rewrite Forall_forall in H. apply H, elem_of_seqZ. lia.
Qed.

Lemma streak_table (s : Z) : 0 <= s <= max_streak -> streak_row s.
Proof.
  intros Hs.
  assert (H : Forall streak_row (seqZ 0 (max_streak + 1))).
  { apply (bool_decide_unpack _). vm_compute. reflexivity. }
  rewrite Forall_forall in H. apply H, elem_of_seqZ. lia.
Qed.

(** A term of the sequence is read off the memoised computation from an
    empty table. *)
Lemma fib_below (n : nat) (b : Z) :
  match fib_rec n n ∅ with Ok (v, _) => v <? b | Raise _ => false end = true ->
  fib n < b.
Proof.
  destruct (fib_rec n n ∅) as [[v c']|e] eqn:E; [|discriminate].
  destruct (fib_rec_spec _ _ _ _ _ cache_ok_empty E) as [-> _].
  apply Z.ltb_lt.
Qed.

Lemma fib_above (n : nat) (b : Z) :
  match fib_rec n n ∅ with Ok (v, _) => b <=? v | Raise _ => false end = true ->
  b <= fib n.
Proof.
  destruct (fib_rec n n ∅) as [[v c']|e] eqn:E; [|discriminate].
  destruct (fib_rec_spec _ _ _ _ _ cache_ok_empty E) as [-> _].
  apply Z.leb_le.
Qed.

Lemma fib_max_streak_converts :
  fib (Z.to_nat max_streak) < int_overflow_bound.
Proof. apply (fib_below (Z.to_nat max_streak)). vm_compute. reflexivity. Qed.

Lemma fib_next_streak_overflows :
  int_overflow_bound <= fib (Z.to_nat (max_streak + 1)).
Proof.
  apply (fib_above (Z.to_nat (max_streak + 1))). vm_compute. reflexivity.
Qed.

(** The terms that convert to a float are those up to streak 1476. *)
Lemma fib_converts_iff (s : Z) :
  0 <= s -> fib (Z.to_nat s) < int_overflow_bound <-> s <= max_streak.
Proof.
  intros Hs. split.
  - intros H. destruct (Z.le_gt_cases s max_streak) as [?|Hgt]; [assumption|].
    pose proof fib_next_streak_overflows.
    pose proof (fib_mono (Z.to_nat (max_streak + 1)) (Z.to_nat s)
                  ltac:(unfold max_streak in *; lia)).
    lia.
  - intros H. pose proof fib_max_streak_converts.
    pose proof (fib_mono (Z.to_nat s) (Z.to_nat max_streak) ltac:(lia)).
    lia.
Qed.

Lemma fib_converts (s : Z) :
  0 <= s <= max_streak ->
  float_of_int (fib (Z.to_nat s)) = Ok (of_Z (fib (Z.to_nat s))).
Proof.
  intros Hs. apply float_of_int_small.
  pose proof (proj2 (fib_converts_iff s ltac:(lia)) ltac:(lia)).
  pose proof (fib_pos (Z.to_nat s)) as [? _]. lia.
Qed.


(** A product that converts has a term that converts. *)
Lemma product_converts_bound (base : pynum) (s : Z) :
  pynum_nonpos base = false -> 0 <= s -> product_converts base s ->
  s <= max_streak.
Proof.
  intros Hb Hs Hp. apply (fib_converts_iff s Hs).
  destruct base as [b|f]; cbn [product_converts pynum_nonpos] in *;
    [|exact Hp].
  apply Z.leb_gt in Hb. pose proof (fib_pos (Z.to_nat s)) as [? _]. nia.
Qed.

Lemma calculate_bet_guards_pass (base : pynum) (s z : Z) (frames : nat)
    (c : gmap Z Z) :
  pynum_nonpos base = false -> 0 <= s -> 0 <= z <= 50 ->
  calculate_bet base (PyInt s) z frames c =
  ('(fib_k, c1) ← get_fib_for_streak (PyInt s) frames c;
   zf ← float_of_int z;
   let buffer_factor := fsub f1 (fdiv zf f50) in
   if fle buffer_factor f0 then Ok (f0, c1)
   else
     sf ← float_of_int s;
     let risk_index := fadd f1 (fdiv sf f15) in
     if fle risk_index f0 then Ok (f0, c1)
     else
       product ← pynum_mul_int base fib_k;
       pf ← pynum_to_float product;
       Ok (pyround (fdiv (fmul pf buffer_factor) risk_index) 2, c1)).
Proof.
  intros Hb Hs Hz. unfold calculate_bet.
  rewrite Hb. cbn [pynum_neg pynum_to_float].
  destruct (Z.ltb_spec s 0); [lia|].
  destruct (Z.leb_spec 0 z); [|lia].
  destruct (Z.leb_spec z 50); [|lia].
  reflexivity.
Qed.

(** The conversion in [base_bet * fib_k * buffer_factor] when the product
    converts. *)
Lemma stake_product_converts (base : pynum) (s : Z) :
  pynum_nonpos base = false -> 0 <= s -> product_converts base s ->
  exists pf : float,
    (product ← pynum_mul_int base (fib (Z.to_nat s)); pynum_to_float product)
    = Ok pf.
Proof.
  intros Hb Hs Hp.
  pose proof (product_converts_bound base s Hb Hs Hp) as Hmax.
  destruct base as [b|f];
    cbn [pynum_mul_int pynum_to_float mbind result_bind product_converts
         pynum_nonpos] in *.
  - apply Z.leb_gt in Hb. pose proof (fib_pos (Z.to_nat s)) as [? _].
    rewrite float_of_int_small by nia. eauto.
  - rewrite fib_converts by lia. cbn [mbind result_bind]. eauto.
Qed.

End StakeFacts.

Section StakeFormula.
Import Float64 Engine.











(** The tests at the head of [calculate_bet]: a base stake that is not
    positive, a negative streak or a zero count out of range gives [0.0] and
    leaves the memoisation table alone, whatever calls are allowed. *)
Lemma calculate_bet_guard (base streak : pynum) (z : Z) (frames : nat)
    (c : gmap Z Z) :
  pynum_nonpos base = true \/ pynum_neg streak = true \/ z < 0 \/ 50 < z ->
  calculate_bet base streak z frames c = Ok (f0, c).
Proof.
  intros H. unfold calculate_bet.
  destruct (pynum_nonpos base); [reflexivity|].
  destruct (pynum_neg streak); [reflexivity|].
  destruct H as [H|[H|H]]; try discriminate.
  destruct (Z.leb_spec 0 z), (Z.leb_spec z 50); try reflexivity; lia.
Qed.

(** C9 as amended.  For every input with [base <= 0], or [streak < 0]
    (an [int] or not), or a zero count outside [[0, 50]], [calculate_bet]
    returns [0.0] and raises nothing; [calculate_bet(10, s, 60) = 0.00] for
    every [s].  A streak that is not an [int] and not negative, with
    [base > 0] and a zero count in [[0, 50]], is not absorbed:
    [get_fib_for_streak] raises [ValueError] and [calculate_bet] lets it
    through.  The base stake is an [int] or a [float], and the calls that
    the interpreter allows inside [get_fib_for_streak] are any. *)
Theorem calculate_bet_rejects :
  (forall (base streak : pynum) (z : Z) (frames : nat) (c : gmap Z Z),
      pynum_nonpos base = true \/ pynum_neg streak = true \/ z < 0 \/ 50 < z ->
      calculate_bet base streak z frames c = Ok (f0, c))
  /\ (forall (streak : pynum) (frames : nat) (c : gmap Z Z),
         calculate_bet (PyFloat (of_Z 10)) streak 60 frames c = Ok (f0, c)
         /\ calculate_bet (PyInt 10) streak 60 frames c = Ok (f0, c))
  /\ (forall (base : pynum) (f : float) (z : Z) (frames : nat)
        (c : gmap Z Z),
         pynum_nonpos base = false -> flt f f0 = false -> 0 <= z <= 50 ->
         calculate_bet base (PyFloat f) z frames c = Raise ValueError).
Proof.
  split; [exact calculate_bet_guard|]. split.
  - intros streak frames c.
    split; apply calculate_bet_guard; right; right; right; lia.
  - intros base f z frames c Hb Hf Hz. unfold calculate_bet.
    rewrite Hb. cbn [pynum_neg]. rewrite Hf.
    destruct (Z.leb_spec 0 z), (Z.leb_spec z 50); try lia. reflexivity.
Qed.

Lemma calculate_bet_rejects_witness :
  calculate_bet (PyFloat (dec (-5) 1)) (PyInt 3) 7 recursion_limit ∅
  = Ok (f0, ∅)
  /\ calculate_bet (PyFloat (of_Z 10)) (PyFloat (dec 25 10)) 3
       recursion_limit ∅
     = Raise ValueError.
Proof.
  split.
  - apply (proj1 calculate_bet_rejects). left. reflexivity.
  - apply (proj2 (proj2 calculate_bet_rejects)); [reflexivity | reflexivity | lia].
Defined.

(** C9 fails as stated: the streak [2.5] is not an integer, and
    [calculate_bet(10.0, 2.5, 3)] raises [ValueError] instead of returning
    [0.0]. *)
Lemma calculate_bet_raises_on_float_streak :
  flt (dec 25 10) f0 = false
  /\ calculate_bet (PyFloat (of_Z 10)) (PyFloat (dec 25 10)) 3
       recursion_limit ∅
     = Raise ValueError
  /\ calculate_bet (PyFloat (of_Z 10)) (PyFloat (dec 25 10)) 3
       recursion_limit ∅
     <> Ok (f0, ∅).
Proof. repeat split; try reflexivity. discriminate. Qed.

End StakeFormula.

(** ** Properties of a roulette number *)

Section NumberProperties.
Import Float64 Analytics.

Lemma elem_of_ALL_NUMBERS (n : Z) : n ∈ ALL_NUMBERS <-> 0 <= n <= 36.
Proof.
  unfold ALL_NUMBERS. rewrite elem_of_list_to_set, elem_of_seqZ. lia.
Qed.

Lemma roulette_number_cases (n : Z) :
  1 <= n <= 36 -> n ∈ seqZ 1 36.
Proof. intros H. apply elem_of_seqZ. lia. Qed.

Lemma coloured_all (n : Z) : 1 <= n <= 36 -> coloured n.
Proof.
  intros H.
  assert (A : Forall coloured (seqZ 1 36)).
  { vm_compute seqZ.
    repeat (apply Forall_cons; split;
            [eexists; split; [vm_compute; reflexivity|];
             split; [reflexivity|]; (left; reflexivity) || (right; reflexivity)
            |]).
    apply Forall_nil. exact I. }
  rewrite Forall_forall in A. apply A, roulette_number_cases, H.
Qed.

(** C10.  [get_number_properties(n)] raises [ValueError] exactly when [n]
    is outside [{0, ..., 36}]; for [n] in [{1, ..., 36}] it returns a
    record with [is_zero] false and a colour that is "red" or "black"; for
    [n = 0] it returns [is_zero] true and no colour; so the classification
    of the driver's stake on red never raises on the 37 outcomes. *)
Theorem get_number_properties_total (n : Z) :
  (get_number_properties n = Raise ValueError <-> ~ (0 <= n <= 36))
  /\ (1 <= n <= 36 ->
      exists p, get_number_properties n = Ok p
                /\ is_zero p = false
                /\ (color p = Some "red"%string
                    \/ color p = Some "black"%string))
  /\ (n = 0 ->
      exists p, get_number_properties n = Ok p
                /\ is_zero p = true /\ color p = None)
  /\ (0 <= n <= 36 ->
      forall bet : float,
        exists win z,
          Simulator.place_bet_and_determine_outcome bet n = Ok (win, z)).
Proof.
  split; [|split; [|split]].
  - unfold get_number_properties.
    destruct (decide (n ∈ ALL_NUMBERS)) as [Hin|Hout].
    + rewrite (bool_decide_eq_true_2 _ Hin). cbn [negb].
      apply elem_of_ALL_NUMBERS in Hin.
      split; [|lia]. destruct (bool_decide (n ≠ ZERO_NUMBER)); discriminate.
    + rewrite (bool_decide_eq_false_2 _ Hout). cbn [negb].
      rewrite elem_of_ALL_NUMBERS in Hout. split; [intros _; exact Hout|reflexivity].
  - apply coloured_all.
  - intros ->. eexists. split; [vm_compute; reflexivity|]. split; reflexivity.
  - intros Hn bet. unfold Simulator.place_bet_and_determine_outcome.
    destruct (fle bet f0); [eexists _, _; reflexivity|].
    destruct (decide (n = 0)) as [->|Hne].
    + eexists _, _. vm_compute. reflexivity.
    + destruct (coloured_all n ltac:(lia)) as (p & -> & _ & _).
      cbn [mbind result_bind].
      destruct (_ && _); eexists _, _; reflexivity.
Qed.

Lemma get_number_properties_total_witness :
  (exists p, get_number_properties 17 = Ok p
             /\ is_zero p = false
             /\ (color p = Some "red"%string \/ color p = Some "black"%string))
  /\ exists win z,
       Simulator.place_bet_and_determine_outcome (of_Z 10) 17 = Ok (win, z).
Proof.
  split.
  - apply (proj1 (proj2 (get_number_properties_total 17))). lia.
  - apply (proj2 (proj2 (proj2 (get_number_properties_total 17)))). lia.
Defined.

End NumberProperties.

(** ** The transition of the risk state *)

Section Transitions.
Import Float64 RiskMonitor.

Lemma feq_f0_not_fgt (x : float) : feq x f0 = true -> fgt x f0 = false.
Proof. destruct x as [[]|[]| |[] m e]; cbv; congruence. Qed.

(** The fields a transition leaves to [check_stop_conditions] untouched. *)
Lemma update_state_win_fields (rm : risk_monitor) (bet win : float)
    (z : bool) (o : option float) :
  fgt win f0 = true ->
  let rm' := update_state rm bet win z o in
  let bank := match o with Some b => b | None => current_bank rm end in
  current_bank rm' = pyround (fadd bank win) 2
  /\ current_streak rm' = 0
  /\ zero_buffer rm' =
     pyround (fadd (zero_buffer rm) (fmul win ZERO_BUFFER_CONTRIBUTION_RATE)) 2.
Proof.
  intros Hw. unfold update_state. rewrite Hw.
  destruct o; repeat split; reflexivity.
Qed.

Lemma update_state_loss_fields (rm : risk_monitor) (bet win : float)
    (z : bool) (o : option float) :
  fgt win f0 = false ->
  let rm' := update_state rm bet win z o in
  let bank := match o with Some b => b | None => current_bank rm end in
  let comp :=
    pyround (pymin (fmul bet ZERO_LOSS_COMPENSATION_RATE) (zero_buffer rm)) 2 in
  current_streak rm' = current_streak rm + 1
  /\ current_bank rm' =
     (if z then pyround (fadd (fsub bank bet) comp) 2
      else pyround (fsub bank bet) 2)
  /\ zero_buffer rm' =
     (if z then pyround (fsub (zero_buffer rm) comp) 2 else zero_buffer rm).
Proof.
  intros Hw. unfold update_state. rewrite Hw.
  destruct o, z; repeat split; reflexivity.
Qed.

(** C3 as amended.  For every risk state and every win transition
    ([update_state] with [win_amount > 0] and the pre-stake bank supplied),
    the new [current_bank] is the pre-stake bank plus [win_amount], rounded
    to 2 decimals, [loss_streak] becomes 0, and the reserve becomes
    [round(reserve + win_amount * 0.05, 2)]; with bank 1000, stake 10, net
    win 10, not zero, the result is bank 1010.00, streak 0, reserve 0.50. *)
Theorem update_state_win (rm : risk_monitor) (bet win bank : float)
    (z : bool) :
  fgt win f0 = true ->
  (let rm' := update_state rm bet win z (Some bank) in
   current_bank rm' = pyround (fadd bank win) 2
   /\ current_streak rm' = 0
   /\ zero_buffer rm' = pyround (fadd (zero_buffer rm) (fmul win f0_05)) 2)
  /\ (let rm' :=
        update_state (init (of_Z 1000) (of_Z 10)) (of_Z 10) (of_Z 10) false
          (Some (of_Z 1000)) in
      current_bank rm' = dec 101000 100
      /\ current_streak rm' = 0
      /\ zero_buffer rm' = dec 50 100).
Proof.
  intros Hw. split.
  - exact (update_state_win_fields rm bet win z (Some bank) Hw).
  - vm_compute. repeat split; reflexivity.
Qed.

Lemma update_state_win_witness :
  let rm' :=
    update_state (init (of_Z 500) (of_Z 5)) (dec 725 100) (dec 725 100) false
      (Some (of_Z 500)) in
  current_bank rm' = pyround (fadd (of_Z 500) (dec 725 100)) 2
  /\ current_streak rm' = 0
  /\ zero_buffer rm' = pyround (fadd f0 (fmul (dec 725 100) f0_05)) 2.
Proof.
  apply (proj1 (update_state_win (init (of_Z 500) (of_Z 5)) (dec 725 100)
                  (dec 725 100) (of_Z 500) false ltac:(reflexivity))).
Defined.

(** C3 fails as stated: from the reset state, a win of 0.2 leaves a reserve
    of 0.01; a further win of 2.5 contributes 0.125, and the reserve becomes
    [round(0.01 + 0.125, 2) = 0.14], whereas an increase by
    [round(0.125, 2) = 0.12] would give 0.13. *)
Lemma reserve_increase_is_not_rounded_contribution :
  let rm1 :=
    update_state (init (of_Z 1000) (of_Z 10)) (dec 2 10) (dec 2 10) false
      (Some (of_Z 1000)) in
  let win := dec 25 10 in
  let rm2 := update_state rm1 win win false (Some (current_bank rm1)) in
  fgt win f0 = true
  /\ zero_buffer rm1 = dec 1 100
  /\ pyround (fmul win f0_05) 2 = dec 12 100
  /\ fadd (zero_buffer rm1) (pyround (fmul win f0_05) 2) = dec 13 100
  /\ zero_buffer rm2 = dec 14 100
  /\ zero_buffer rm2 <> fadd (zero_buffer rm1) (pyround (fmul win f0_05) 2).
Proof. vm_compute. repeat split; try reflexivity. discriminate. Qed.

(** C4 as amended.  For every risk state and every losing transition on a
    zero outcome ([update_state] with [win_amount == 0], [is_zero_result]
    true and the pre-stake bank supplied), the compensation is
    [min(bet_amount * 0.5, reserve)] rounded to 2 decimals, the new
    [current_bank] is the pre-stake bank minus [bet_amount] plus the
    compensation, rounded to 2 decimals, the reserve becomes
    [round(reserve - compensation, 2)], and [loss_streak] increases by 1;
    with bank 1000, stake 10, net win 0, zero outcome and reserve 20, the
    compensation is 5.00 and the result is bank 995.00, reserve 15.00,
    streak 1, zero count 1. *)
Theorem update_state_zero_loss (rm : risk_monitor) (bet win bank : float) :
  feq win f0 = true ->
  (let rm' := update_state rm bet win true (Some bank) in
   let compensation := pyround (pymin (fmul bet f0_50) (zero_buffer rm)) 2 in
   current_bank rm' = pyround (fadd (fsub bank bet) compensation) 2
   /\ zero_buffer rm' = pyround (fsub (zero_buffer rm) compensation) 2
   /\ current_streak rm' = current_streak rm + 1)
  /\ (let rm0 := set_zero_buffer (of_Z 20) (init (of_Z 1000) (of_Z 10)) in
      let rm' := update_state rm0 (of_Z 10) (of_Z 0) true (Some (of_Z 1000)) in
      pyround (pymin (fmul (of_Z 10) f0_50) (zero_buffer rm0)) 2 = dec 500 100
      /\ current_bank rm' = dec 99500 100
      /\ zero_buffer rm' = dec 1500 100
      /\ current_streak rm' = 1
      /\ z_count_last_50 rm' = 1).
Proof.
  intros Hw. split.
  - pose proof (update_state_loss_fields rm bet win true (Some bank)
                  (feq_f0_not_fgt _ Hw)) as (H1 & H2 & H3).
    cbv zeta. split; [exact H2|]. split; [exact H3 | exact H1].
  - vm_compute. repeat split; reflexivity.
Qed.

Lemma update_state_zero_loss_witness :
  let rm := set_zero_buffer (dec 340 100) (init (of_Z 200) (of_Z 4)) in
  let rm' := update_state rm (of_Z 4) f0 true (Some (of_Z 200)) in
  let compensation := pyround (pymin (fmul (of_Z 4) f0_50) (zero_buffer rm)) 2 in
  current_bank rm' = pyround (fadd (fsub (of_Z 200) (of_Z 4)) compensation) 2
  /\ zero_buffer rm' = pyround (fsub (zero_buffer rm) compensation) 2
  /\ current_streak rm' = current_streak rm + 1.
Proof.
  apply (proj1 (update_state_zero_loss
                  (set_zero_buffer (dec 340 100) (init (of_Z 200) (of_Z 4)))
                  (of_Z 4) f0 (of_Z 200) ltac:(reflexivity))).
Defined.

(** C4 fails as stated: with a reserve of 20.005, a stake of 10 lost on
    zero is compensated by 5.0, and the reserve becomes
    [round(20.005 - 5.0, 2) = 15.0]: it has decreased by more than the
    compensation. *)
Lemma reserve_decrease_is_rounded :
  let rm := set_zero_buffer (dec 20005 1000) (init (of_Z 1000) (of_Z 10)) in
  let rm' := update_state rm (of_Z 10) f0 true (Some (of_Z 1000)) in
  let compensation :=
    pyround (pymin (fmul (of_Z 10) f0_50) (zero_buffer rm)) 2 in
  feq f0 f0 = true
  /\ compensation = of_Z 5
  /\ zero_buffer rm' = of_Z 15
  /\ zero_buffer rm' <> fsub (zero_buffer rm) compensation
  /\ fsub (zero_buffer rm) (zero_buffer rm') <> compensation
  /\ flt compensation (fsub (zero_buffer rm) (zero_buffer rm')) = true.
Proof. vm_compute. repeat split; try reflexivity; discriminate. Qed.

End Transitions.

(** ** The invariant of the risk state *)

Section Invariant.
Import Float64 RiskMonitor.

Lemma update_state_window (rm : risk_monitor) (bet win : float) (z : bool)
    (o : option float) :
  let rm' := update_state rm bet win z o in
  let h := spin_history_for_zero_count rm ++ [if z then 1 else 0] in
  spin_history_for_zero_count rm' =
  (if 50 <? Z.of_nat (length h) then tail h else h)
  /\ z_count_last_50 rm' = pysum (spin_history_for_zero_count rm').
Proof.
  unfold update_state.
  destruct o, (fgt win f0), z; split; reflexivity.
Qed.

Lemma window_step (fl : list Z) (f : Z) :
  let h := drop (length fl - 50) fl ++ [f] in
  (if 50 <? Z.of_nat (length h) then tail h else h)
  = drop (length (fl ++ [f]) - 50) (fl ++ [f]).
Proof.
  cbv zeta. rewrite !length_app, length_drop. cbn [length].
  destruct (Z.ltb_spec 50 (Z.of_nat (length fl - (length fl - 50) + 1)%nat))
    as [H|H].
  - assert (Hn : (50 <= length fl)%nat) by lia.
    replace (length fl + 1 - 50)%nat with (S (length fl - 50)) by lia.
    rewrite drop_app_le by lia.
    replace (S (length fl - 50)) with (length fl - 50 + 1)%nat by lia.
    rewrite <- (drop_drop fl 1 (length fl - 50)).
    destruct (drop (length fl - 50) fl) as [|a r] eqn:E.
    + apply (f_equal length) in E. rewrite length_drop in E. cbn in E. lia.
    + reflexivity.
  - replace (length fl + 1 - 50)%nat with O by lia.
    replace (length fl - 50)%nat with O by lia. reflexivity.
Qed.

Lemma pysum_flags (l : list Z) :
  Forall (fun x => x = 0 \/ x = 1) l -> 0 <= pysum l <= Z.of_nat (length l).
Proof.
  induction 1 as [|x l Hx _ IH]; cbn [pysum foldr length]; [lia|].
  fold (pysum l). lia.
Qed.

Lemma flt_inf_left (y : float) : flt (S754_infinity false) y = false.
Proof. destruct y as [s|[]| |s m e]; reflexivity. Qed.

Lemma finite_amount_sign (x : float) :
  finite_amount x -> exists s, has_sign s x.
Proof.
  destruct x as [s|s| |s m e]; cbn [finite_amount]; try tauto;
    intros _; exists s; reflexivity.
Qed.

Lemma finite_amount_not_nan (x : float) : finite_amount x -> x <> S754_nan.
Proof. destruct x; cbn [finite_amount]; try tauto; discriminate. Qed.

Lemma has_sign_not_nan (s : bool) (x : float) : has_sign s x -> x <> S754_nan.
Proof. destruct x; cbn [has_sign]; try tauto; discriminate. Qed.

Lemma reserve_ok_round (x : float) : has_sign false x -> reserve_ok (pyround x 2).
Proof.
  intros H. split; [apply pyround_sign, H | apply pyround2_idem].
Qed.

(** A win of a finite amount adds to the reserve. *)
Lemma reserve_after_win (zb win : float) :
  reserve_ok zb -> finite_amount win -> fgt win f0 = true ->
  reserve_ok (pyround (fadd zb (fmul win ZERO_BUFFER_CONTRIBUTION_RATE)) 2).
Proof.
  intros [Hs _] Hf Hw. apply reserve_ok_round, fadd_nonneg; [exact Hs|].
  destruct win as [s|s| |s m e]; cbn [finite_amount] in Hf; try tauto.
  - destruct s; discriminate Hw.
  - destruct s; [discriminate Hw|].
    apply (fmul_class false false); [reflexivity | reflexivity | exact I].
Qed.

(** A loss on zero takes from the reserve no more than it holds. *)
Lemma reserve_after_zero_loss (zb bet : float) :
  reserve_ok zb -> finite_amount bet ->
  let comp := pyround (pymin (fmul bet ZERO_LOSS_COMPENSATION_RATE) zb) 2 in
  reserve_ok (pyround (fsub zb comp) 2).
Proof.
  intros [Hs Hfix] Hf comp. subst comp. apply reserve_ok_round.
  unfold ZERO_LOSS_COMPENSATION_RATE.
  pose proof (fmul_half_finite bet Hf) as Hp.
  set (p := fmul bet f0_50) in *.
  unfold pymin. destruct (flt zb p) eqn:Hlt.
  - rewrite Hfix. rewrite fsub_self; [reflexivity | exact Hs|].
    intros ->. rewrite flt_inf_left in Hlt. discriminate.
  - destruct (finite_amount_sign p Hp) as [sp Hsp].
    apply (fsub_nonneg zb (pyround p 2) sp Hs (pyround_sign sp p 2 Hsp)).
    destruct sp; [left; reflexivity | right].
    split; [|apply pyround2_finite; assumption].
    rewrite <- Hfix. apply pyround2_mono; [exact Hsp | exact Hs |].
    apply flt_false_fle; [eapply has_sign_not_nan, Hs | | exact Hlt].
    apply finite_amount_not_nan, Hp.
Qed.

Lemma reserve_step (rm : risk_monitor) (t : transition) :
  reserve_ok (zero_buffer rm) -> amounts_finite t ->
  reserve_ok (zero_buffer (apply_transition rm t)).
Proof.
  intros Hz [Hb Hw]. unfold apply_transition.
  destruct (fgt (t_win t) f0) eqn:E.
  - pose proof (update_state_win_fields rm (t_bet t) (t_win t) (t_zero t)
                  (t_bank t) E) as (_ & _ & ->).
    apply reserve_after_win; assumption.
  - pose proof (update_state_loss_fields rm (t_bet t) (t_win t) (t_zero t)
                  (t_bank t) E) as (_ & _ & ->).
    destruct (t_zero t); [|exact Hz].
    apply reserve_after_zero_loss; assumption.
Qed.

Lemma streak_step (rm : risk_monitor) (t : transition) :
  0 <= current_streak rm -> 0 <= current_streak (apply_transition rm t).
Proof.
  intros H. unfold apply_transition.
  destruct (fgt (t_win t) f0) eqn:E.
  - pose proof (update_state_win_fields rm (t_bet t) (t_win t) (t_zero t)
                  (t_bank t) E) as (_ & -> & _). lia.
  - pose proof (update_state_loss_fields rm (t_bet t) (t_win t) (t_zero t)
                  (t_bank t) E) as (-> & _ & _). lia.
Qed.

Lemma risk_invariant_reset (bank base : float) :
  risk_invariant [] (reset_state bank base).
Proof. repeat split; reflexivity. Qed.

Lemma risk_invariant_step (l : list transition) (rm : risk_monitor)
    (t : transition) :
  risk_invariant l rm -> risk_invariant (l ++ [t]) (apply_transition rm t).
Proof.
  intros (Hh & Hz & Hs).
  pose proof (update_state_window rm (t_bet t) (t_win t) (t_zero t) (t_bank t))
    as [Hw Hc]. cbv zeta in Hw, Hc. fold (apply_transition rm t) in Hw, Hc.
  split; [|split; [exact Hc | apply streak_step, Hs]].
  rewrite Hw, Hh. rewrite map_app. cbn [map].
  rewrite <- (length_map zero_flag l).
  fold (zero_flag t).
  pose proof (window_step (map zero_flag l) (zero_flag t)) as W.
  cbv zeta in W. rewrite W. rewrite !length_app, !length_map. reflexivity.
Qed.

Lemma risk_invariant_run (bank base : float) (l : list transition) :
  risk_invariant l (run_transitions (reset_state bank base) l).
Proof.
  induction l as [|t l IH] using rev_ind.
  - apply risk_invariant_reset.
  - unfold run_transitions. rewrite fold_left_app. cbn [fold_left].
    apply risk_invariant_step, IH.
Qed.

Lemma reserve_run (bank base : float) (l : list transition) :
  Forall amounts_finite l ->
  reserve_ok (zero_buffer (run_transitions (reset_state bank base) l)).
Proof.
  induction l as [|t l IH] using rev_ind; intros Hl.
  - split; reflexivity.
  - apply Forall_app in Hl as [Hl Ht]. apply Forall_cons in Ht as [Ht _].
    unfold run_transitions. rewrite fold_left_app. cbn [fold_left].
    apply reserve_step; [apply IH, Hl | exact Ht].
Qed.

(** C6 as amended.  From the state a reset leaves, after every sequence
    [l] of [update_state] transitions: the zero window holds the flags of
    the last [min(50, length l)] transitions, in order, so that its length
    is [min(50, length l)]; [z_count_last_50] is the sum of the flags in the
    window and lies in [[0, 50]]; the loss streak is not negative; and,
    when the stakes and the wins of the transitions are finite numbers, the
    reserve is not negative.  The stake, the win and the bank of a
    transition are arbitrary floats for the window, the count and the
    streak. *)
Theorem risk_state_invariant (bank base : float) (l : list transition) :
  let rm := run_transitions (reset_state bank base) l in
  let window := spin_history_for_zero_count rm in
  window = drop (length l - 50) (map zero_flag l)
  /\ Z.of_nat (length window) = Z.min 50 (Z.of_nat (length l))
  /\ z_count_last_50 rm = pysum window
  /\ 0 <= z_count_last_50 rm <= 50
  /\ 0 <= current_streak rm
  /\ (Forall amounts_finite l -> fge (zero_buffer rm) f0 = true).
Proof.
  intros rm window.
  destruct (risk_invariant_run bank base l) as (Hh & Hz & Hs).
  fold rm in Hh, Hz, Hs. fold window in Hh, Hz.
  assert (Hlen : Z.of_nat (length window) = Z.min 50 (Z.of_nat (length l))).
  { rewrite Hh, length_drop, length_map. lia. }
  assert (Hflags : Forall (fun x => x = 0 \/ x = 1) window).
  { rewrite Hh. apply Forall_drop, Forall_forall. intros x Hx.
    apply list_elem_of_fmap in Hx as (t & -> & _).
    unfold zero_flag. destruct (t_zero t); [right | left]; reflexivity. }
  pose proof (pysum_flags window Hflags) as Hsum.
  split; [exact Hh|]. split; [exact Hlen|]. split; [exact Hz|].
  split; [lia|]. split; [exact Hs|].
  intros Hl. apply has_sign_false_fge. apply (reserve_run bank base l Hl).
Qed.

Lemma risk_state_invariant_witness :
  let rm := run_transitions (reset_state (of_Z 1000) (of_Z 10)) win_then_zero in
  spin_history_for_zero_count rm = [0; 1]
  /\ z_count_last_50 rm = 1
  /\ current_streak rm = 1
  /\ zero_buffer rm = of_Z 5
  /\ fge (zero_buffer rm) f0 = true.
Proof.
  cbv zeta.
  split; [reflexivity|]. split; [reflexivity|]. split; [reflexivity|].
  split; [reflexivity|].
  apply (risk_state_invariant (of_Z 1000) (of_Z 10) win_then_zero).
  repeat constructor; vm_compute; discriminate.
Defined.

(** C6 fails as stated: [update_state] takes any floats.  A stake that is
    NaN, lost on zero from the state a reset leaves, makes the compensation
    [min(nan * 0.5, 0.0)] and with it the reserve NaN, which is not
    [>= 0]; so does an infinite win followed by an infinite stake lost on
    zero, where the reserve is [inf - inf].  The window, the count and the
    streak are as the claim says. *)
Lemma reserve_not_a_number :
  zero_buffer
    (run_transitions (reset_state (of_Z 1000) (of_Z 10)) nan_stake_on_zero)
  = S754_nan
  /\ fge (zero_buffer
            (run_transitions (reset_state (of_Z 1000) (of_Z 10))
               nan_stake_on_zero)) f0
     = false
  /\ zero_buffer
       (run_transitions (reset_state (of_Z 1000) (of_Z 10))
          infinite_win_then_stake)
     = S754_nan
  /\ fge (zero_buffer
            (run_transitions (reset_state (of_Z 1000) (of_Z 10))
               infinite_win_then_stake)) f0
     = false.
Proof. repeat split; vm_compute; reflexivity. Qed.

End Invariant.

(** ** The simulation driver *)

Section Division.
Import Float64.

Lemma div_core_nonneg (m1 m2 : positive) (e1 e2 : Z) :
  0 <= fst (fst (SFdiv_core_binary prec emax (Zpos m1) e1 (Zpos m2) e2)).
Proof.
  unfold SFdiv_core_binary.
  set (s := e1 - e2 - _).
  set (m' := match s with Zpos _ => Z.shiftl (Zpos m1) s | Z0 => Zpos m1
                        | Zneg _ => 0 end).
  assert (Hm : 0 <= m').
  { unfold m'. destruct s; [lia | | lia]. apply Z.shiftl_nonneg. lia. }
  pose proof (Z.div_pos m' (Zpos m2) Hm ltac:(lia)) as Hq.
  unfold Z.div in Hq. destruct (Z.div_eucl m' (Zpos m2)) as [q r].
  exact Hq.
Qed.

Lemma fdiv_class (sx sy : bool) (x : float) (my : positive) (ey : Z) :
  has_sign sx x -> has_sign (xorb sx sy) (fdiv x (S754_finite sy my ey)).
Proof.
  destruct x as [s1|s1| |s1 m1 e1]; cbn [has_sign fdiv SFdiv]; try tauto;
    intros ->; try reflexivity.
  pose proof (div_core_nonneg m1 my e1 ey) as H.
  destruct (SFdiv_core_binary prec emax (Zpos m1) e1 (Zpos my) ey) as [[mz ez] lz].
  cbn [fst] in H. apply (binary_round_aux_class _ mz ez lz H).
Qed.

End Division.

Section DriverFacts.
Import Float64 Simulator.
Variable wheel : nat -> Z.

Lemma update_state_flags (rm : RiskMonitor.risk_monitor) (bet win : float)
    (z : bool) (o : option float) :
  let rm' := RiskMonitor.update_state rm bet win z o in
  RiskMonitor.stop_conditions_met rm' =
  {| RiskMonitor.loss_streak_limit := 15 <=? RiskMonitor.current_streak rm';
     RiskMonitor.zero_count_limit := 4 <=? RiskMonitor.z_count_last_50 rm';
     RiskMonitor.drawdown_limit :=
       if fgt (RiskMonitor.initial_bank rm') f0 then
         fge (fdiv (fsub (RiskMonitor.initial_bank rm')
                         (RiskMonitor.current_bank rm'))
                   (RiskMonitor.initial_bank rm')) f0_20
       else if flt (RiskMonitor.current_bank rm') f0 then true else false |}.
Proof. reflexivity. Qed.

Lemma update_state_suggests_stop (rm : RiskMonitor.risk_monitor)
    (bet win : float) (z : bool) (o : option float) :
  let rm' := RiskMonitor.update_state rm bet win z o in
  stop_condition rm' ->
  RiskMonitor.is_stop_suggested rm' = true
  /\ (15 <= RiskMonitor.current_streak rm' ->
      RiskMonitor.loss_streak_limit (RiskMonitor.stop_conditions_met rm') = true)
  /\ (4 <= RiskMonitor.z_count_last_50 rm' ->
      RiskMonitor.zero_count_limit (RiskMonitor.stop_conditions_met rm') = true)
  /\ (fgt (RiskMonitor.initial_bank rm') f0 = true ->
      fge (fdiv (fsub (RiskMonitor.initial_bank rm')
                      (RiskMonitor.current_bank rm'))
                (RiskMonitor.initial_bank rm')) f0_20 = true ->
      RiskMonitor.drawdown_limit (RiskMonitor.stop_conditions_met rm') = true).
Proof.
  intros rm' Hstop. unfold RiskMonitor.is_stop_suggested.
  pose proof (update_state_flags rm bet win z o) as F.
  cbv zeta in F. fold rm' in F. rewrite F. clear F.
  cbn [RiskMonitor.loss_streak_limit RiskMonitor.zero_count_limit
       RiskMonitor.drawdown_limit].
  assert (A : 15 <= RiskMonitor.current_streak rm' ->
              (15 <=? RiskMonitor.current_streak rm') = true)
    by (intros; apply Z.leb_le; assumption).
  assert (B : 4 <= RiskMonitor.z_count_last_50 rm' ->
              (4 <=? RiskMonitor.z_count_last_50 rm') = true)
    by (intros; apply Z.leb_le; assumption).
  split; [|split; [exact A | split; [exact B |]]].
  - destruct Hstop as [H|[H|[H1 H2]]].
    + rewrite (A H). reflexivity.
    + rewrite (B H). apply orb_true_iff. left. apply orb_true_r.
    + rewrite H1, H2. apply orb_true_r.
  - intros H1 H2. rewrite H1. exact H2.
Qed.

(** Once the flags suggest a stop, an iteration leaves the loop at its
    first test: no number is drawn, no record is appended and the risk
    state is not touched. *)
Lemma loop_body_stops_before (k : Z) (s : simulator) (c : gmap Z Z) :
  RiskMonitor.is_stop_suggested (risk_monitor s) = true ->
  exists s', loop_body wheel k s c = Ok (s', c, Some StopBeforeBet)
             /\ bet_history s' = bet_history s
             /\ spin_history s' = spin_history s
             /\ risk_monitor s' = risk_monitor s.
Proof.
  intros H. unfold loop_body. cbn [with_stats risk_monitor]. rewrite H.
  eexists. split; [reflexivity|]. repeat split.
Qed.

Lemma skip_round_inv (k : Z) (s s' : simulator) :
  skip_round wheel k s = Ok s' ->
  (exists z, risk_monitor s' =
             RiskMonitor.update_state (risk_monitor s) f0 f0 z None)
  /\ round_without_stake s s'.
Proof.
  unfold skip_round. intros H.
  destruct (Analytics.get_number_properties _) as [p|]; [|discriminate].
  cbn [mbind result_bind] in H.
  destruct (risk_index_of _) as [ri|]; [|discriminate].
  cbn [mbind result_bind] in H.
  destruct (buffer_factor_of _) as [bf|]; [|discriminate].
  cbn [mbind result_bind] in H. injection H as <-.
  split; [eexists; reflexivity|].
  eexists. split; reflexivity.
Qed.

Lemma bet_round_inv (k : Z) (bet : float) (s s' : simulator)
    (e : option exit_reason) :
  bet_round wheel k bet s = Ok (s', e) ->
  exists win z,
    risk_monitor s' =
    RiskMonitor.update_state (risk_monitor s) bet win z (Some (current_bank s))
    /\ (RiskMonitor.is_stop_suggested (risk_monitor s') = true ->
        e = Some StopAfterBet).
Proof.
  unfold bet_round. intros H.
  destruct (place_bet_and_determine_outcome _ _) as [[win z]|]; [|discriminate].
  cbn [mbind result_bind] in H.
  destruct (risk_index_of _) as [ri|]; [|discriminate].
  cbn [mbind result_bind] in H.
  destruct (buffer_factor_of _) as [bf|]; [|discriminate].
  cbn [mbind result_bind] in H.
  exists win, z.
  destruct (RiskMonitor.is_stop_suggested _) eqn:Hs.
  - injection H as <- <-. split; [reflexivity|]. reflexivity.
  - destruct (fle _ f0); injection H as <- <-;
      (split; [reflexivity|]); cbn [risk_monitor]; rewrite Hs; discriminate.
Qed.

(** An iteration that gets past its first test applies exactly one
    transition to the risk state; when the flags then suggest a stop, it
    either leaves the loop at the check after the stake or was a round
    without stake. *)
Lemma loop_body_played (k : Z) (s s' : simulator) (c c' : gmap Z Z)
    (e : option exit_reason) :
  loop_body wheel k s c = Ok (s', c', e) ->
  e <> Some StopBeforeBet ->
  exists bet win z o,
    risk_monitor s' = RiskMonitor.update_state (risk_monitor s) bet win z o
    /\ (e = None
        \/ e = Some Bankrupt
        \/ e = Some StopAfterBet)
    /\ (RiskMonitor.is_stop_suggested (risk_monitor s') = true ->
        e = Some StopAfterBet \/ (e = None /\ round_without_stake s s')).
Proof.
  unfold loop_body. cbn [with_stats risk_monitor base_bet current_bank].
  intros H He.
  destruct (RiskMonitor.is_stop_suggested (risk_monitor s)).
  { injection H as <- <- <-. congruence. }
  destruct (Engine.calculate_bet _ _ _ _ _) as [[b c1]|]; [|discriminate].
  cbn [mbind result_bind] in H.
  destruct (fle _ f0).
  - destruct (skip_round _ _ _) as [s1|] eqn:Hs; [|discriminate].
    cbn [mbind result_bind] in H. injection H as <- <- <-.
    apply skip_round_inv in Hs. cbn [risk_monitor] in Hs.
    destruct Hs as ((z & Hs) & Hr).
    exists f0, f0, z, None. split; [exact Hs|]. split; [left; reflexivity|].
    intros _. right. split; [reflexivity | exact Hr].
  - destruct (bet_round _ _ _ _) as [[s1 e1]|] eqn:Hb; [|discriminate].
    cbn [mbind result_bind] in H. injection H as <- <- <-.
    pose proof Hb as Hb'. apply bet_round_inv in Hb'.
    cbn [risk_monitor current_bank] in Hb'.
    destruct Hb' as (win & z & Hrm & Hstop).
    eexists _, win, z, _. split; [exact Hrm|]. split.
    + unfold bet_round in Hb.
      destruct (place_bet_and_determine_outcome _ _) as [[w1 z1]|];
        [|discriminate].
      cbn [mbind result_bind] in Hb.
      destruct (risk_index_of _); [|discriminate].
      cbn [mbind result_bind] in Hb.
      destruct (buffer_factor_of _); [|discriminate].
      cbn [mbind result_bind] in Hb.
      destruct (RiskMonitor.is_stop_suggested _);
        [injection Hb as <- <-; right; right; reflexivity|].
      destruct (fle _ f0); injection Hb as <- <-;
        [right; left; reflexivity | left; reflexivity].
    + intros Hs. left. apply Hstop, Hs.
Qed.

(** C7 as amended.  Whenever, after the state transition of a round,
    [loss_streak >= 15], or [z_count_last_50 >= 4], or [(initial_bank -
    current_bank) / initial_bank >= 0.20] with [initial_bank > 0] holds,
    the corresponding stop flag is set and no further stake is placed: no
    further number is drawn, no further record is written and the risk
    state is left as that round left it.  The run ends at the next
    autostop check, which is the check after the stake of that round when
    a stake was placed, and the check before the stake of the next round
    when none was; when the round was one without stake and the last of
    the run ([n = 0] rounds remain), the loop ends without any autostop
    check and the run is left as completed, with the statistics of that
    round. *)
Theorem autostop_next_check (n : nat) (k : Z) (s s1 : simulator)
    (c c1 : gmap Z Z) (e : option exit_reason) :
  loop_body wheel k s c = Ok (s1, c1, e) ->
  e <> Some StopBeforeBet ->
  stop_condition (risk_monitor s1) ->
  let flags := RiskMonitor.stop_conditions_met (risk_monitor s1) in
  (15 <= RiskMonitor.current_streak (risk_monitor s1) ->
   RiskMonitor.loss_streak_limit flags = true)
  /\ (4 <= RiskMonitor.z_count_last_50 (risk_monitor s1) ->
      RiskMonitor.zero_count_limit flags = true)
  /\ (fgt (RiskMonitor.initial_bank (risk_monitor s1)) f0 = true ->
      fge (fdiv (fsub (RiskMonitor.initial_bank (risk_monitor s1))
                      (RiskMonitor.current_bank (risk_monitor s1)))
                (RiskMonitor.initial_bank (risk_monitor s1))) f0_20 = true ->
      RiskMonitor.drawdown_limit flags = true)
  /\ exists sf why,
       run_loop wheel (S n) k s c = Ok (sf, c1, why)
       /\ ((why = StopAfterBet /\ e = Some StopAfterBet /\ sf = s1)
           \/ (why = StopBeforeBet /\ e = None /\ n <> O
               /\ round_without_stake s s1)
           \/ (why = Completed /\ e = None /\ n = O
               /\ round_without_stake s s1 /\ sf = s1))
       /\ bet_history sf = bet_history s1
       /\ spin_history sf = spin_history s1
       /\ risk_monitor sf = risk_monitor s1.
Proof.
  intros Hbody He Hstop flags.
  destruct (loop_body_played k s s1 c c1 e Hbody He)
    as (bet & win & z & o & Hrm & _ & Hexit).
  pose proof Hstop as Hstop'. rewrite Hrm in Hstop'.
  destruct (update_state_suggests_stop _ bet win z o Hstop')
    as (Hsug & Hl & Hz & Hd).
  rewrite <- Hrm in Hsug, Hl, Hz, Hd.
  split; [exact Hl|]. split; [exact Hz|]. split; [exact Hd|].
  cbn [run_loop]. rewrite Hbody. cbn [mbind result_bind].
  destruct (Hexit Hsug) as [-> | [-> Hr]].
  - exists s1, StopAfterBet. split; [reflexivity|].
    split; [left; repeat split|]. repeat split.
  - destruct n as [|n].
    + exists s1, Completed. split; [reflexivity|].
      split; [right; right; repeat split; exact Hr|]. repeat split.
    + destruct (loop_body_stops_before (k + 1) s1 c1 Hsug)
        as (s2 & E2 & Hb & Hsp & Hr2).
      exists s2, StopBeforeBet. cbn [run_loop]. rewrite E2.
      split; [reflexivity|].
      split; [right; left; repeat split; [discriminate | exact Hr]|].
      split; [exact Hb|]. split; [exact Hsp | exact Hr2].
Qed.

End DriverFacts.

Section NoCheck.
Import Float64.
Import Simulator.

Lemma get_number_properties_ok (n : Z) :
  0 <= n <= 36 ->
  exists p, Analytics.get_number_properties n = Ok p
            /\ Analytics.is_zero p = bool_decide (n = 0).
Proof.
  intros Hn. unfold Analytics.get_number_properties.
  rewrite (bool_decide_eq_true_2 _ (proj2 (elem_of_ALL_NUMBERS n) Hn)).
  cbn [negb].
  destruct (bool_decide (n ≠ Analytics.ZERO_NUMBER));
    eexists; split; reflexivity.
Qed.

Lemma not_fle_f0_fgt (x : float) :
  fle x f0 = false -> x <> S754_nan -> fgt x f0 = true /\ has_sign false x.
Proof.
  destruct x as [[]|[]| |[] m e]; intros H N; try discriminate H;
    try congruence; split; reflexivity.
Qed.



Variable wheel : nat -> Z.



End NoCheck.

Section DriverRuns.
Import Float64 Simulator.

Lemma autostop_next_check_witness :
  exists s1 c1 sf why,
    loop_body zero_wheel 4 driver_after_three_zeros ∅
    = Ok (s1, c1, Some StopAfterBet)
    /\ 4 <= RiskMonitor.z_count_last_50 (risk_monitor s1)
    /\ RiskMonitor.zero_count_limit
         (RiskMonitor.stop_conditions_met (risk_monitor s1)) = true
    /\ run_loop zero_wheel 3 4 driver_after_three_zeros ∅ = Ok (sf, c1, why)
    /\ bet_history sf = bet_history s1
    /\ spin_history sf = spin_history s1.
Proof.
  eassert (H1 : loop_body zero_wheel 4 driver_after_three_zeros ∅
                = Ok (_, _, Some StopAfterBet))
    by (vm_compute; reflexivity).
  match type of H1 with
  | _ = Ok (?s1, _, _) =>
      assert (H3 : 4 <= RiskMonitor.z_count_last_50 (risk_monitor s1))
        by (vm_compute; discriminate)
  end.
  destruct (autostop_next_check zero_wheel 2 4 driver_after_three_zeros _ ∅
              _ _ H1 ltac:(discriminate) (or_intror (or_introl H3)))
    as (_ & Hz & _ & sf & why & Hrun & _ & Hb & Hs & _).
  eexists _, _, sf, why. split; [exact H1|]. split; [exact H3|].
  split; [exact (Hz H3)|]. split; [exact Hrun|]. split; [exact Hb | exact Hs].
Defined.

(** C7 fails as stated.  With no bank and no base stake every round is a
    round without stake; the wheel draws zero four times in a run of four
    rounds.  After the transition of round 4 the zero count is 4 and the
    flag is set, but the [continue] of the round skips the check after the
    stake and no round follows: the run makes no autostop check, ends as
    completed and counts no stop trigger. *)
Lemma last_round_without_check :
  exists s c,
    run_simulation zero_wheel 4 empty_handed_driver ∅ = Ok (s, c, Completed)
    /\ length (bet_history s) = 4%nat
    /\ 4 <= RiskMonitor.z_count_last_50 (risk_monitor s)
    /\ stop_condition (risk_monitor s)
    /\ RiskMonitor.zero_count_limit
         (RiskMonitor.stop_conditions_met (risk_monitor s)) = true
    /\ RiskMonitor.is_stop_suggested (risk_monitor s) = true
    /\ stop_triggers (stats s) = no_trigger.
Proof.
  eassert (H : run_simulation zero_wheel 4 empty_handed_driver ∅
               = Ok (_, _, Completed)) by (vm_compute; reflexivity).
  eexists _, _. split; [exact H|].
  split; [vm_compute; reflexivity|].
  assert (Hz : forall a b : Z, (a <=? b) = true -> a <= b)
    by (intros a b; apply Z.leb_le).
  split; [apply Hz; vm_compute; reflexivity|].
  split; [right; left; apply Hz; vm_compute; reflexivity|].
  split; [vm_compute; reflexivity|].
  split; vm_compute; reflexivity.
Qed.



(** C8 fails on the code.  With a bank of 1000 and a base stake of 10, the
    wheel draws 2 (black) and then 1 (red).  The loss of round 1 brings the
    streak to 1; round 2 stakes 9.38, computed from that streak, and wins;
    its record nevertheless stores [streak_before_bet = 0], the streak after
    the win. *)
Theorem record_streak_after_win :
  exists s1 c1 s2 c2 r,
    loop_body black_red_wheel 1 reference_driver ∅ = Ok (s1, c1, None)
    /\ RiskMonitor.current_streak (risk_monitor s1) = 1
    /\ loop_body black_red_wheel 2 s1 c1 = Ok (s2, c2, None)
    /\ last (bet_history s2) = Some r
    /\ Engine.calculate_bet (Engine.PyFloat (base_bet s1)) (Engine.PyInt 1) 0
         engine_frames c1
       = Ok (bet_amount r, c2)
    /\ bet_amount r = dec 938 100
    /\ fgt (bet_amount r) f0 = true
    /\ streak_before_bet r = 0.
Proof.
  eexists _, _, _, _, _.
  split; [vm_compute; reflexivity|].
  split; [vm_compute; reflexivity|].
  split; [vm_compute; reflexivity|].
  split; [vm_compute; reflexivity|].
  split; [vm_compute; reflexivity|].
  split; [vm_compute; reflexivity|].
  split; vm_compute; reflexivity.
Qed.

End DriverRuns.

(** * Further properties of the code *)

(** ** The engine: memoisation and sign of the stake *)

Section EngineMore.
Import Float64 Engine.

Lemma insert_memo (c : gmap Z Z) (n : nat) (w : Z) :
  c !! Z.of_nat n = None ->
  <[Z.of_nat n := w]> c !! Z.of_nat n = Some w
  /\ c ⊆ <[Z.of_nat n := w]> c
  /\ forall j : Z, <[Z.of_nat n := w]> c !! j <> c !! j ->
                   0 <= j <= Z.of_nat n.
Proof.
  intros Hl. split; [apply lookup_insert_eq|].
  split; [apply insert_subseteq, Hl|].
  intros j Hj. destruct (decide (Z.of_nat n = j)) as [<-|Hne]; [lia|].
  rewrite lookup_insert_ne in Hj by exact Hne. congruence.
Qed.

Lemma fib_rec_memo (frames : nat) :
  forall (n : nat) (c c' : gmap Z Z) (v : Z),
    fib_rec frames n c = Ok (v, c') ->
    c' !! Z.of_nat n = Some v
    /\ c ⊆ c'
    /\ forall j : Z, c' !! j <> c !! j -> 0 <= j <= Z.of_nat n.
Proof.
  induction frames as [|f IH]; intros n c c' v; rewrite fib_rec_unfold;
    (destruct (c !! Z.of_nat n) as [w|] eqn:Hl;
     [intros [= <- <-]; split; [exact Hl|]; split; [reflexivity|]; congruence
     |]);
    (destruct n as [|[|[|k]]];
     [intros [= <- <-]; apply insert_memo, Hl
     |intros [= <- <-]; apply insert_memo, Hl
     |intros [= <- <-]; apply insert_memo, Hl
     |]); [discriminate|].
  destruct (fib_rec f (S (S k)) c) as [[v1 c1]|e] eqn:E1; [|discriminate].
  destruct (IH _ _ _ _ E1) as (_ & S1 & D1).
  cbn [mbind result_bind].
  destruct (fib_rec f (S k) c1) as [[v2 c2]|e] eqn:E2; [|discriminate].
  destruct (IH _ _ _ _ E2) as (_ & S2 & D2).
  cbn [mbind result_bind]. intros [= <- <-].
  split; [apply lookup_insert_eq|]. split.
  - transitivity c2; [transitivity c1; assumption|].
    apply insert_subseteq.
    destruct (c2 !! Z.of_nat (S (S (S k)))) as [w|] eqn:E; [|reflexivity].
    exfalso.
    destruct (decide (c2 !! Z.of_nat (S (S (S k))) = c1 !! Z.of_nat (S (S (S k)))))
      as [E3|E3]; [|apply D2 in E3; lia].
    destruct (decide (c1 !! Z.of_nat (S (S (S k))) = c !! Z.of_nat (S (S (S k)))))
      as [E4|E4]; [|apply D1 in E4; lia].
    congruence.
  - intros j Hj.
    destruct (decide (Z.of_nat (S (S (S k))) = j)) as [<-|Hne]; [lia|].
    rewrite lookup_insert_ne in Hj by exact Hne.
    destruct (decide (c2 !! j = c1 !! j)) as [E3|E3]; [|apply D2 in E3; lia].
    destruct (decide (c1 !! j = c !! j)) as [E4|E4]; [|apply D1 in E4; lia].
    congruence.
Qed.

Lemma get_fib_for_streak_extends (k : Z) (frames : nat) (c c' : gmap Z Z)
    (v : Z) :
  get_fib_for_streak (PyInt k) frames c = Ok (v, c') -> c ⊆ c'.
Proof.
  unfold get_fib_for_streak. destruct (k <? 0); [discriminate|].
  intros E. exact (proj1 (proj2 (fib_rec_memo _ _ _ _ _ E))).
Qed.



Lemma buffer_factor_table (z : Z) : 0 <= z <= 50 -> buffer_factor_row z.
Proof.
  intros Hz.
  assert (H : Forall buffer_factor_row (seqZ 0 51)).
  { apply (bool_decide_unpack _). vm_compute. reflexivity. }
  rewrite Forall_forall in H. apply H, elem_of_seqZ. lia.
Qed.

Lemma risk_index_table (s : Z) : 0 <= s <= max_streak -> risk_index_row s.
Proof.
  intros Hs.
  assert (H : Forall risk_index_row (seqZ 0 (max_streak + 1))).
  { apply (bool_decide_unpack _). vm_compute. reflexivity. }
  rewrite Forall_forall in H. apply H, elem_of_seqZ. lia.
Qed.

Lemma all_finite_pos_fib (n : nat) :
  forall k : nat,
    all_finite_pos n (fib (S k)) (fib (S (S k))) = true ->
    forall i : nat, (i < n)%nat ->
                    is_finite_pos (of_Z (fib (S k + i))) = true.
Proof.
  induction n as [|n IH]; intros k H i Hi; [lia|].
  cbn [all_finite_pos] in H. apply andb_true_iff in H as [H1 H2].
  destruct i as [|i]; [rewrite Nat.add_0_r; exact H1|].
  replace (S k + S i)%nat with (S (S k) + i)%nat by lia.
  apply (IH (S k)); [|lia].
  rewrite fib_step, (Z.add_comm (fib (S (S k)))). exact H2.
Qed.

Lemma fib_float_table (s : Z) :
  0 <= s <= max_streak -> is_finite_pos (of_Z (fib (Z.to_nat s))) = true.
Proof.
  intros Hs.
  destruct (Z.to_nat s) as [|i] eqn:E; [reflexivity|].
  apply (all_finite_pos_fib (Z.to_nat max_streak) 0);
    [vm_compute; reflexivity|].
  unfold max_streak in *. lia.
Qed.

Lemma is_finite_pos_inv (x : float) :
  is_finite_pos x = true -> exists m e, x = S754_finite false m e.
Proof.
  destruct x as [| | |[] m e]; try discriminate. intros _. eauto.
Qed.

(** What [calculate_bet] returns on an [int] streak, when it returns. *)
Lemma calculate_bet_sound (base : pynum) (s z : Z) (frames : nat)
    (c c' : gmap Z Z) (v : float) :
  cache_ok c ->
  calculate_bet base (PyInt s) z frames c = Ok (v, c') ->
  pyround v 2 = v
  /\ c ⊆ c' /\ cache_ok c'
  /\ (base <> PyFloat S754_nan -> has_sign false v).
Proof.
  intros Hc.
  assert (Z0 : forall c0, c ⊆ c0 -> cache_ok c0 ->
             Ok (f0, c0) = Ok (v, c') ->
             pyround v 2 = v
             /\ c ⊆ c' /\ cache_ok c'
             /\ (base <> PyFloat S754_nan -> has_sign false v)).
  { intros c0 Hs0 H0 [= <- <-]. repeat split; try reflexivity; assumption. }
  destruct (pynum_nonpos base) eqn:Hb.
  { rewrite calculate_bet_guard by (left; exact Hb).
    apply Z0; [reflexivity | exact Hc]. }
  destruct (Z.ltb_spec s 0) as [Hneg|Hpos].
  { rewrite calculate_bet_guard
      by (right; left; cbn [pynum_neg]; apply Z.ltb_lt; exact Hneg).
    apply Z0; [reflexivity | exact Hc]. }
  destruct (decide (0 <= z <= 50)) as [Hz|Hz].
  2: { rewrite calculate_bet_guard by (right; right; lia).
       apply Z0; [reflexivity | exact Hc]. }
  rewrite calculate_bet_guards_pass by assumption.
  destruct (get_fib_for_streak (PyInt s) frames c) as [[fk c1]|e] eqn:E;
    [|discriminate].
  destruct (get_fib_for_streak_sound _ _ _ _ _ Hc E) as (_ & -> & Hc1).
  pose proof (get_fib_for_streak_extends _ _ _ _ _ E) as Hsub.
  cbn [mbind result_bind].
  destruct (zero_count_table z Hz) as [Ez _].
  rewrite Ez. cbn [mbind result_bind].
  destruct (fle (fsub f1 (fdiv (of_Z z) f50)) f0) eqn:Hbf.
  { apply Z0; assumption. }
  destruct (float_of_int s) as [sf|e] eqn:Es; [|discriminate].
  cbn [mbind result_bind].
  destruct (fle (fadd f1 (fdiv sf f15)) f0) eqn:Hri.
  { apply Z0; assumption. }
  destruct (pynum_mul_int base (fib (Z.to_nat s))) as [product|e] eqn:Ep;
    [|discriminate].
  cbn [mbind result_bind].
  destruct (pynum_to_float product) as [pf|e] eqn:Epf; [|discriminate].
  cbn [mbind result_bind]. intros Hv.
  assert (Ev : pyround (fdiv (fmul pf (fsub f1 (fdiv (of_Z z) f50)))
                          (fadd f1 (fdiv sf f15))) 2 = v) by congruence.
  assert (Ec : c1 = c') by congruence.
  clear Hv. subst v c'.
  split; [apply pyround2_idem|]. split; [assumption|]. split; [assumption|].
  intros Hn.
  pose proof (fib_pos (Z.to_nat s)) as [Hfib _].
  assert (Hx : s <= max_streak /\ has_sign false pf).
  { destruct base as [b|f]; cbn [pynum_mul_int pynum_nonpos] in Ep, Hb.
    - injection Ep as <-. cbn [pynum_to_float] in Epf.
      apply float_of_int_inv in Epf as [Hlt ->].
      apply Z.leb_gt in Hb. split.
      + apply (fib_converts_iff s Hpos). nia.
      + apply binary_normalize_nonneg. nia.
    - destruct (float_of_int (fib (Z.to_nat s))) as [fk|e] eqn:Ek;
        [|discriminate].
      apply float_of_int_inv in Ek as [Hlt ->].
      cbn [mbind result_bind] in Ep. injection Ep as <-.
      cbn [pynum_to_float] in Epf. injection Epf as <-.
      assert (Hmax : s <= max_streak)
        by (apply (fib_converts_iff s Hpos); lia).
      split; [exact Hmax|].
      assert (Hnf : f <> S754_nan) by congruence.
      destruct (not_fle_f0_fgt f Hb Hnf) as [_ Hsb].
      destruct (is_finite_pos_inv _ (fib_float_table s ltac:(lia)))
        as (mk & ek & ->).
      apply (fmul_class false false); [exact Hsb | reflexivity |].
      destruct f; exact I. }
  destruct Hx as [Hmax Hx].
  destruct (streak_table s ltac:(lia)) as (Es' & _ & _).
  rewrite Es' in Es. injection Es as <-.
  apply pyround_sign.
  destruct (is_finite_pos_inv _ (risk_index_table s ltac:(lia)))
    as (mr & er & ->).
  apply (fdiv_class false false).
  pose proof (buffer_factor_table z Hz) as Hfin. unfold buffer_factor_row in Hfin.
  assert (Hnn : fsub f1 (fdiv (of_Z z) f50) <> S754_nan).
  { intros Ebf. rewrite Ebf in Hfin. discriminate. }
  destruct (not_fle_f0_fgt _ Hbf Hnn) as [_ Hsf].
  apply (fmul_class false false); [exact Hx | exact Hsf |].
  destruct (fsub f1 (fdiv (of_Z z) f50)) as [[]|[]| |[] mb eb];
    try discriminate Hfin; try discriminate Hbf;
    destruct pf; exact I.
Qed.

(** [calculate_bet] returns on an [int] streak when the interpreter allows
    [streak - 2] calls inside [get_fib_for_streak] and the product
    converts. *)
Lemma calculate_bet_returns (base : pynum) (s z : Z) (frames : nat)
    (c : gmap Z Z) :
  cache_ok c -> within_limit s frames c ->
  (0 <= s -> product_converts base s) ->
  exists v c', calculate_bet base (PyInt s) z frames c = Ok (v, c').
Proof.
  intros Hc Hf Hp.
  destruct (pynum_nonpos base) eqn:Hb.
  { rewrite calculate_bet_guard by (left; exact Hb). eauto. }
  destruct (Z.ltb_spec s 0) as [Hneg|Hpos].
  { rewrite calculate_bet_guard
      by (right; left; cbn [pynum_neg]; apply Z.ltb_lt; exact Hneg).
    eauto. }
  destruct (decide (0 <= z <= 50)) as [Hz|Hz].
  2: { rewrite calculate_bet_guard by (right; right; lia). eauto. }
  specialize (Hp Hpos).
  pose proof (product_converts_bound base s Hb Hpos Hp) as Hmax.
  rewrite calculate_bet_guards_pass by assumption.
  destruct (get_fib_for_streak_ok s frames c Hpos Hf Hc) as (c1 & -> & _).
  cbn [mbind result_bind].
  destruct (zero_count_table z Hz) as [Ez _].
  destruct (streak_table s ltac:(lia)) as (Es & _ & Eri).
  rewrite Ez. cbn [mbind result_bind].
  destruct (fle (fsub f1 (fdiv (of_Z z) f50)) f0); [eauto|].
  rewrite Es. cbn [mbind result_bind]. rewrite Eri.
  destruct (stake_product_converts base s Hb Hpos Hp) as (pf & Epf).
  destruct (pynum_mul_int base (fib (Z.to_nat s))) as [product|e];
    [|discriminate Epf].
  cbn [mbind result_bind] in Epf |- *. rewrite Epf.
  cbn [mbind result_bind]. eauto.
Qed.


(** What [calculate_bet] returns on a [float] base and an [int] streak up
    to 1476 within the calls allowed, from a table it has built itself. *)
Lemma calculate_bet_value (base : float) (streak z : Z) (frames : nat)
    (c : gmap Z Z) :
  streak <= max_streak -> streak - 2 <= Z.of_nat frames -> cache_ok c ->
  exists v c',
    calculate_bet (PyFloat base) (PyInt streak) z frames c = Ok (v, c')
    /\ pyround v 2 = v
    /\ c ⊆ c' /\ cache_ok c'
    /\ (base <> S754_nan -> has_sign false v).
Proof.
  intros Hs Hf Hc.
  destruct (calculate_bet_returns (PyFloat base) streak z frames c Hc
              (or_intror Hf))
    as (v & c' & E).
  { intros Hpos. apply (fib_converts_iff streak Hpos). exact Hs. }
  destruct (calculate_bet_sound _ _ _ _ _ _ _ Hc E) as (H1 & H2 & H3 & H4).
  exists v, c'. split; [exact E|]. split; [exact H1|].
  split; [exact H2|]. split; [exact H3|].
  intros Hn. apply H4. congruence.
Qed.



End EngineMore.

(** ** The risk monitor: amounts, streak and the stop helper *)

Section RiskMonitorMore.
Import Float64 RiskMonitor.

Lemma update_state_bank_rounded (rm : risk_monitor) (bet win : float)
    (z : bool) (o : option float) :
  let rm' := update_state rm bet win z o in
  pyround (current_bank rm') 2 = current_bank rm'.
Proof.
  cbv zeta. destruct (fgt win f0) eqn:E.
  - pose proof (update_state_win_fields rm bet win z o E) as (-> & _).
    apply pyround2_idem.
  - pose proof (update_state_loss_fields rm bet win z o E) as (_ & -> & _).
    destruct z; apply pyround2_idem.
Qed.

Lemma update_state_reserve_rounded (rm : risk_monitor) (bet win : float)
    (z : bool) (o : option float) :
  pyround (zero_buffer rm) 2 = zero_buffer rm ->
  let rm' := update_state rm bet win z o in
  pyround (zero_buffer rm') 2 = zero_buffer rm'.
Proof.
  intros H. cbv zeta. destruct (fgt win f0) eqn:E.
  - pose proof (update_state_win_fields rm bet win z o E) as (_ & _ & ->).
    apply pyround2_idem.
  - pose proof (update_state_loss_fields rm bet win z o E) as (_ & _ & ->).
    destruct z; [apply pyround2_idem | exact H].
Qed.

(** X3.  Amounts in hundredths.  Whatever floats the stakes, the wins and the
    banks passed in are, after every transition the bank is a value that
    [round(., 2)] leaves as it is; from a reset, so is the reserve after
    every sequence of transitions. *)
Theorem amounts_in_hundredths (bank base : float) (l : list transition)
    (t : transition) :
  let rm := run_transitions (reset_state bank base) l in
  pyround (zero_buffer rm) 2 = zero_buffer rm
  /\ pyround (current_bank (apply_transition rm t)) 2
     = current_bank (apply_transition rm t).
Proof.
  cbv zeta. split; [|apply update_state_bank_rounded].
  induction l as [|t' l IH] using rev_ind; [reflexivity|].
  unfold run_transitions. rewrite fold_left_app. cbn [fold_left].
  apply update_state_reserve_rounded, IH.
Qed.

Lemma streak_after_losses (rm : risk_monitor) (l : list transition) :
  Forall (fun t => is_win t = false) l ->
  current_streak (run_transitions rm l)
  = current_streak rm + Z.of_nat (length l).
Proof.
  induction l as [|t l IH] using rev_ind; intros H.
  - cbn. lia.
  - apply Forall_app in H as [H Ht]. apply Forall_cons in Ht as [Ht _].
    unfold run_transitions. rewrite fold_left_app. cbn [fold_left].
    fold (run_transitions rm l). unfold apply_transition at 1.
    pose proof (update_state_loss_fields (run_transitions rm l) (t_bet t)
                  (t_win t) (t_zero t) (t_bank t) Ht) as (-> & _).
    rewrite (IH H), length_app. cbn [length]. lia.
Qed.

(** X4.  The loss streak counts the transitions since the last win.  After a
    sequence of transitions that ends with a win followed by [n] transitions
    without win, the streak is [n], whatever the state before; from a reset,
    after [n] transitions without any win, it is [n]. *)
Theorem streak_counts_since_last_win (rm : risk_monitor) (bank base : float)
    (before after : list transition) (w : transition) :
  Forall (fun t => is_win t = false) after ->
  (is_win w = true ->
   current_streak (run_transitions rm (before ++ w :: after))
   = Z.of_nat (length after))
  /\ current_streak (run_transitions (reset_state bank base) after)
     = Z.of_nat (length after).
Proof.
  intros Ha. split.
  - intros Hw. unfold run_transitions.
    rewrite fold_left_app. cbn [fold_left].
    set (rm0 := fold_left apply_transition before rm).
    fold (run_transitions (apply_transition rm0 w) after).
    rewrite (streak_after_losses _ after Ha).
    unfold apply_transition.
    pose proof (update_state_win_fields rm0 (t_bet w) (t_win w) (t_zero w)
                  (t_bank w) Hw) as (_ & -> & _). lia.
  - rewrite (streak_after_losses _ after Ha). cbn. lia.
Qed.

Lemma streak_counts_since_last_win_witness :
  current_streak
     (run_transitions (reset_state (of_Z 1000) (of_Z 10)) win_then_zero)
  = 1.
Proof.
  refine (proj1 (streak_counts_since_last_win
                   (reset_state (of_Z 1000) (of_Z 10)) f0 f0 []
                   (tail win_then_zero)
                   {| t_bet := of_Z 10; t_win := of_Z 200; t_zero := false;
                      t_bank := Some (of_Z 1000) |} _) _).
  - repeat constructor.
  - reflexivity.
Defined.

(** X5.  The helper and the method agree.  On the streak, the zero count and the
    two banks of a risk state, [check_autostop_conditions_func] returns one
    reason for each flag that [check_stop_conditions] sets, in the order
    streak, zero count, bank; it returns no reason exactly when the method
    suggests no stop.  The same holds on the state that [update_state]
    leaves, with the flags it has left. *)
Theorem check_autostop_conditions_func_agrees (rm : risk_monitor) :
  let reasons :=
    check_autostop_conditions_func (current_streak rm) (z_count_last_50 rm)
      (initial_bank rm) (current_bank rm) in
  reasons =
  reasons_of_flags (stop_conditions_met (check_stop_conditions rm))
    (current_streak rm) (z_count_last_50 rm) (initial_bank rm)
    (current_bank rm)
  /\ (reasons = [] <-> is_stop_suggested (check_stop_conditions rm) = false)
  /\ forall (bet win : float) (z : bool) (o : option float),
       let rm' := update_state rm bet win z o in
       check_autostop_conditions_func (current_streak rm')
         (z_count_last_50 rm') (initial_bank rm') (current_bank rm') = []
       <-> is_stop_suggested rm' = false.
Proof.
  assert (G : forall rm0,
             check_autostop_conditions_func (current_streak rm0)
               (z_count_last_50 rm0) (initial_bank rm0) (current_bank rm0)
             = reasons_of_flags (stop_conditions_met (check_stop_conditions rm0))
                 (current_streak rm0) (z_count_last_50 rm0) (initial_bank rm0)
                 (current_bank rm0)
             /\ (check_autostop_conditions_func (current_streak rm0)
                   (z_count_last_50 rm0) (initial_bank rm0) (current_bank rm0)
                 = []
                 <-> is_stop_suggested (check_stop_conditions rm0) = false)).
  { intros rm0.
    unfold check_autostop_conditions_func, reasons_of_flags,
      is_stop_suggested, check_stop_conditions.
    cbn [stop_conditions_met set_flags loss_streak_limit zero_count_limit
         drawdown_limit].
    unfold DRAWDOWN_LIMIT_PERCENTAGE.
    destruct (MAX_CONSECUTIVE_LOSSES_LIMIT <=? current_streak rm0),
      (MAX_ZEROS_IN_50_SPINS_LIMIT <=? z_count_last_50 rm0),
      (fgt (initial_bank rm0) f0);
      try destruct (fge _ f0_20); try destruct (flt (current_bank rm0) f0);
      cbn [app orb]; (split; [reflexivity|]); split; congruence. }
  cbv zeta. split; [apply G|]. split; [apply G|].
  intros bet win z o.
  set (rm' := update_state rm bet win z o).
  destruct (G rm') as [_ ->].
  replace (is_stop_suggested (check_stop_conditions rm'))
    with (is_stop_suggested rm'); [reflexivity|].
  unfold rm', update_state. destruct o, (fgt win f0), z; reflexivity.
Qed.

End RiskMonitorMore.

(** ** The tables of the wheel *)

Section AnalyticsMore.
Import Float64 Analytics.

Lemma properties_table (n : Z) :
  1 <= n <= 36 ->
  get_number_properties n = Ok (properties_by_arithmetic n) /\ tables_agree n.
Proof.
  intros H.
  assert (A : Forall (fun n => get_number_properties n
                               = Ok (properties_by_arithmetic n)
                               /\ tables_agree n) (seqZ 1 36)).
  { apply (bool_decide_unpack _). vm_compute. reflexivity. }
  rewrite Forall_forall in A. apply A, roulette_number_cases, H.
Qed.

(** X6.  The properties of a number by arithmetic.  For every [n] of [1..36],
    [get_number_properties] returns the number itself, the dozen
    [(n-1) // 12 + 1], the column [(n-1) % 3 + 1], the parity of [n] and
    ["low"] exactly when [n <= 18]. *)
Theorem get_number_properties_arithmetic (n : Z) :
  1 <= n <= 36 ->
  exists p,
    get_number_properties n = Ok p
    /\ number p = n
    /\ dozen p = Some ((n - 1) / 12 + 1)
    /\ column p = Some ((n - 1) `mod` 3 + 1)
    /\ parity p = Some (if Z.even n then "even"%string else "odd"%string)
    /\ range p = Some (if n <=? 18 then "low"%string else "high"%string).
Proof.
  intros H. destruct (properties_table n H) as [E _].
  exists (properties_by_arithmetic n). split; [exact E|]. repeat split.
Qed.

Lemma get_number_properties_arithmetic_witness :
  exists p,
    get_number_properties 25 = Ok p
    /\ number p = 25
    /\ dozen p = Some 3
    /\ column p = Some 1
    /\ parity p = Some "odd"%string
    /\ range p = Some "high"%string.
Proof. apply (get_number_properties_arithmetic 25). lia. Defined.

Lemma pick_left (b : bool) (x y : string) :
  x <> y -> Some (if b then x else y) = Some x <-> b = true.
Proof. destruct b; split; congruence. Qed.

Lemma pick_right (b : bool) (x y : string) :
  x <> y -> Some (if b then x else y) = Some y <-> b = false.
Proof. destruct b; split; congruence. Qed.

(** X7.  The tables that are not read.  [get_number_properties] takes the
    colour, the parity and the half of a number from [RED_NUMBERS],
    [EVEN_NUMBERS] and [LOW_NUMBERS] alone; for every [n] of [1..36] its
    answer is ["black"], ["odd"], ["high"] exactly when [n] is in
    [BLACK_NUMBERS], [ODD_NUMBERS], [HIGH_NUMBERS], and 0 is in none of the
    six tables. *)
Theorem unread_tables_agree (n : Z) :
  (1 <= n <= 36 ->
   exists p,
     get_number_properties n = Ok p
     /\ (color p = Some "black"%string <-> n ∈ BLACK_NUMBERS)
     /\ (color p = Some "red"%string <-> n ∈ RED_NUMBERS)
     /\ (parity p = Some "odd"%string <-> n ∈ ODD_NUMBERS)
     /\ (parity p = Some "even"%string <-> n ∈ EVEN_NUMBERS)
     /\ (range p = Some "high"%string <-> n ∈ HIGH_NUMBERS)
     /\ (range p = Some "low"%string <-> n ∈ LOW_NUMBERS))
  /\ 0 ∉ RED_NUMBERS ∪ BLACK_NUMBERS ∪ EVEN_NUMBERS ∪ ODD_NUMBERS
         ∪ LOW_NUMBERS ∪ HIGH_NUMBERS.
Proof.
  split.
  - intros H. destruct (properties_table n H) as [E (Hc & Hp & Hr & He & Hl)].
    exists (properties_by_arithmetic n). split; [exact E|].
    cbn [properties_by_arithmetic color parity range].
    rewrite !pick_left, !pick_right by discriminate.
    rewrite bool_decide_eq_true, bool_decide_eq_false.
    split; [reflexivity|].
    split; [destruct (decide (n ∈ RED_NUMBERS)); tauto|].
    split; [rewrite Hp, He; destruct (Z.even n); split; congruence|].
    split; [symmetry; exact He|].
    rewrite Hr, Hl, Z.leb_gt, Z.leb_le. split; [lia|reflexivity].
  - apply (bool_decide_unpack _). vm_compute. reflexivity.
Qed.

Lemma unread_tables_agree_witness :
  exists p,
    get_number_properties 17 = Ok p
    /\ (color p = Some "black"%string <-> 17 ∈ BLACK_NUMBERS)
    /\ (color p = Some "red"%string <-> 17 ∈ RED_NUMBERS)
    /\ (parity p = Some "odd"%string <-> 17 ∈ ODD_NUMBERS)
    /\ (parity p = Some "even"%string <-> 17 ∈ EVEN_NUMBERS)
    /\ (range p = Some "high"%string <-> 17 ∈ HIGH_NUMBERS)
    /\ (range p = Some "low"%string <-> 17 ∈ LOW_NUMBERS).
Proof. apply (proj1 (unread_tables_agree 17)). lia. Defined.

End AnalyticsMore.

(** ** The streak without an event *)

Section StreakMore.
Import Float64 Analytics.

Lemma non_event_loop_quiet (event : number_properties -> bool)
    (l rest : list Z) :
  Forall (quiet event) l ->
  forall k, non_event_loop (l ++ rest) event k
            = non_event_loop rest event (k + Z.of_nat (length l)).
Proof.
  induction 1 as [|n l (p & Ep & Hp) _ IH]; intros k.
  - cbn. f_equal. lia.
  - cbn [app non_event_loop length]. rewrite Ep. cbn [mbind result_bind].
    rewrite Hp, IH. f_equal. lia.
Qed.

Lemma get_number_properties_invalid (n : Z) :
  ~ 0 <= n <= 36 -> get_number_properties n = Raise ValueError.
Proof.
  intros H. unfold get_number_properties.
  rewrite bool_decide_eq_false_2; [reflexivity|].
  rewrite elem_of_ALL_NUMBERS. exact H.
Qed.

(** X8.  The streak without an event.  The numbers are read from the end of the
    history up to the last one on which the event happened or which is not
    a number of the wheel.  When the [k] last numbers are numbers of the
    wheel without the event, the answer is [k] if they are the whole
    history or if the number before them has the event, and [ValueError] is
    raised if the number before them is not one of the wheel; the numbers
    further back are not read, whatever they are. *)
Theorem calculate_non_event_streak_spec (event : number_properties -> bool)
    (before after : list Z) (x : Z) :
  Forall (quiet event) after ->
  calculate_non_event_streak after event = Ok (Z.of_nat (length after))
  /\ (happens event x ->
      calculate_non_event_streak (before ++ x :: after) event
      = Ok (Z.of_nat (length after)))
  /\ (~ 0 <= x <= 36 ->
      calculate_non_event_streak (before ++ x :: after) event
      = Raise ValueError).
Proof.
  intros Ha. unfold calculate_non_event_streak.
  assert (Hr : Forall (quiet event) (reverse after))
    by (apply Forall_reverse, Ha).
  split; [|split].
  - rewrite <- (app_nil_r (reverse after)).
    rewrite (non_event_loop_quiet event _ [] Hr 0), length_reverse.
    reflexivity.
  - intros (p & Ep & Hp).
    rewrite reverse_app, reverse_cons, <- app_assoc.
    rewrite (non_event_loop_quiet event _ _ Hr 0), length_reverse.
    cbn [app non_event_loop]. rewrite Ep. cbn [mbind result_bind].
    rewrite Hp. reflexivity.
  - intros Hx.
    rewrite reverse_app, reverse_cons, <- app_assoc.
    rewrite (non_event_loop_quiet event _ _ Hr 0), length_reverse.
    cbn [app non_event_loop].
    rewrite (get_number_properties_invalid x Hx). reflexivity.
Qed.

Lemma calculate_non_event_streak_spec_witness :
  calculate_non_event_streak [5; 23; 33] zero_event = Ok 3
  /\ calculate_non_event_streak ([99; 19] ++ 0 :: [5; 23; 33]) zero_event
     = Ok 3
  /\ calculate_non_event_streak ([0; 19] ++ 99 :: [5; 23; 33]) zero_event
     = Raise ValueError.
Proof.
  assert (Ha : Forall (quiet zero_event) [5; 23; 33]).
  { repeat constructor; eexists; (split; [vm_compute; reflexivity|]);
      reflexivity. }
  split; [|split].
  - apply (proj1 (calculate_non_event_streak_spec zero_event [] [5; 23; 33] 0 Ha)).
  - apply (proj1 (proj2 (calculate_non_event_streak_spec zero_event [99; 19]
                           [5; 23; 33] 0 Ha))).
    eexists. split; [vm_compute; reflexivity | reflexivity].
  - apply (proj2 (proj2 (calculate_non_event_streak_spec zero_event [0; 19]
                           [5; 23; 33] 99 Ha))).
    lia.
Defined.

End StreakMore.

(** ** The distribution over the zones *)

Section DistributionMore.
Import Float64 Analytics.

Lemma occurrences_snoc {K : Type} `{EqDecision K}
    (sel : number_properties -> option K) (k : K) (l : list Z) (n : Z) :
  occurrences sel k (l ++ [n])
  = occurrences sel k l
    + (if decide (property_of sel n = Some k) then 1 else 0).
Proof.
  unfold occurrences. rewrite filter_app, length_app.
  rewrite filter_cons, filter_nil.
  destruct (decide (property_of sel n = Some k)); cbn [length]; lia.
Qed.

Lemma occurrences_nonneg {K : Type} `{EqDecision K}
    (sel : number_properties -> option K) (k : K) (l : list Z) :
  0 <= occurrences sel k l.
Proof. unfold occurrences. lia. Qed.

Lemma counts_of_empty {K : Type} `{Countable K}
    (sel : number_properties -> option K) :
  counts_of (∅ : gmap K Z) sel [].
Proof. intros k. rewrite lookup_empty. reflexivity. Qed.

Lemma counts_of_skip {K : Type} `{Countable K} (c : gmap K Z)
    (sel : number_properties -> option K) (l : list Z) (n : Z) :
  counts_of c sel l -> property_of sel n = None ->
  counts_of c sel (l ++ [n]).
Proof.
  intros Hc Hn k. rewrite occurrences_snoc, Hn.
  destruct (decide (None = Some k)); [discriminate|].
  rewrite Z.add_0_r. apply Hc.
Qed.

Lemma counts_of_incr {K : Type} `{Countable K} (c : gmap K Z)
    (sel : number_properties -> option K) (l : list Z) (n : Z) (v : K) :
  counts_of c sel l -> property_of sel n = Some v ->
  counts_of (counter_incr v c) sel (l ++ [n]).
Proof.
  intros Hc Hn k. rewrite occurrences_snoc, Hn. unfold counter_incr.
  pose proof (occurrences_nonneg sel k l) as Hk.
  destruct (decide (v = k)) as [->|Hne].
  - rewrite lookup_insert_eq, (Hc k).
    destruct (decide (Some k = Some k)); [|congruence].
    destruct (Z.eqb_spec (occurrences sel k l) 0) as [E|E].
    + rewrite E. reflexivity.
    + destruct (Z.eqb_spec (occurrences sel k l + 1) 0); [lia|].
      reflexivity.
  - rewrite lookup_insert_ne by exact Hne.
    destruct (decide (Some v = Some k)); [congruence|].
    rewrite Z.add_0_r. apply Hc.
Qed.

Lemma counts_of_count_int (c : gmap Z Z)
    (sel : number_properties -> option Z) (l : list Z) (n : Z)
    (p : number_properties) :
  get_number_properties n = Ok p -> sel p <> Some 0 ->
  counts_of c sel l -> counts_of (count_int (sel p) c) sel (l ++ [n]).
Proof.
  intros Ep Hz Hc.
  assert (Hn : property_of sel n = sel p) by (unfold property_of; rewrite Ep; reflexivity).
  unfold count_int. destruct (sel p) as [v|] eqn:E.
  - rewrite bool_decide_eq_true_2 by congruence.
    apply counts_of_incr; assumption.
  - apply counts_of_skip; assumption.
Qed.

Lemma counts_of_count_str (c : gmap string Z)
    (sel : number_properties -> option string) (l : list Z) (n : Z)
    (p : number_properties) :
  get_number_properties n = Ok p -> sel p <> Some ""%string ->
  counts_of c sel l -> counts_of (count_str (sel p) c) sel (l ++ [n]).
Proof.
  intros Ep Hz Hc.
  assert (Hn : property_of sel n = sel p) by (unfold property_of; rewrite Ep; reflexivity).
  unfold count_str. destruct (sel p) as [v|] eqn:E.
  - rewrite bool_decide_eq_true_2 by congruence.
    apply counts_of_incr; assumption.
  - apply counts_of_skip; assumption.
Qed.

(** No property of a number of the wheel is [0] or the empty string. *)
Lemma properties_truthy (n : Z) (p : number_properties) :
  get_number_properties n = Ok p ->
  dozen p <> Some 0 /\ column p <> Some 0 /\ color p <> Some ""%string
  /\ parity p <> Some ""%string /\ range p <> Some ""%string.
Proof.
  intros E.
  destruct (decide (1 <= n <= 36)) as [Hn|Hn].
  - destruct (properties_table n Hn) as [E' _]. rewrite E in E'.
    injection E' as ->.
    cbn [properties_by_arithmetic dozen column color parity range].
    pose proof (Z.div_pos (n - 1) 12 ltac:(lia) ltac:(lia)).
    pose proof (Z.mod_pos_bound (n - 1) 3 ltac:(lia)).
    split; [intros [=]; lia|]. split; [intros [=]; lia|].
    destruct (bool_decide _), (Z.even n), (n <=? 18); repeat split; discriminate.
  - destruct (decide (n = 0)) as [->|Hne].
    + vm_compute in E. injection E as <-. repeat split; discriminate.
    + rewrite get_number_properties_invalid in E by lia. discriminate.
Qed.

Lemma count_spins_counts (rest : list Z) :
  forall (seen : list Z) (d : zone_distribution),
    Forall on_wheel rest ->
    counts_of (dozens d) dozen seen -> counts_of (columns d) column seen ->
    counts_of (colors d) color seen ->
    counts_of (parity_counts d) parity seen ->
    counts_of (ranges d) range seen ->
    exists d',
      count_spins rest d = Ok d'
      /\ total_spins_analyzed d' = total_spins_analyzed d
      /\ counts_of (dozens d') dozen (seen ++ rest)
      /\ counts_of (columns d') column (seen ++ rest)
      /\ counts_of (colors d') color (seen ++ rest)
      /\ counts_of (parity_counts d') parity (seen ++ rest)
      /\ counts_of (ranges d') range (seen ++ rest).
Proof.
  induction rest as [|n rest IH]; intros seen d Hv H1 H2 H3 H4 H5.
  - exists d. rewrite app_nil_r. repeat split; assumption.
  - apply Forall_cons in Hv as [Hn Hv].
    destruct (get_number_properties_ok n Hn) as (p & Ep & _).
    destruct (properties_truthy n p Ep) as (T1 & T2 & T3 & T4 & T5).
    cbn [count_spins]. rewrite Ep. cbn [mbind result_bind].
    destruct (IH (seen ++ [n]) (count_spin p d) Hv) as (d' & E & Ht & R);
      try (cbn [count_spin dozens columns colors parity_counts ranges];
           first [apply counts_of_count_int | apply counts_of_count_str];
           assumption).
    exists d'. rewrite <- app_assoc in R. cbn [app] in R.
    split; [exact E|]. split; [exact Ht | exact R].
Qed.

Lemma analyze_zone_distribution_counts_aux (history : list Z)
    (last_n_spins : option Z) :
  Forall on_wheel (relevant_history history last_n_spins) ->
  exists d,
    analyze_zone_distribution history last_n_spins = Ok d
    /\ total_spins_analyzed d
       = Z.of_nat (length (relevant_history history last_n_spins))
    /\ counts_of (dozens d) dozen (relevant_history history last_n_spins)
    /\ counts_of (columns d) column (relevant_history history last_n_spins)
    /\ counts_of (colors d) color (relevant_history history last_n_spins)
    /\ counts_of (parity_counts d) parity
         (relevant_history history last_n_spins)
    /\ counts_of (ranges d) range (relevant_history history last_n_spins).
Proof.
  intros Hv. unfold analyze_zone_distribution.
  exact (count_spins_counts (relevant_history history last_n_spins) []
           {| dozens := ∅; columns := ∅; colors := ∅; parity_counts := ∅;
              ranges := ∅;
              total_spins_analyzed :=
                Z.of_nat (length (relevant_history history last_n_spins)) |}
           Hv (counts_of_empty dozen) (counts_of_empty column)
           (counts_of_empty color) (counts_of_empty parity)
           (counts_of_empty range)).
Qed.

(** X9.  The counters of the distribution.  When the numbers of the window are
    numbers of the wheel, [analyze_zone_distribution] returns; each of its
    five counters holds, for every value that some number of the window
    has, how many numbers have it, and has no key for a value that no
    number has; [total_spins_analyzed] is the length of the window. *)
Theorem analyze_zone_distribution_counts (history : list Z)
    (last_n_spins : option Z) :
  let window := relevant_history history last_n_spins in
  Forall on_wheel window ->
  exists d,
    analyze_zone_distribution history last_n_spins = Ok d
    /\ total_spins_analyzed d = Z.of_nat (length window)
    /\ counts_of (dozens d) dozen window
    /\ counts_of (columns d) column window
    /\ counts_of (colors d) color window
    /\ counts_of (parity_counts d) parity window
    /\ counts_of (ranges d) range window.
Proof.
  intros window Hv. exact (analyze_zone_distribution_counts_aux _ _ Hv).
Qed.

Lemma analyze_zone_distribution_counts_witness :
  exists d,
    analyze_zone_distribution [99; 0; 5; 23; 33] (Some 4) = Ok d
    /\ total_spins_analyzed d = 4
    /\ counts_of (dozens d) dozen [0; 5; 23; 33]
    /\ counts_of (columns d) column [0; 5; 23; 33]
    /\ counts_of (colors d) color [0; 5; 23; 33]
    /\ counts_of (parity_counts d) parity [0; 5; 23; 33]
    /\ counts_of (ranges d) range [0; 5; 23; 33].
Proof.
  apply (analyze_zone_distribution_counts [99; 0; 5; 23; 33] (Some 4)).
  repeat constructor; unfold on_wheel; lia.
Defined.

Lemma count_spins_invalid (l : list Z) :
  forall d, Exists (fun n => ~ on_wheel n) l ->
            count_spins l d = Raise ValueError.
Proof.
  induction l as [|n l IH]; intros d H; [inversion H|].
  cbn [count_spins].
  destruct (decide (on_wheel n)) as [Hn|Hn].
  - destruct (get_number_properties_ok n Hn) as (p & -> & _).
    cbn [mbind result_bind]. apply IH.
    apply Exists_cons in H as [H|H]; [contradiction | exact H].
  - rewrite (get_number_properties_invalid n Hn). reflexivity.
Qed.

(** X10.  The window of the distribution.  The window is the end of the history:
    its last [last_n_spins] numbers when that is given and positive (the
    whole history if it is shorter), the whole history otherwise.
    [ValueError] is raised exactly when a number of the window is not one of
    the wheel; the numbers before the window are not read. *)
Theorem analyze_zone_distribution_window (history : list Z)
    (last_n_spins : option Z) :
  let window := relevant_history history last_n_spins in
  (exists older, history = older ++ window)
  /\ Z.of_nat (length window)
     = match last_n_spins with
       | Some n => if 0 <? n then Z.min n (Z.of_nat (length history))
                   else Z.of_nat (length history)
       | None => Z.of_nat (length history)
       end
  /\ (analyze_zone_distribution history last_n_spins = Raise ValueError
      <-> exists x, x ∈ window /\ ~ on_wheel x).
Proof.
  intros window. split; [|split].
  - unfold window, relevant_history.
    destruct last_n_spins as [n|]; [|exists []; reflexivity].
    destruct (0 <? n); [|exists []; reflexivity].
    exists (take (length history - Z.to_nat n) history).
    symmetry. apply take_drop.
  - unfold window, relevant_history.
    destruct last_n_spins as [n|]; [|reflexivity].
    destruct (Z.ltb_spec 0 n); [|reflexivity].
    rewrite length_drop. lia.
  - split.
    + intros E. destruct (decide (Forall on_wheel window)) as [Hv|Hv].
      * destruct (analyze_zone_distribution_counts_aux history last_n_spins Hv)
          as (d & E' & _).
        rewrite E in E'. discriminate.
      * apply not_Forall_Exists in Hv; [|apply _].
        apply Exists_exists in Hv as (x & Hx & Hn). exists x. split; assumption.
    + intros (x & Hx & Hn). unfold analyze_zone_distribution. fold window.
      apply count_spins_invalid. apply Exists_exists. exists x.
      split; assumption.
Qed.

Lemma one_of_each_table (n : Z) : on_wheel n -> one_of_each n.
Proof.
  intros H.
  assert (A : Forall one_of_each (seqZ 0 37)).
  { apply (bool_decide_unpack _). vm_compute. reflexivity. }
  rewrite Forall_forall in A. apply A, elem_of_seqZ. unfold on_wheel in H. lia.
Qed.

Lemma occurrences_cons {K : Type} `{EqDecision K}
    (sel : number_properties -> option K) (k : K) (l : list Z) (n : Z) :
  occurrences sel k (n :: l) = hit sel k n + occurrences sel k l.
Proof.
  unfold occurrences, hit. rewrite filter_cons.
  destruct (decide (property_of sel n = Some k)); cbn [length]; lia.
Qed.

Lemma zeros_cons (l : list Z) (n : Z) :
  zeros (n :: l) = (if decide (n = 0) then 1 else 0) + zeros l.
Proof.
  unfold zeros. rewrite filter_cons.
  destruct (decide (n = 0)); cbn [length]; lia.
Qed.

Lemma occurrences_total (l : list Z) :
  Forall on_wheel l ->
  let total := Z.of_nat (length l) in
  occurrences color "red"%string l + occurrences color "black"%string l
  + zeros l = total
  /\ occurrences parity "even"%string l + occurrences parity "odd"%string l
     + zeros l = total
  /\ occurrences range "low"%string l + occurrences range "high"%string l
     + zeros l = total
  /\ occurrences dozen 1 l + occurrences dozen 2 l + occurrences dozen 3 l
     + zeros l = total
  /\ occurrences column 1 l + occurrences column 2 l + occurrences column 3 l
     + zeros l = total.
Proof.
  induction 1 as [|n l Hn _ IH]; [repeat split|].
  cbv zeta in *. destruct IH as (I1 & I2 & I3 & I4 & I5).
  destruct (one_of_each_table n Hn) as (O1 & O2 & O3 & O4 & O5).
  cbv zeta in O1, O2, O3, O4, O5.
  rewrite !occurrences_cons, zeros_cons. cbn [length].
  repeat split; lia.
Qed.

Lemma counts_of_tally {K : Type} `{Countable K} (c : gmap K Z)
    (sel : number_properties -> option K) (l : list Z) (k : K) :
  counts_of c sel l -> tally c k = occurrences sel k l.
Proof.
  intros Hc. unfold tally. rewrite (Hc k).
  destruct (Z.eqb_spec (occurrences sel k l) 0) as [E|E];
    [rewrite E|]; reflexivity.
Qed.

(** X11.  The totals of the distribution.  When the numbers of the window are
    numbers of the wheel, the counts of red and black, of even and odd, of
    low and high, of the three dozens and of the three columns (a missing
    key counting for 0) each add up, with the number of zeros of the
    window, to [total_spins_analyzed]. *)
Theorem analyze_zone_distribution_totals (history : list Z)
    (last_n_spins : option Z) :
  let window := relevant_history history last_n_spins in
  Forall on_wheel window ->
  exists d,
    analyze_zone_distribution history last_n_spins = Ok d
    /\ tally (colors d) "red"%string + tally (colors d) "black"%string
       + zeros window = total_spins_analyzed d
    /\ tally (parity_counts d) "even"%string
       + tally (parity_counts d) "odd"%string
       + zeros window = total_spins_analyzed d
    /\ tally (ranges d) "low"%string + tally (ranges d) "high"%string
       + zeros window = total_spins_analyzed d
    /\ tally (dozens d) 1 + tally (dozens d) 2 + tally (dozens d) 3
       + zeros window = total_spins_analyzed d
    /\ tally (columns d) 1 + tally (columns d) 2 + tally (columns d) 3
       + zeros window = total_spins_analyzed d.
Proof.
  intros window Hv.
  destruct (analyze_zone_distribution_counts_aux history last_n_spins Hv)
    as (d & E & Ht & C1 & C2 & C3 & C4 & C5).
  fold window in Ht, C1, C2, C3, C4, C5.
  exists d. split; [exact E|]. rewrite Ht.
  rewrite !(counts_of_tally _ _ _ _ C1), !(counts_of_tally _ _ _ _ C2),
    !(counts_of_tally _ _ _ _ C3), !(counts_of_tally _ _ _ _ C4),
    !(counts_of_tally _ _ _ _ C5).
  destruct (occurrences_total window Hv) as (T1 & T2 & T3 & T4 & T5).
  repeat split; assumption.
Qed.

Lemma analyze_zone_distribution_totals_witness :
  exists d,
    analyze_zone_distribution [99; 0; 5; 23; 33] (Some 4) = Ok d
    /\ tally (colors d) "red"%string + tally (colors d) "black"%string
       + zeros [0; 5; 23; 33] = total_spins_analyzed d
    /\ tally (parity_counts d) "even"%string
       + tally (parity_counts d) "odd"%string
       + zeros [0; 5; 23; 33] = total_spins_analyzed d
    /\ tally (ranges d) "low"%string + tally (ranges d) "high"%string
       + zeros [0; 5; 23; 33] = total_spins_analyzed d
    /\ tally (dozens d) 1 + tally (dozens d) 2 + tally (dozens d) 3
       + zeros [0; 5; 23; 33] = total_spins_analyzed d
    /\ tally (columns d) 1 + tally (columns d) 2 + tally (columns d) 3
       + zeros [0; 5; 23; 33] = total_spins_analyzed d.
Proof.
  apply (analyze_zone_distribution_totals [99; 0; 5; 23; 33] (Some 4)).
  repeat constructor; unfold on_wheel; lia.
Defined.

End DistributionMore.

(** ** The deviations from the theoretical frequencies *)

Section DeviationMore.
Import Float64 Analytics.

Lemma binade_le_0 (n D : Z) : 0 < n <= D -> binade n D <= 0.
Proof.
  intros H. unfold binade.
  pose proof (Z.log2_le_mono n D ltac:(lia)).
  destruct (scale_le D _ n); lia.
Qed.

Lemma nearest_ratio_fraction (c t : Z) :
  0 <= c <= t -> 0 < t ->
  match nearest_ratio false c t with
  | S754_infinity _ => False
  | _ => True
  end.
Proof.
  intros Hc Ht. unfold nearest_ratio.
  destruct (Z.leb_spec c 0); [exact I|]. cbv zeta.
  pose proof (binade_le_0 c t ltac:(lia)) as Hb.
  assert (HE : ulp_exponent c t <= -52).
  { unfold ulp_exponent, prec, emax. lia. }
  set (E := ulp_exponent c t) in *. set (M := mantissa c t E).
  unfold pack, normalize.
  destruct (M =? 2 ^ prec); cbn [fst snd].
  - destruct (2 ^ (prec - 1)); try exact I.
    destruct (Z.leb_spec (E + 1) (emax - prec)); [exact I|].
    unfold emax, prec in *. lia.
  - destruct M; try exact I.
    destruct (Z.leb_spec E (emax - prec)); [exact I|].
    unfold emax, prec in *. lia.
Qed.

Lemma deviation_of_fraction (c t : Z) (theoretical : float) :
  0 <= c <= t -> 0 < t ->
  deviation_of c t theoretical = Ok (entry_for c t theoretical).
Proof.
  intros Hc Ht. unfold deviation_of, int_truediv.
  destruct (Z.eqb_spec t 0); [lia|].
  destruct (Z.ltb_spec c 0); [lia|]. destruct (Z.ltb_spec t 0); [lia|].
  cbn [xorb]. rewrite !Z.abs_eq by lia.
  pose proof (nearest_ratio_fraction c t Hc Ht) as Hq.
  unfold entry_for.
  destruct (nearest_ratio false c t); try contradiction; reflexivity.
Qed.

Lemma mapM_ok {A B : Type} (f : A -> result B) (g : A -> B) (l : list A) :
  (forall x, x ∈ l -> f x = Ok (g x)) -> mapM f l = Ok (g <$> l).
Proof.
  induction l as [|x l IH]; intros H; [reflexivity|].
  cbn [mapM]. rewrite (H x) by (left). cbn [mbind result_bind].
  rewrite IH by (intros y Hy; apply H; right; exact Hy).
  reflexivity.
Qed.

Lemma list_to_map_entries {K : Type} `{Countable K} (g : K -> Z -> deviation_entry)
    (counts : gmap K Z) (k : K) :
  (list_to_map ((fun kc : K * Z => (kc.1, g kc.1 kc.2)) <$> map_to_list counts)
     : gmap K deviation_entry) !! k
  = g k <$> counts !! k.
Proof.
  set (h := fun kc : K * Z => (kc.1, g kc.1 kc.2)).
  assert (Hfst : (h <$> map_to_list counts).*1 = (map_to_list counts).*1).
  { rewrite <- list_fmap_compose. apply list_fmap_ext. intros _ [k' c'] _. reflexivity. }
  destruct (counts !! k) as [c|] eqn:E; cbn [fmap option_fmap option_map].
  - apply elem_of_list_to_map.
    + rewrite Hfst. apply NoDup_fst_map_to_list.
    + apply (list_elem_of_fmap_2 h _ (k, c)).
      apply elem_of_map_to_list, E.
  - apply not_elem_of_list_to_map_1. rewrite Hfst.
    intros Hin. apply list_elem_of_fmap in Hin as ([k' c'] & -> & Hin).
    apply elem_of_map_to_list in Hin. cbn [fst] in E. congruence.
Qed.

Lemma deviations_of_fraction {K : Type} `{Countable K} (counts : gmap K Z)
    (total : Z) (theoretical : K -> float) :
  0 < total ->
  (forall k c, counts !! k = Some c -> 0 <= c <= total) ->
  exists entries,
    deviations_of counts total theoretical = Ok entries
    /\ entries_of entries counts total theoretical.
Proof.
  intros Ht Hc. unfold deviations_of.
  rewrite (mapM_ok _ (fun kc => (kc.1, entry_for kc.2 total (theoretical kc.1)))).
  2: { intros [k c] Hk. apply elem_of_map_to_list in Hk. cbn [fst snd].
       rewrite deviation_of_fraction by (apply (Hc k c Hk) || exact Ht).
       reflexivity. }
  cbn [mbind result_bind]. eexists. split; [reflexivity|].
  intros k.
  rewrite (list_to_map_entries (fun k c => entry_for c total (theoretical k))).
  destruct (counts !! k) as [c|] eqn:E; [|reflexivity].
  exists (entry_for c total (theoretical k)). split; [reflexivity|].
  apply deviation_of_fraction; [apply (Hc k c E) | exact Ht].
Qed.

Lemma occurrences_le {K : Type} `{EqDecision K}
    (sel : number_properties -> option K) (k : K) (l : list Z) :
  0 <= occurrences sel k l <= Z.of_nat (length l).
Proof.
  unfold occurrences.
  pose proof (length_filter (fun n => property_of sel n = Some k) l). lia.
Qed.

Lemma counts_of_bounded {K : Type} `{Countable K} (counts : gmap K Z)
    (sel : number_properties -> option K) (l : list Z) (k : K) (c : Z) :
  counts_of counts sel l -> counts !! k = Some c ->
  0 <= c <= Z.of_nat (length l).
Proof.
  intros Hc E. rewrite (Hc k) in E.
  destruct (occurrences sel k l =? 0); [discriminate|].
  injection E as <-. apply occurrences_le.
Qed.

Lemma colour_of_number (n : Z) (k : string) :
  on_wheel n -> property_of color n = Some k ->
  k = "red"%string \/ k = "black"%string.
Proof.
  intros Hn. unfold property_of.
  destruct (decide (n = 0)) as [->|Hne]; [discriminate|].
  destruct (properties_table n ltac:(unfold on_wheel in Hn; lia)) as [-> _].
  cbn [properties_by_arithmetic color].
  destruct (bool_decide _); intros [= <-]; [right | left]; reflexivity.
Qed.

Lemma colour_occurs (k : string) (l : list Z) :
  Forall on_wheel l -> occurrences color k l <> 0 ->
  k = "red"%string \/ k = "black"%string.
Proof.
  intros Hv Hk. unfold occurrences in Hk.
  destruct (filter (fun n => property_of color n = Some k) l) as [|n r] eqn:E;
    [contradiction|].
  assert (Hin : n ∈ filter (fun n => property_of color n = Some k) l)
    by (rewrite E; left).
  apply list_elem_of_filter in Hin as [Hp Hin].
  rewrite Forall_forall in Hv. apply (colour_of_number n k (Hv n Hin) Hp).
Qed.

(** X12.  The report of deviations.  An empty history gives the empty
    dictionary.  A history of numbers of the wheel gives a report and
    raises nothing: the colours, the dozens and the columns of the report
    have the keys of the distribution of the whole history, each entry
    being computed from the count of its key, the history's length and the
    theoretical frequency ([18/37] for the two colours, [12/37] for a dozen
    or a column); the entry of zero is there whatever its count, which is
    the number of zeros of the history, against [1/37].  A number that is
    not one of the wheel makes the call raise [ValueError]. *)
Theorem calculate_deviation_from_theoretical_report (history : list Z) :
  calculate_deviation_from_theoretical [] = Ok None
  /\ (history <> [] -> Forall on_wheel history ->
      let total := Z.of_nat (length history) in
      exists d r,
        analyze_zone_distribution history None = Ok d
        /\ calculate_deviation_from_theoretical history = Ok (Some r)
        /\ entries_of (dev_colors r) (colors d) total (fun _ => p_18_37)
        /\ entries_of (dev_dozens r) (dozens d) total (fun _ => p_12_37)
        /\ entries_of (dev_columns r) (columns d) total (fun _ => p_12_37)
        /\ deviation_of (zeros history) total p_1_37 = Ok (dev_zero r))
  /\ ((exists x, x ∈ history /\ ~ on_wheel x) ->
      calculate_deviation_from_theoretical history = Raise ValueError).
Proof.
  split; [reflexivity|]. split.
  - intros Hne Hv total.
    assert (Ht : 0 < Z.of_nat (length history))
      by (destruct history; [congruence | cbn [length]; lia]).
    change (0 < total) in Ht.
    destruct (analyze_zone_distribution_counts_aux history None Hv)
      as (d & E & _ & C1 & C2 & C3 & _).
    cbn [relevant_history] in C1, C2, C3.
    unfold calculate_deviation_from_theoretical.
    change (Z.of_nat (length history)) with total.
    destruct (Z.eqb_spec total 0); [lia|].
    rewrite E. cbn [mbind result_bind].
    destruct (deviations_of_fraction (colors d) total
                (fun color => default f0
                   (THEORETICAL_PROBABILITIES !! str_lower color)) Ht)
      as (ec & -> & Hec).
    { intros k c Hk. apply (counts_of_bounded _ _ _ _ _ C3 Hk). }
    cbn [mbind result_bind].
    assert (Hz : 0 <= zeros history <= total).
    { unfold zeros, total.
      pose proof (length_filter (fun n => n = 0) history). lia. }
    change (default f0 (THEORETICAL_PROBABILITIES !! "zero"%string))
      with p_1_37.
    change (default f0 (THEORETICAL_PROBABILITIES !! "dozen"%string))
      with p_12_37.
    change (default f0 (THEORETICAL_PROBABILITIES !! "column"%string))
      with p_12_37.
    fold (zeros history).
    rewrite (deviation_of_fraction _ _ p_1_37 Hz Ht).
    cbn [mbind result_bind].
    destruct (deviations_of_fraction (dozens d) total (fun _ => p_12_37) Ht)
      as (ed & -> & Hed).
    { intros k c Hk. apply (counts_of_bounded _ _ _ _ _ C1 Hk). }
    cbn [mbind result_bind].
    destruct (deviations_of_fraction (columns d) total (fun _ => p_12_37) Ht)
      as (el & -> & Hel).
    { intros k c Hk. apply (counts_of_bounded _ _ _ _ _ C2 Hk). }
    cbn [mbind result_bind].
    exists d. eexists. split; [reflexivity|]. split; [reflexivity|].
    cbn [dev_colors dev_dozens dev_columns dev_zero].
    split; [|split; [exact Hed | split; [exact Hel | reflexivity]]].
    intros k. specialize (Hec k).
    destruct (colors d !! k) as [c|] eqn:Ek; [|exact Hec].
    destruct Hec as (e & He1 & He2). exists e. split; [exact He1|].
    rewrite <- He2. f_equal.
    rewrite (C3 k) in Ek.
    destruct (Z.eqb_spec (occurrences color k history) 0) as [|Hpos];
      [discriminate|].
    assert (Hk : k = "red"%string \/ k = "black"%string).
    { apply (colour_occurs k history Hv). lia. }
    destruct Hk as [-> | ->]; reflexivity.
  - intros (x & Hx & Hn).
    unfold calculate_deviation_from_theoretical.
    destruct (Z.eqb_spec (Z.of_nat (length history)) 0) as [E|E].
    { destruct history; [inversion Hx | discriminate E]. }
    unfold analyze_zone_distribution. cbn [relevant_history].
    rewrite count_spins_invalid; [reflexivity|].
    apply Exists_exists. exists x. split; assumption.
Qed.

Lemma calculate_deviation_from_theoretical_report_witness :
  exists d r,
    analyze_zone_distribution [0; 5; 23; 33] None = Ok d
    /\ calculate_deviation_from_theoretical [0; 5; 23; 33] = Ok (Some r)
    /\ entries_of (dev_colors r) (colors d) 4 (fun _ => p_18_37)
    /\ entries_of (dev_dozens r) (dozens d) 4 (fun _ => p_12_37)
    /\ entries_of (dev_columns r) (columns d) 4 (fun _ => p_12_37)
    /\ deviation_of (zeros [0; 5; 23; 33]) 4 p_1_37 = Ok (dev_zero r).
Proof.
  apply (proj1 (proj2 (calculate_deviation_from_theoretical_report
                         [0; 5; 23; 33]))).
  - discriminate.
  - repeat constructor; unfold on_wheel; lia.
Defined.

End DeviationMore.

(** ** The stake on red *)

Section PlaceBetMore.
Import Float64 Simulator.

Lemma place_bet_staked (bet : float) (n : Z) :
  fle bet f0 = false -> on_wheel n ->
  place_bet_and_determine_outcome bet n
  = Ok (if bool_decide (n ∈ Analytics.RED_NUMBERS) then bet else f0,
        bool_decide (n = 0)).
Proof.
  unfold place_bet_and_determine_outcome. intros -> Hn.
  assert (A : Forall (fun n =>
                (props ← Analytics.get_number_properties n;
                 Ok (negb (Analytics.is_zero props)
                     && bool_decide (Analytics.color props
                                     = Some "red"%string),
                     Analytics.is_zero props))
                = Ok (bool_decide (n ∈ Analytics.RED_NUMBERS),
                      bool_decide (n = 0))) (seqZ 0 37)).
  { apply (bool_decide_unpack _). vm_compute. reflexivity. }
  rewrite Forall_forall in A.
  specialize (A n ltac:(apply elem_of_seqZ; unfold on_wheel in Hn; lia)).
  destruct (Analytics.get_number_properties n) as [p|]; [|discriminate].
  cbn [mbind result_bind] in A |- *. injection A as -> ->.
  destruct (bool_decide (n ∈ Analytics.RED_NUMBERS)); reflexivity.
Qed.

Lemma place_bet_invalid (bet : float) (n : Z) :
  fle bet f0 = false -> ~ on_wheel n ->
  place_bet_and_determine_outcome bet n = Raise ValueError.
Proof.
  unfold place_bet_and_determine_outcome. intros -> Hn.
  rewrite (get_number_properties_invalid n Hn). reflexivity.
Qed.

(** X13.  The stake on red.  A stake that is not above 0 is not placed: the
    answer is no win and no zero, and the number is not looked at.  A stake
    above 0 (or NaN) on a number of the wheel wins its own amount exactly on
    the numbers of [RED_NUMBERS] and nothing on the others, zero among them,
    and reports zero exactly on 0; on a number that is not of the wheel it
    raises [ValueError]. *)
Theorem place_bet_pays_on_red (bet : float) (n : Z) :
  (fle bet f0 = true ->
   place_bet_and_determine_outcome bet n = Ok (f0, false))
  /\ (fle bet f0 = false -> on_wheel n ->
      place_bet_and_determine_outcome bet n
      = Ok (if bool_decide (n ∈ Analytics.RED_NUMBERS) then bet else f0,
            bool_decide (n = 0)))
  /\ (fle bet f0 = false -> ~ on_wheel n ->
      place_bet_and_determine_outcome bet n = Raise ValueError).
Proof.
  split; [|split].
  - unfold place_bet_and_determine_outcome. intros ->. reflexivity.
  - apply place_bet_staked.
  - apply place_bet_invalid.
Qed.

Lemma place_bet_pays_on_red_witness :
  place_bet_and_determine_outcome (of_Z 10) 7 = Ok (of_Z 10, false)
  /\ place_bet_and_determine_outcome (of_Z 10) 0 = Ok (f0, true)
  /\ place_bet_and_determine_outcome (of_Z 10) 37 = Raise ValueError
  /\ place_bet_and_determine_outcome f0 37 = Ok (f0, false).
Proof.
  split; [|split; [|split]].
  - apply (proj1 (proj2 (place_bet_pays_on_red (of_Z 10) 7)));
      [reflexivity | unfold on_wheel; lia].
  - apply (proj1 (proj2 (place_bet_pays_on_red (of_Z 10) 0)));
      [reflexivity | unfold on_wheel; lia].
  - apply (proj2 (proj2 (place_bet_pays_on_red (of_Z 10) 37)));
      [reflexivity | unfold on_wheel; lia].
  - apply (proj1 (place_bet_pays_on_red f0 37)). reflexivity.
Defined.

End PlaceBetMore.

(** ** The books of the driver *)

Section DriverMore.
Import Float64 Simulator.
Variable wheel : nat -> Z.

Lemma get_number_properties_valid (n : Z) (p : Analytics.number_properties) :
  Analytics.get_number_properties n = Ok p ->
  on_wheel n /\ Analytics.is_zero p = bool_decide (n = 0).
Proof.
  intros E. destruct (decide (on_wheel n)) as [Hn|Hn].
  - split; [exact Hn|].
    destruct (get_number_properties_ok n Hn) as (p' & E' & Hz).
    rewrite E in E'. injection E' as <-. exact Hz.
  - rewrite (get_number_properties_invalid n Hn) in E. discriminate.
Qed.

Lemma skip_round_cases (k : Z) (s s' : simulator) :
  skip_round wheel k s = Ok s' ->
  on_wheel (wheel (length (spin_history s)))
  /\ initial_bank s' = initial_bank s
  /\ base_bet s' = base_bet s
  /\ current_bank s' = current_bank s
  /\ spin_history s' = spin_history s ++ [wheel (length (spin_history s))]
  /\ risk_monitor s'
     = RiskMonitor.update_state (risk_monitor s) f0 f0
         (bool_decide (wheel (length (spin_history s)) = 0)) None
  /\ stats s' = stats s
  /\ exists r,
       bet_history s' = bet_history s ++ [r]
       /\ spin r = k /\ result_number r = wheel (length (spin_history s))
       /\ bet_amount r = f0 /\ win_amount_from_bet r = f0
       /\ bank_before_bet r = current_bank s
       /\ bank_after_spin r = current_bank s.
Proof.
  unfold skip_round. intros H.
  destruct (Analytics.get_number_properties _) as [p|] eqn:Ep; [|discriminate].
  apply get_number_properties_valid in Ep as [Hn Hz].
  cbn [mbind result_bind] in H. rewrite Hz in H.
  destruct (risk_index_of _) as [ri|]; [|discriminate].
  cbn [mbind result_bind] in H.
  destruct (buffer_factor_of _) as [bf|]; [|discriminate].
  cbn [mbind result_bind] in H. injection H as <-.
  cbn [initial_bank base_bet current_bank spin_history risk_monitor stats
       bet_history].
  split; [exact Hn|]. do 6 (split; [reflexivity|]).
  eexists. split; [reflexivity|]. repeat split.
Qed.

Lemma bet_round_cases (k : Z) (bet : float) (s s' : simulator)
    (e : option exit_reason) :
  fle bet f0 = false -> total_spins (stats s) = k ->
  bet_round wheel k bet s = Ok (s', e) ->
  let n := wheel (length (spin_history s)) in
  on_wheel n
  /\ round_staked k n bet s s'
  /\ ((e = Some StopAfterBet
       /\ RiskMonitor.is_stop_suggested (risk_monitor s') = true
       /\ stop_triggers (stats s')
          = stop_triggers
              (count_triggers
                 (RiskMonitor.stop_conditions_met (risk_monitor s'))
                 (stats s)))
      \/ (RiskMonitor.is_stop_suggested (risk_monitor s') = false
          /\ stop_triggers (stats s') = stop_triggers (stats s)
          /\ e = (if fle (current_bank s') f0 then Some Bankrupt else None))).
Proof.
  intros Hb Hk H n. unfold bet_round in H. fold n in H.
  destruct (decide (on_wheel n)) as [Hn|Hn].
  2: { rewrite (place_bet_invalid bet n Hb Hn) in H. discriminate. }
  rewrite (place_bet_staked bet n Hb Hn) in H.
  cbn [mbind result_bind] in H.
  destruct (risk_index_of _) as [ri|]; [|discriminate].
  cbn [mbind result_bind] in H.
  destruct (buffer_factor_of _) as [bf|]; [|discriminate].
  cbn [mbind result_bind] in H.
  split; [exact Hn|].
  set (win := if bool_decide (n ∈ Analytics.RED_NUMBERS) then bet else f0) in *.
  set (rm' := RiskMonitor.update_state (risk_monitor s) bet win
                (bool_decide (n = 0)) (Some (current_bank s))) in *.
  destruct (RiskMonitor.is_stop_suggested rm') eqn:Hs.
  - injection H as <- <-.
    cbn [with_stats initial_bank base_bet current_bank spin_history
         risk_monitor stats bet_history].
    split.
    + unfold round_staked. fold n. fold win. fold rm'.
      cbn [with_stats initial_bank base_bet current_bank spin_history
           risk_monitor stats bet_history count_triggers record_round
           total_spins wins losses zeros_hit max_streak_loss bank_history].
      do 5 (split; [reflexivity|]). split; [exact Hk|].
      do 5 (split; [reflexivity|]).
      eexists. split; [reflexivity|]. repeat split.
    + left. split; [reflexivity|]. split; [exact Hs|]. reflexivity.
  - match type of H with
    | (if ?b then Ok (?x, _) else Ok (?x, _)) = _ =>
        assert (E : s' = x /\ e = if b then Some Bankrupt else None)
          by (destruct b; injection H as <- <-; split; reflexivity)
    end.
    destruct E as [-> ->].
    cbn [with_stats initial_bank base_bet current_bank spin_history
         risk_monitor stats bet_history].
    split.
    + unfold round_staked. fold n. fold win. fold rm'.
      cbn [with_stats initial_bank base_bet current_bank spin_history
           risk_monitor stats bet_history count_triggers record_round
           total_spins wins losses zeros_hit max_streak_loss bank_history].
      do 5 (split; [reflexivity|]). split; [exact Hk|].
      do 5 (split; [reflexivity|]).
      eexists. split; [reflexivity|]. repeat split.
    + right. split; [exact Hs|]. split; reflexivity.
Qed.

Lemma loop_body_cases (k : Z) (s s' : simulator) (c c' : gmap Z Z)
    (e : option exit_reason) :
  loop_body wheel k s c = Ok (s', c', e) ->
  let n := wheel (length (spin_history s)) in
  let rm := risk_monitor s in
  (RiskMonitor.is_stop_suggested rm = true
   /\ e = Some StopBeforeBet /\ c' = c
   /\ s' = with_stats (count_triggers (RiskMonitor.stop_conditions_met rm))
             (with_stats (set_total_spins k) s))
  \/ (RiskMonitor.is_stop_suggested rm = false
      /\ on_wheel n
      /\ exists b,
           Engine.calculate_bet (Engine.PyFloat (base_bet s))
             (Engine.PyInt (RiskMonitor.current_streak rm))
             (RiskMonitor.z_count_last_50 rm) engine_frames c = Ok (b, c')
           /\ let bet := stake_of b (current_bank s) in
              (fle bet f0 = true /\ e = None /\ round_skipped k n s s')
              \/ (fle bet f0 = false
                  /\ round_staked k n bet s s'
                  /\ ((e = Some StopAfterBet
                       /\ RiskMonitor.is_stop_suggested (risk_monitor s')
                          = true
                       /\ stop_triggers (stats s')
                          = stop_triggers
                              (count_triggers
                                 (RiskMonitor.stop_conditions_met
                                    (risk_monitor s'))
                                 (stats s)))
                      \/ (RiskMonitor.is_stop_suggested (risk_monitor s')
                          = false
                          /\ stop_triggers (stats s')
                             = stop_triggers (stats s)
                          /\ e = (if fle (current_bank s') f0
                                  then Some Bankrupt else None))))).
Proof.
  intros H n rm. unfold loop_body in H.
  cbn [with_stats risk_monitor base_bet current_bank] in H. fold rm in H.
  destruct (RiskMonitor.is_stop_suggested rm) eqn:Hs.
  { left. injection H as <- <- <-. repeat split. }
  right. split; [reflexivity|].
  destruct (Engine.calculate_bet _ _ _ _ _) as [[b c1]|]; [|discriminate].
  cbn [mbind result_bind] in H. fold (stake_of b (current_bank s)) in H.
  destruct (fle (stake_of b (current_bank s)) f0) eqn:Hb.
  - destruct (skip_round _ _ _) as [s1|] eqn:Hk; [|discriminate].
    cbn [mbind result_bind] in H. injection H as <- <- <-.
    apply skip_round_cases in Hk as (Hn & K).
    split; [exact Hn|]. exists b. split; [reflexivity|].
    left. split; [exact Hb|]. split; [reflexivity|]. exact K.
  - destruct (bet_round _ _ _ _) as [[s1 e1]|] eqn:Hk; [|discriminate].
    cbn [mbind result_bind] in H. injection H as <- <- <-.
    apply bet_round_cases in Hk as (Hn & K & X); [|exact Hb|reflexivity].
    split; [exact Hn|]. exists b. split; [reflexivity|].
    right. split; [exact Hb|]. split; [exact K | exact X].
Qed.

Lemma run_loop_rule (Inv : Z -> simulator -> gmap Z Z -> Prop)
    (Exit : Z -> exit_reason -> simulator -> gmap Z Z -> Prop) :
  (forall k s c s' c' e,
      Inv k s c -> loop_body wheel k s c = Ok (s', c', e) ->
      match e with
      | None => Inv (k + 1) s' c'
      | Some why => Exit k why s' c'
      end) ->
  forall n k s c s' c' why,
    Inv k s c -> run_loop wheel n k s c = Ok (s', c', why) ->
    (why = Completed /\ Inv (k + Z.of_nat n) s' c')
    \/ (exists j, k <= j < k + Z.of_nat n /\ Exit j why s' c').
Proof.
  intros Step. induction n as [|n IH]; intros k s c s' c' why HI H.
  - cbn in H. injection H as <- <- <-. left.
    rewrite Z.add_0_r. split; [reflexivity | exact HI].
  - cbn [run_loop] in H.
    destruct (loop_body wheel k s c) as [[[s1 c1] e]|] eqn:E; [|discriminate].
    cbn [mbind result_bind] in H. pose proof (Step _ _ _ _ _ _ HI E) as St.
    destruct e as [w|].
    + injection H as <- <- <-. right. exists k. split; [lia | exact St].
    + destruct (IH _ _ _ _ _ _ St H) as [[-> HI']|(j & Hj & HE)].
      * left. split; [reflexivity|].
        replace (k + Z.of_nat (S n)) with (k + 1 + Z.of_nat n) by lia.
        exact HI'.
      * right. exists j. split; [lia | exact HE].
Qed.

Lemma number_of_snoc (test : bet_record -> bool) (l : list bet_record)
    (r : bet_record) :
  number_of test (l ++ [r]) = number_of test l + (if test r then 1 else 0).
Proof.
  unfold number_of. rewrite filter_app, length_app, filter_cons, filter_nil.
  destruct (decide (test r = true)) as [->|Hn]; cbn [length]; [lia|].
  destruct (test r); [congruence|lia].
Qed.

Lemma books_init (bank base : float) (rm : RiskMonitor.risk_monitor) :
  books wheel 0 (init bank base rm).
Proof. unfold books, draws_recorded, statistics_count. cbn. repeat split; lia. Qed.

Lemma draws_recorded_next (k n : Z) (s s' : simulator) (r : bet_record) :
  n = wheel (length (spin_history s)) ->
  draws_recorded wheel (k - 1) s ->
  spin_history s' = spin_history s ++ [n] ->
  bet_history s' = bet_history s ++ [r] ->
  spin r = k -> result_number r = n ->
  draws_recorded wheel k s'.
Proof.
  intros Hn (B0 & B1 & B2 & B3) R4 R7 R8 R9.
  assert (Hlen : length (spin_history s) = Z.to_nat (k - 1))
    by (rewrite B1, length_fmap, length_seq; reflexivity).
  unfold draws_recorded. rewrite R7, R4.
  split; [lia|]. split.
  { replace (Z.to_nat k) with (S (Z.to_nat (k - 1))) by lia.
    rewrite seq_S, fmap_app. cbn [fmap list_fmap plus].
    rewrite Hn, Hlen, B1. reflexivity. }
  split; [rewrite fmap_app, B2; cbn [fmap list_fmap]; rewrite R9; reflexivity|].
  rewrite fmap_app, B3. cbn [fmap list_fmap]. rewrite R8.
  replace (seqZ 1 k) with (seqZ 1 ((k - 1) + 1)) by (f_equal; lia).
  rewrite seqZ_app by lia.
  replace (1 + (k - 1)) with k by lia. reflexivity.
Qed.

Lemma books_skipped (k n : Z) (s s' : simulator) :
  n = wheel (length (spin_history s)) ->
  books wheel (k - 1) s -> round_skipped k n s s' -> books wheel k s'.
Proof.
  intros Hn (BD & B4 & B5 & B6 & B7 & B8)
    (R1 & R2 & R3 & R4 & R5 & R6 & r & R7 & R8 & R9 & R10 & R11 & R12 & R13).
  split; [apply (draws_recorded_next k n s s' r); assumption|].
  unfold statistics_count. rewrite R7, R6, R1, R3.
  cbn [stats set_total_spins wins losses zeros_hit bank_history].
  assert (Hst : staked r = false) by (unfold staked; rewrite R10; reflexivity).
  assert (Hwo : won r = false) by (unfold won; rewrite R11; reflexivity).
  rewrite !number_of_snoc, Hst, Hwo, !Z.add_0_r.
  split; [exact B4|]. split; [exact B5|]. split; [exact B6|].
  rewrite filter_app, filter_cons, filter_nil.
  destruct (decide (staked r = true)) as [Hc|_]; [congruence|].
  rewrite app_nil_r. split; [exact B7 | exact B8].
Qed.

Lemma books_staked (k n : Z) (bet : float) (s s' : simulator) :
  n = wheel (length (spin_history s)) -> fle bet f0 = false ->
  books wheel (k - 1) s -> round_staked k n bet s s' -> books wheel k s'.
Proof.
  intros Hn Hb (BD & B4 & B5 & B6 & B7 & B8) R.
  unfold round_staked in R. cbv zeta in R.
  destruct R as (R1 & R2 & R3 & R4 & R5 & T1 & T2 & T3 & T4 & T5 & T6
                 & r & R7 & R8 & R9 & R10 & R11 & R12 & R13).
  split; [apply (draws_recorded_next k n s s' r); assumption|].
  unfold statistics_count. rewrite R7, R1, R3, T2, T3, T4, T6.
  assert (Hst : staked r = true) by (unfold staked; rewrite R10, Hb; reflexivity).
  assert (Hwo : won r = fgt (if bool_decide (n ∈ Analytics.RED_NUMBERS)
                             then bet else f0) f0)
    by (unfold won; rewrite R11; reflexivity).
  rewrite !number_of_snoc, Hst, Hwo.
  assert (Hz : bool_decide (n = 0) = true ->
               fgt (if bool_decide (n ∈ Analytics.RED_NUMBERS)
                    then bet else f0) f0 = false).
  { intros E. apply bool_decide_eq_true in E. rewrite E. reflexivity. }
  split; [destruct (fgt _ f0); lia|].
  split; [destruct (fgt _ f0); lia|].
  split.
  { destruct (bool_decide (n = 0)); [rewrite (Hz eq_refl)|];
      try destruct (fgt _ f0); lia. }
  rewrite filter_app, filter_cons, filter_nil.
  destruct (decide (staked r = true)) as [_|Hc]; [|congruence].
  rewrite fmap_app. cbn [fmap list_fmap]. rewrite R13, B7.
  split; [reflexivity|].
  apply last_snoc.
Qed.

Lemma count_triggers_first (f : RiskMonitor.stop_flags) (st : session_stats) :
  stop_triggers st = no_trigger ->
  stop_triggers (count_triggers f st) = triggers_of f.
Proof.
  intros E. unfold count_triggers, triggers_of. cbn [stop_triggers].
  rewrite E. cbn [no_trigger n_loss_streak_limit n_zero_count_limit
                  n_drawdown_limit].
  destruct f as [[] [] []]; reflexivity.
Qed.

(** The books along the loop: at the head of round [k] the books of
    [k - 1] rounds are kept, the rounds are counted and no stop has been
    counted; when the loop is left in round [k], the books are those of
    the rounds played and the exit is accounted for. *)
Lemma loop_body_books (k : Z) (s s' : simulator) (c c' : gmap Z Z)
    (e : option exit_reason) :
  books wheel (k - 1) s /\ total_spins (stats s) = k - 1
  /\ stop_triggers (stats s) = no_trigger ->
  loop_body wheel k s c = Ok (s', c', e) ->
  match e with
  | None =>
      books wheel (k + 1 - 1) s' /\ total_spins (stats s') = k + 1 - 1
      /\ stop_triggers (stats s') = no_trigger
  | Some why =>
      books wheel (match why with StopBeforeBet => k - 1 | _ => k end) s'
      /\ total_spins (stats s') = k
      /\ exit_accounted why s'
  end.
Proof.
  intros (B & Ht & Hg) H.
  apply loop_body_cases in H. cbv zeta in H.
  destruct H as [(Hs & -> & -> & ->)|(Hs & Hn & b & Hc & H)].
  - split; [exact B|]. split; [reflexivity|].
    unfold exit_accounted. cbn [with_stats risk_monitor stats].
    split; [exact Hs|]. apply count_triggers_first. exact Hg.
  - destruct H as [(Hb & -> & R)|(Hb & R & X)].
    + replace (k + 1 - 1) with k by lia.
      split; [apply (books_skipped k _ s s' eq_refl B R)|].
      destruct R as (_ & _ & _ & _ & _ & -> & _).
      split; [reflexivity | exact Hg].
    + pose proof (books_staked k _ _ s s' eq_refl Hb B R) as B'.
      pose proof R as R'. unfold round_staked in R'. cbv zeta in R'.
      destruct R' as (_ & _ & _ & _ & _ & T1 & _).
      destruct X as [(-> & Hs' & Hg')|(Hs' & Hg' & ->)].
      * split; [exact B'|]. split; [exact T1|].
        unfold exit_accounted. split; [exact Hs'|].
        rewrite Hg'. apply count_triggers_first, Hg.
      * destruct (fle (current_bank s') f0) eqn:Hbk.
        -- split; [exact B'|]. split; [exact T1|].
           unfold exit_accounted. split; [exact Hs'|].
           split; [exact Hbk|]. rewrite Hg'. exact Hg.
        -- replace (k + 1 - 1) with k by lia.
           split; [exact B'|]. split; [exact T1|]. rewrite Hg'. exact Hg.
Qed.

Lemma loop_body_configuration (k : Z) (s s' : simulator) (c c' : gmap Z Z)
    (e : option exit_reason) :
  loop_body wheel k s c = Ok (s', c', e) ->
  initial_bank s' = initial_bank s /\ base_bet s' = base_bet s.
Proof.
  intros H. apply loop_body_cases in H. cbv zeta in H.
  destruct H as [(_ & _ & _ & ->)|(_ & _ & b & _ & [(_ & _ & R)|(_ & R & _)])].
  - split; reflexivity.
  - destruct R as (R1 & R2 & _). split; assumption.
  - unfold round_staked in R. cbv zeta in R. destruct R as (R1 & R2 & _).
    split; assumption.
Qed.

Lemma loop_body_exit (k : Z) (s s' : simulator) (c c' : gmap Z Z)
    (why : exit_reason) :
  loop_body wheel k s c = Ok (s', c', Some why) -> why <> Completed.
Proof.
  intros H. apply loop_body_cases in H. cbv zeta in H.
  destruct H as [(_ & E & _)|(_ & _ & b & _ & [(_ & E & _)|(_ & _ & X)])];
    try congruence.
  destruct X as [(E & _)|(_ & _ & E)]; [congruence|].
  destruct (fle (current_bank s') f0); congruence.
Qed.

(** The books of a run of the loop from the first round. *)
Lemma run_loop_books (n : nat) (bank base : float)
    (rm : RiskMonitor.risk_monitor) (c c' : gmap Z Z) (s' : simulator)
    (why : exit_reason) :
  run_loop wheel n 1 (init bank base rm) c = Ok (s', c', why) ->
  exists played,
    books wheel played s'
    /\ 0 <= played <= Z.of_nat n
    /\ total_spins (stats s')
       = (match why with StopBeforeBet => played + 1 | _ => played end)
    /\ (why = Completed -> played = Z.of_nat n)
    /\ (why = StopBeforeBet -> played < Z.of_nat n)
    /\ exit_accounted why s'
    /\ initial_bank s' = bank.
Proof.
  intros H.
  pose proof (run_loop_rule
    (fun k s _ => (books wheel (k - 1) s /\ total_spins (stats s) = k - 1
                   /\ stop_triggers (stats s) = no_trigger)
                  /\ initial_bank s = bank)
    (fun k why s _ =>
       (books wheel (match why with StopBeforeBet => k - 1 | _ => k end) s
        /\ total_spins (stats s) = k /\ exit_accounted why s)
       /\ initial_bank s = bank /\ why <> Completed)) as Rule.
  cbv beta in Rule.
  assert (Step : forall k s c0 s1 c1 e,
             (books wheel (k - 1) s /\ total_spins (stats s) = k - 1
              /\ stop_triggers (stats s) = no_trigger)
             /\ initial_bank s = bank ->
             loop_body wheel k s c0 = Ok (s1, c1, e) ->
             match e with
             | Some why0 =>
                 (books wheel
                    (match why0 with StopBeforeBet => k - 1 | _ => k end) s1
                  /\ total_spins (stats s1) = k /\ exit_accounted why0 s1)
                 /\ initial_bank s1 = bank /\ why0 <> Completed
             | None =>
                 (books wheel (k + 1 - 1) s1
                  /\ total_spins (stats s1) = k + 1 - 1
                  /\ stop_triggers (stats s1) = no_trigger)
                 /\ initial_bank s1 = bank
             end).
  { intros k s c0 s1 c1 e [HI Hb] E.
    pose proof (loop_body_books k s s1 c0 c1 e HI E) as L.
    pose proof (loop_body_configuration k s s1 c0 c1 e E) as [L1 _].
    destruct e as [w|].
    - split; [exact L|]. split; [congruence|].
      apply (loop_body_exit k s s1 c0 c1 w E).
    - split; [exact L | congruence]. }
  destruct (Rule Step n 1 (init bank base rm) c s' c' why
    ltac:(split; [split; [apply books_init | split; reflexivity] | reflexivity])
    H) as [[-> ((B & Ht & Hg) & Hb)]|(j & Hj & (B & Ht & Hx) & Hb & Hne)].
  - exists (Z.of_nat n). replace (1 + Z.of_nat n - 1) with (Z.of_nat n) in * by lia.
    split; [exact B|]. split; [lia|]. split; [exact Ht|].
    split; [reflexivity|]. split; [discriminate|]. split; [exact Hg | exact Hb].
  - destruct why; try congruence.
    + exists (j - 1). split; [exact B|]. split; [lia|]. split; [lia|].
      split; [discriminate|]. split; [lia|]. split; assumption.
    + exists j. split; [exact B|]. split; [lia|]. split; [exact Ht|].
      split; [discriminate|]. split; [discriminate|]. split; assumption.
    + exists j. split; [exact B|]. split; [lia|]. split; [exact Ht|].
      split; [discriminate|]. split; [discriminate|]. split; assumption.
Qed.

Lemma run_simulation_books (num_spins : Z) (bank base : float)
    (rm : RiskMonitor.risk_monitor) (c c' : gmap Z Z) (s' : simulator)
    (why : exit_reason) :
  run_simulation wheel num_spins (init bank base rm) c = Ok (s', c', why) ->
  exists played,
    books wheel played s'
    /\ 0 <= played <= Z.max 0 num_spins
    /\ total_spins (stats s')
       = (match why with StopBeforeBet => played + 1 | _ => played end)
    /\ (why = Completed -> played = Z.max 0 num_spins)
    /\ (why = StopBeforeBet -> played < num_spins)
    /\ exit_accounted why s'
    /\ initial_bank s' = bank
    /\ final_bank (stats s') = current_bank s'
    /\ profit_loss (stats s') = fsub (current_bank s') bank.
Proof.
  unfold run_simulation. intros H.
  destruct (run_loop wheel _ 1 _ c) as [[[s1 c1] w]|] eqn:E; [|discriminate].
  cbn [mbind result_bind] in H. injection H as <- <- <-.
  apply run_loop_books in E as (played & B & Hp & Ht & Hc & Hb & Hx & Hi).
  exists played.
  split; [exact B|]. split; [lia|]. split; [exact Ht|].
  split; [intros Hw; rewrite (Hc Hw); lia|].
  split; [intros Hw; specialize (Hb Hw); lia|].
  split; [destruct w; exact Hx|]. split; [exact Hi|].
  cbn [with_stats stats current_bank final_stats final_bank profit_loss].
  rewrite Hi. split; reflexivity.
Qed.

(** X14.  The draws of a run.  When a run returns, the numbers it has drawn are
    the first draws of the wheel, in order, each one drawn once; there is
    one record for each, holding its number and its round, the rounds being
    numbered from 1; not more rounds are played than were asked for, all of
    them when the run completes; [total_spins] is the number of rounds
    played, plus one when the run stopped before the stake of a round. *)
Theorem run_simulation_draws (num_spins : Z) (bank base : float)
    (rm : RiskMonitor.risk_monitor) (c c' : gmap Z Z) (s' : simulator)
    (why : exit_reason) :
  run_simulation wheel num_spins (init bank base rm) c = Ok (s', c', why) ->
  exists played,
    draws_recorded wheel played s'
    /\ played <= Z.max 0 num_spins
    /\ total_spins (stats s')
       = (match why with StopBeforeBet => played + 1 | _ => played end)
    /\ (why = Completed -> played = Z.max 0 num_spins)
    /\ (why = StopBeforeBet -> played < num_spins).
Proof.
  intros H.
  apply run_simulation_books in H
    as (played & [B _] & Hp & Ht & Hc & Hb & _).
  exists played. split; [exact B|]. split; [lia|].
  split; [exact Ht|]. split; assumption.
Qed.

(** X15.  The statistics of a run.  When a run returns, [wins] is the number of
    records with a win, [wins + losses] the number of records with a stake,
    [zeros_hit] is at most [losses], [bank_history] is the initial bank
    followed by the bank after each round with a stake and ends with the
    bank of the driver, which is [final_bank]; [profit_loss] is the
    difference of that bank and the initial bank. *)
Theorem run_simulation_statistics (num_spins : Z) (bank base : float)
    (rm : RiskMonitor.risk_monitor) (c c' : gmap Z Z) (s' : simulator)
    (why : exit_reason) :
  run_simulation wheel num_spins (init bank base rm) c = Ok (s', c', why) ->
  statistics_count s'
  /\ initial_bank s' = bank
  /\ final_bank (stats s') = current_bank s'
  /\ profit_loss (stats s') = fsub (current_bank s') bank.
Proof.
  intros H.
  apply run_simulation_books in H
    as (played & [_ B] & _ & _ & _ & _ & _ & Hi & Hf & Hp).
  split; [exact B|]. split; [exact Hi|]. split; assumption.
Qed.

(** X16.  The exits of a run.  A run that stops on the stop flags, before or
    after the stake of a round, leaves a risk state that suggests a stop
    and has counted each flag that is set once; a run that ends on
    bankruptcy leaves a bank that is not above 0, a risk state that
    suggests no stop and no flag counted; a run that completes has counted
    no flag. *)
Theorem run_simulation_exit (num_spins : Z) (bank base : float)
    (rm : RiskMonitor.risk_monitor) (c c' : gmap Z Z) (s' : simulator)
    (why : exit_reason) :
  run_simulation wheel num_spins (init bank base rm) c = Ok (s', c', why) ->
  exit_accounted why s'.
Proof.
  intros H.
  apply run_simulation_books in H as (played & _ & _ & _ & _ & _ & Hx & _).
  exact Hx.
Qed.

End DriverMore.

(** ** Runs that raise nothing and banks that cover the stakes *)

Section DriverSafe.
Import Float64 Simulator.
Variable wheel : nat -> Z.
Hypothesis wheel_on : forall i, on_wheel (wheel i).

Lemma monitor_ready_init (bank base : float) :
  monitor_ready (RiskMonitor.init bank base).
Proof.
  unfold monitor_ready. cbn. split; [lia|]. split; [lia|].
  split; [constructor | lia].
Qed.

Lemma update_state_ready (rm : RiskMonitor.risk_monitor) (bet win : float)
    (z : bool) (o : option float) :
  monitor_ready rm ->
  let rm' := RiskMonitor.update_state rm bet win z o in
  monitor_ready rm'
  /\ 0 <= RiskMonitor.z_count_last_50 rm' <= 50
  /\ RiskMonitor.current_streak rm' <= RiskMonitor.current_streak rm + 1.
Proof.
  intros (H0 & _ & Hf & Hl) rm'.
  pose proof (update_state_window rm bet win z o) as [Hw Hc].
  cbv zeta in Hw, Hc. fold rm' in Hw, Hc.
  pose proof (update_state_flags rm bet win z o) as Hg.
  cbv zeta in Hg. fold rm' in Hg.
  assert (Hs : 0 <= RiskMonitor.current_streak rm'
               <= RiskMonitor.current_streak rm + 1).
  { destruct (fgt win f0) eqn:E.
    - pose proof (update_state_win_fields rm bet win z o E) as (_ & S & _).
      fold rm' in S. lia.
    - pose proof (update_state_loss_fields rm bet win z o E) as (S & _).
      fold rm' in S. lia. }
  assert (Hf' : Forall (fun x => x = 0 \/ x = 1)
                  (RiskMonitor.spin_history_for_zero_count rm')
                /\ (length (RiskMonitor.spin_history_for_zero_count rm') <= 50)%nat).
  { rewrite Hw.
    assert (Hh : Forall (fun x => x = 0 \/ x = 1)
                   (RiskMonitor.spin_history_for_zero_count rm
                    ++ [if z then 1 else 0])).
    { apply Forall_app. split; [exact Hf|].
      constructor; [destruct z; tauto | constructor]. }
    destruct (Z.ltb_spec 50 (Z.of_nat (length
                (RiskMonitor.spin_history_for_zero_count rm
                 ++ [if z then 1 else 0])))) as [Hlt|Hge].
    - rewrite length_app in Hlt. cbn [length] in Hlt.
      destruct (RiskMonitor.spin_history_for_zero_count rm) as [|a l];
        [cbn in Hlt; lia|].
      cbn [app tail]. cbn [app] in Hh. apply Forall_cons in Hh as [_ Hh].
      split; [exact Hh|]. rewrite length_app. cbn [length] in *. lia.
    - split; [exact Hh | lia]. }
  destruct Hf' as [Hf' Hl'].
  pose proof (pysum_flags _ Hf') as Hsum. rewrite <- Hc in Hsum.
  split; [|split; [lia | lia]].
  split; [lia|]. split; [|split; assumption].
  intros H15. unfold RiskMonitor.is_stop_suggested. rewrite Hg.
  cbn [RiskMonitor.loss_streak_limit].
  destruct (Z.leb_spec 15 (RiskMonitor.current_streak rm')); [reflexivity|lia].
Qed.

Lemma risk_index_of_returns (s : Z) :
  0 <= s <= max_streak -> exists ri, risk_index_of s = Ok ri.
Proof.
  intros Hs. unfold risk_index_of.
  destruct (streak_table s Hs) as (_ & -> & _). eexists. reflexivity.
Qed.

Lemma buffer_factor_of_returns (z : Z) :
  0 <= z <= 50 -> exists bf, buffer_factor_of z = Ok bf.
Proof.
  intros Hz. unfold buffer_factor_of.
  destruct (zero_count_table z Hz) as (_ & ->). eexists. reflexivity.
Qed.

Lemma loop_body_returns (k : Z) (s : simulator) (c : gmap Z Z) :
  monitor_ready (risk_monitor s) -> cache_ok c ->
  exists s' c' e,
    loop_body wheel k s c = Ok (s', c', e)
    /\ monitor_ready (risk_monitor s') /\ cache_ok c'.
Proof.
  intros Hr Hc. pose proof Hr as (H0 & H15 & _).
  unfold loop_body. cbn [with_stats risk_monitor base_bet current_bank].
  destruct (RiskMonitor.is_stop_suggested (risk_monitor s)) eqn:Hs.
  { eexists _, _, _. split; [reflexivity|]. split; assumption. }
  assert (Hlt : RiskMonitor.current_streak (risk_monitor s) < 15).
  { destruct (Z.lt_ge_cases (RiskMonitor.current_streak (risk_monitor s)) 15)
      as [|Hge]; [assumption|].
    specialize (H15 Hge). discriminate. }
  destruct (calculate_bet_value (base_bet s)
              (RiskMonitor.current_streak (risk_monitor s))
              (RiskMonitor.z_count_last_50 (risk_monitor s)) engine_frames c
              ltac:(unfold max_streak; lia)
              ltac:(unfold engine_frames, recursion_limit; lia) Hc)
    as (b & c1 & -> & _ & _ & Hc1 & _).
  cbn [mbind result_bind].
  set (n := wheel (length (spin_history s))).
  destruct (fle (pymin (pyround b 2) (current_bank s)) f0) eqn:Hb.
  - unfold skip_round.
    cbn [with_stats risk_monitor base_bet current_bank spin_history
         bet_history initial_bank stats].
    fold n.
    destruct (get_number_properties_ok n (wheel_on _)) as (p & -> & _).
    cbn [mbind result_bind].
    set (rm' := RiskMonitor.update_state (risk_monitor s) f0 f0
                  (Analytics.is_zero p) None).
    destruct (update_state_ready (risk_monitor s) f0 f0 (Analytics.is_zero p)
                None Hr) as (Hr' & Hz' & Hs').
    fold rm' in Hr', Hz', Hs'. pose proof Hr' as (H0' & _).
    destruct (risk_index_of_returns (RiskMonitor.current_streak rm')
                ltac:(unfold max_streak; lia)) as (ri & ->).
    cbn [mbind result_bind].
    destruct (buffer_factor_of_returns (RiskMonitor.z_count_last_50 rm') Hz')
      as (bf & ->).
    cbn [mbind result_bind].
    eexists _, _, _. split; [reflexivity|]. split; assumption.
  - unfold bet_round.
    cbn [with_stats risk_monitor base_bet current_bank spin_history
         bet_history initial_bank stats].
    fold n.
    rewrite (place_bet_staked _ n Hb (wheel_on _)).
    cbn [mbind result_bind].
    set (bet := pymin (pyround b 2) (current_bank s)) in *.
    set (win := if bool_decide (n ∈ Analytics.RED_NUMBERS) then bet else f0).
    set (rm' := RiskMonitor.update_state (risk_monitor s) bet win
                  (bool_decide (n = 0)) (Some (current_bank s))).
    destruct (update_state_ready (risk_monitor s) bet win
                (bool_decide (n = 0)) (Some (current_bank s)) Hr)
      as (Hr' & Hz' & Hs').
    fold rm' in Hr', Hz', Hs'. pose proof Hr' as (H0' & _).
    assert (Hri : 0 <= 0 `max` (if feq win f0 && negb (bool_decide (n = 0))
                                then RiskMonitor.current_streak rm' - 1
                                else RiskMonitor.current_streak rm')
                  <= max_streak).
    { unfold max_streak. destruct (feq win f0 && negb (bool_decide (n = 0))); lia. }
    destruct (risk_index_of_returns _ Hri) as (ri & ->).
    cbn [mbind result_bind].
    assert (Hbf : 0 <= 0 `max` (if bool_decide (n = 0)
                                then RiskMonitor.z_count_last_50 rm' - 1
                                else RiskMonitor.z_count_last_50 rm')
                  <= 50).
    { destruct (bool_decide (n = 0)); lia. }
    destruct (buffer_factor_of_returns _ Hbf) as (bf & ->).
    cbn [mbind result_bind].
    destruct (RiskMonitor.is_stop_suggested rm');
      [|destruct (fle (RiskMonitor.current_bank rm') f0)];
      (eexists _, _, _; split; [reflexivity|]; split; assumption).
Qed.

Lemma run_loop_returns (n : nat) :
  forall (k : Z) (s : simulator) (c : gmap Z Z),
    monitor_ready (risk_monitor s) -> cache_ok c ->
    exists s' c' why,
      run_loop wheel n k s c = Ok (s', c', why)
      /\ monitor_ready (risk_monitor s') /\ cache_ok c'.
Proof.
  induction n as [|n IH]; intros k s c Hr Hc.
  - exists s, c, Completed. split; [reflexivity|]. split; assumption.
  - cbn [run_loop].
    destruct (loop_body_returns k s c Hr Hc) as (s1 & c1 & e & -> & Hr1 & Hc1).
    cbn [mbind result_bind]. destruct e as [why|].
    + exists s1, c1, why. split; [reflexivity|]. split; assumption.
    + apply IH; assumption.
Qed.

(** X17.  A run raises nothing.  The wheel draws numbers of [0..36].  From a
    driver and a risk monitor as their constructors build them, whatever
    floats the banks and the base stakes are, and from a table that
    [get_fib_for_streak] has built itself, [run_simulation] returns for
    every number of rounds asked for, and leaves such a table. *)
Theorem run_simulation_returns (num_spins : Z)
    (bank base monitor_bank monitor_base : float) (c : gmap Z Z) :
  cache_ok c ->
  exists s' c' why,
    run_simulation wheel num_spins
      (init bank base (RiskMonitor.init monitor_bank monitor_base)) c
    = Ok (s', c', why)
    /\ cache_ok c'.
Proof.
  intros Hc. unfold run_simulation.
  destruct (run_loop_returns (Z.to_nat num_spins) 1
              (init bank base (RiskMonitor.init monitor_bank monitor_base)) c
              (monitor_ready_init _ _) Hc)
    as (s' & c' & why & -> & _ & Hc').
  cbn [mbind result_bind]. eexists _, _, _. split; [reflexivity | exact Hc'].
Qed.

End DriverSafe.

Section AmountFacts.
Import Float64.

Lemma fle_refl (x : float) : x <> S754_nan -> fle x x = true.
Proof.
  destruct x as [[]|[]| |s m e]; intros H; try reflexivity; [congruence|].
  unfold fle, fcompare. rewrite Z.compare_refl. reflexivity.
Qed.

Lemma pyround2_in_range (x : float) : in_range (pyround x 2).
Proof.
  destruct x as [s|s| |s m e]; try exact I.
  unfold pyround. change (10 ^ 2) with 100.
  pose proof (scaled_nonneg m e 100 ltac:(lia)) as Hn.
  destruct (Z.eq_dec (scaled m e 100) 0) as [E|E].
  { rewrite E. exact I. }
  rewrite nearest_ratio_normal by (lia || apply hundred_small).
  pose proof (mantissa_bounds (scaled m e 100) 100 ltac:(lia) ltac:(lia)) as Hm.
  destruct (normalize_value _ (binade (scaled m e 100) 100 - 52) Hm)
    as (p & E' & -> & Hp & _ & _).
  unfold pack. cbn [fst snd].
  destruct (Z.leb_spec E' (emax - prec)); [|exact I].
  split; [apply mantissa_fits; unfold prec; lia | assumption].
Qed.

Lemma finite_amount_intro (s : bool) (x : float) :
  has_sign s x -> in_range x -> x <> S754_infinity s -> finite_amount x.
Proof.
  destruct x as [s'|s'| |s' m e]; cbn [has_sign in_range finite_amount];
    try tauto.
  intros -> _ H. congruence.
Qed.

Lemma fle_finite_bound (x y : float) :
  has_sign false x -> finite_amount y -> fle x y = true ->
  x <> S754_infinity false.
Proof.
  intros Hx Hy H ->.
  destruct y as [[]|[]| |[] m e]; cbn [finite_amount] in Hy;
    try contradiction; discriminate H.
Qed.

(** The stake of a round on a bank that is a number and not negative. *)
Lemma stake_of_bounded (b bank : float) :
  has_sign false b -> has_sign false bank -> finite_amount bank ->
  let bet := pymin (pyround b 2) bank in
  fle bet bank = true /\ has_sign false bet /\ finite_amount bet.
Proof.
  intros Hb Hk Hf bet. subst bet.
  pose proof (pyround_sign false b 2 Hb) as Hs.
  pose proof (pyround2_in_range b) as Hr.
  set (b' := pyround b 2) in *.
  assert (Nk : bank <> S754_nan) by (intros ->; exact Hk).
  assert (Nb : b' <> S754_nan) by (intros E; rewrite E in Hs; exact Hs).
  unfold pymin. destruct (flt bank b') eqn:E.
  - split; [apply fle_refl, Nk|]. split; assumption.
  - pose proof (flt_false_fle bank b' Nk Nb E) as Hle.
    split; [exact Hle|]. split; [exact Hs|].
    apply (finite_amount_intro false); [exact Hs | exact Hr |].
    apply (fle_finite_bound b' bank); assumption.
Qed.

Lemma pymin_sign (a b : float) :
  has_sign false a -> has_sign false b -> has_sign false (pymin a b).
Proof. intros Ha Hb. unfold pymin. destruct (flt b a); assumption. Qed.

(** A transition with a stake that the bank covers leaves a bank that is
    not negative. *)
Lemma update_state_bank_nonneg (rm : RiskMonitor.risk_monitor)
    (bet win bank : float) (z : bool) :
  has_sign false bank -> has_sign false bet -> finite_amount bet ->
  fle bet bank = true -> win = bet \/ win = f0 ->
  has_sign false (RiskMonitor.zero_buffer rm) ->
  has_sign false
    (RiskMonitor.current_bank
       (RiskMonitor.update_state rm bet win z (Some bank))).
Proof.
  intros Hk Hb Hf Hle Hw Hz.
  assert (Hws : has_sign false win) by (destruct Hw as [->| ->]; [exact Hb | reflexivity]).
  assert (Ni : bet <> S754_infinity false)
    by (intros ->; exact Hf).
  destruct (fgt win f0) eqn:E.
  - pose proof (update_state_win_fields rm bet win z (Some bank) E) as (-> & _).
    apply pyround_sign, fadd_nonneg; assumption.
  - pose proof (update_state_loss_fields rm bet win z (Some bank) E)
      as (_ & -> & _).
    assert (Hd : has_sign false (fsub bank bet)).
    { apply (fsub_nonneg bank bet false Hk Hb). right. split; assumption. }
    destruct z; apply pyround_sign; [|exact Hd].
    apply fadd_nonneg; [exact Hd|].
    apply pyround_sign, pymin_sign; [|exact Hz].
    apply (fmul_class false false); [exact Hb | reflexivity |].
    destruct bet; exact I.
Qed.

End AmountFacts.

Section DriverSolvent.
Import Float64 Simulator.
Variable wheel : nat -> Z.

Lemma reserve_after_round (rm : RiskMonitor.risk_monitor) (bet win : float)
    (z : bool) (o : option float) :
  reserve_ok (RiskMonitor.zero_buffer rm) ->
  finite_amount bet -> finite_amount win ->
  reserve_ok (RiskMonitor.zero_buffer
                (RiskMonitor.update_state rm bet win z o)).
Proof.
  intros Hz Hb Hw.
  exact (reserve_step rm {| t_bet := bet; t_win := win; t_zero := z;
                            t_bank := o |} Hz (conj Hb Hw)).
Qed.

Lemma loop_body_solvent (k : Z) (s s' : simulator) (c c' : gmap Z Z)
    (e : option exit_reason) :
  monitor_ready (risk_monitor s) -> cache_ok c ->
  base_bet s <> S754_nan ->
  (banks_finite s -> solvent s) ->
  loop_body wheel k s c = Ok (s', c', e) ->
  banks_finite s' -> solvent s'.
Proof.
  intros (H0 & H15 & _) Hc Hbase Hsol H.
  apply loop_body_cases in H. cbv zeta in H.
  destruct H as [(_ & _ & _ & ->)|(Hs & Hn & b & Ecalc & H)].
  { exact Hsol. }
  assert (Hlt : RiskMonitor.current_streak (risk_monitor s) < 15).
  { destruct (Z.lt_ge_cases (RiskMonitor.current_streak (risk_monitor s)) 15)
      as [|Hge]; [assumption|].
    rewrite (H15 Hge) in Hs. discriminate. }
  destruct (calculate_bet_value (base_bet s)
              (RiskMonitor.current_streak (risk_monitor s))
              (RiskMonitor.z_count_last_50 (risk_monitor s)) engine_frames c
              ltac:(unfold max_streak; lia)
              ltac:(unfold engine_frames, recursion_limit; lia) Hc)
    as (v & c1 & E2 & _ & _ & _ & Hsign).
  rewrite Ecalc in E2. injection E2 as <- <-.
  specialize (Hsign Hbase).
  destruct H as [(Hb & _ & R)|(Hb & R & _)].
  - destruct R as (_ & _ & R3 & _ & R5 & _ & r & R7 & _ & _ & R10 & _ & R12 & R13).
    intros HF. unfold banks_finite in HF. rewrite R7 in HF.
    apply Forall_app in HF as [HF Hr]. apply Forall_cons in Hr as [Hr _].
    destruct (Hsol HF) as (Hk & Hz & Hcov).
    unfold solvent. rewrite R3, R5, R7.
    split; [exact Hk|]. split.
    + apply reserve_after_round; [exact Hz | exact I | exact I].
    + apply Forall_app. split; [exact Hcov|].
      constructor; [|constructor]. unfold covered. rewrite R10, R12, R13.
      split; [apply (fle_zero_nonneg _ Hk) | exact Hk].
  - unfold round_staked in R. cbv zeta in R.
    destruct R as (_ & _ & R3 & _ & R5 & _ & _ & _ & _ & _ & _
                   & r & R7 & _ & _ & R10 & _ & R12 & R13).
    intros HF. unfold banks_finite in HF. rewrite R7 in HF.
    apply Forall_app in HF as [HF Hr]. apply Forall_cons in Hr as [Hr _].
    rewrite R12 in Hr.
    destruct (Hsol HF) as (Hk & Hz & Hcov).
    destruct (stake_of_bounded b (current_bank s) Hsign Hk Hr)
      as (Hle & Hsb & Hfb).
    fold (stake_of b (current_bank s)) in Hle, Hsb, Hfb.
    set (bet := stake_of b (current_bank s)) in *.
    set (win := if bool_decide (wheel (length (spin_history s))
                                ∈ Analytics.RED_NUMBERS) then bet else f0) in *.
    assert (Hw : win = bet \/ win = f0)
      by (unfold win; destruct (bool_decide _); tauto).
    assert (Hbank : has_sign false
              (RiskMonitor.current_bank
                 (RiskMonitor.update_state (risk_monitor s) bet win
                    (bool_decide (wheel (length (spin_history s)) = 0))
                    (Some (current_bank s))))).
    { apply update_state_bank_nonneg; try assumption. apply Hz. }
    unfold solvent. rewrite R3, R5, R7.
    split; [exact Hbank|]. split.
    + apply reserve_after_round; [exact Hz | exact Hfb |].
      destruct Hw as [-> | ->]; [exact Hfb | exact I].
    + apply Forall_app. split; [exact Hcov|].
      constructor; [|constructor]. unfold covered. rewrite R10, R12, R13.
      split; [exact Hle | exact Hbank].
Qed.

Lemma loop_body_ready (k : Z) (s s' : simulator) (c c' : gmap Z Z)
    (e : option exit_reason) :
  monitor_ready (risk_monitor s) -> cache_ok c ->
  loop_body wheel k s c = Ok (s', c', e) ->
  monitor_ready (risk_monitor s') /\ cache_ok c'.
Proof.
  intros Hr Hc H. pose proof Hr as (H0 & H15 & _).
  apply loop_body_cases in H. cbv zeta in H.
  destruct H as [(_ & _ & -> & ->)|(Hs & Hn & b & Ecalc & H)].
  { split; assumption. }
  assert (Hlt : RiskMonitor.current_streak (risk_monitor s) < 15).
  { destruct (Z.lt_ge_cases (RiskMonitor.current_streak (risk_monitor s)) 15)
      as [|Hge]; [assumption|].
    rewrite (H15 Hge) in Hs. discriminate. }
  destruct (calculate_bet_value (base_bet s)
              (RiskMonitor.current_streak (risk_monitor s))
              (RiskMonitor.z_count_last_50 (risk_monitor s)) engine_frames c
              ltac:(unfold max_streak; lia)
              ltac:(unfold engine_frames, recursion_limit; lia) Hc)
    as (v & c1 & E2 & _ & _ & Hc1 & _).
  rewrite Ecalc in E2. injection E2 as <- <-.
  split; [|exact Hc1].
  destruct H as [(_ & _ & R)|(_ & R & _)].
  - destruct R as (_ & _ & _ & _ & -> & _).
    apply update_state_ready, Hr.
  - unfold round_staked in R. cbv zeta in R.
    destruct R as (_ & _ & _ & _ & -> & _).
    apply update_state_ready, Hr.
Qed.

(** X18.  The bank covers the stakes.  The base stake is a number, the initial
    bank is not negative, and the driver and the risk monitor are as their
    constructors build them.  In a run that returns and in which no round
    started from an infinite bank, every stake, placed or not, is at most
    the bank before it, the bank after every round is not negative, and
    the run leaves a bank and a reserve that are not negative. *)
Theorem run_simulation_solvent (num_spins : Z)
    (bank base monitor_bank monitor_base : float) (c c' : gmap Z Z)
    (s' : simulator) (why : exit_reason) :
  has_sign false bank -> base <> S754_nan -> cache_ok c ->
  run_simulation wheel num_spins
    (init bank base (RiskMonitor.init monitor_bank monitor_base)) c
  = Ok (s', c', why) ->
  Forall (fun r => finite_amount (bank_before_bet r)) (bet_history s') ->
  Forall (fun r => fle (bet_amount r) (bank_before_bet r) = true
                   /\ fge (bank_after_spin r) f0 = true) (bet_history s')
  /\ fge (current_bank s') f0 = true
  /\ fge (RiskMonitor.zero_buffer (risk_monitor s')) f0 = true.
Proof.
  intros Hk Hbase Hc H HF. unfold run_simulation in H.
  destruct (run_loop wheel _ 1 _ c) as [[[s1 c1] w]|] eqn:E; [|discriminate].
  cbn [mbind result_bind] in H. injection H as <- <- <-.
  cbn [with_stats bet_history current_bank risk_monitor] in HF |- *.
  assert (Hsol : banks_finite s1 -> solvent s1).
  { pose proof (run_loop_rule wheel
      (fun _ s c0 => monitor_ready (risk_monitor s) /\ cache_ok c0
                     /\ base_bet s <> S754_nan
                     /\ (banks_finite s -> solvent s))
      (fun _ _ s _ => banks_finite s -> solvent s)) as Rule.
    cbv beta in Rule.
    assert (Step : forall k s c0 s2 c2 e,
               monitor_ready (risk_monitor s) /\ cache_ok c0
               /\ base_bet s <> S754_nan
               /\ (banks_finite s -> solvent s) ->
               loop_body wheel k s c0 = Ok (s2, c2, e) ->
               match e with
               | Some _ => banks_finite s2 -> solvent s2
               | None =>
                   monitor_ready (risk_monitor s2) /\ cache_ok c2
                   /\ base_bet s2 <> S754_nan
                   /\ (banks_finite s2 -> solvent s2)
               end).
    { intros k s c0 s2 c2 e (Hr & Hc0 & Hb & Hs) L.
      pose proof (loop_body_solvent k s s2 c0 c2 e Hr Hc0 Hb Hs L) as S2.
      destruct e; [exact S2|].
      destruct (loop_body_ready k s s2 c0 c2 None Hr Hc0 L) as [Hr2 Hc2].
      destruct (loop_body_configuration wheel k s s2 c0 c2 None L) as [_ Hbb].
      split; [exact Hr2|]. split; [exact Hc2|].
      split; [rewrite Hbb; exact Hb | exact S2]. }
    assert (Init : monitor_ready
                     (risk_monitor
                        (init bank base
                           (RiskMonitor.init monitor_bank monitor_base)))
                   /\ cache_ok c
                   /\ base_bet (init bank base
                                  (RiskMonitor.init monitor_bank monitor_base))
                      <> S754_nan
                   /\ (banks_finite
                         (init bank base
                            (RiskMonitor.init monitor_bank monitor_base)) ->
                       solvent
                         (init bank base
                            (RiskMonitor.init monitor_bank monitor_base)))).
    { split; [apply monitor_ready_init|]. split; [exact Hc|].
      split; [exact Hbase|]. intros _.
      split; [exact Hk|]. split; [split; reflexivity | constructor]. }
    destruct (Rule Step _ _ _ _ _ _ _ Init E)
      as [[_ (_ & _ & _ & S)]|(j & _ & S)]; exact S. }
  destruct (Hsol HF) as (Hbk & [Hz _] & Hcov).
  split; [|split; apply has_sign_false_fge; assumption].
  eapply Forall_impl; [exact Hcov|].
  intros r [H1 H2]. split; [exact H1 | apply has_sign_false_fge, H2].
Qed.

End DriverSolvent.

(** ** Two runs of the reference driver *)

Section DriverRunsMore.
Import Float64 Simulator.

Lemma black_red_wheel_on (i : nat) : on_wheel (black_red_wheel i).
Proof.
  unfold on_wheel, black_red_wheel.
  destruct i as [|[|i]]; cbn; try lia. destruct i; cbn; lia.
Qed.

Lemma run_simulation_draws_witness :
  exists s' c' why played,
    run_simulation black_red_wheel 2 reference_driver ∅ = Ok (s', c', why)
    /\ draws_recorded black_red_wheel played s'
    /\ played <= Z.max 0 2
    /\ total_spins (stats s')
       = (match why with StopBeforeBet => played + 1 | _ => played end)
    /\ (why = Completed -> played = Z.max 0 2)
    /\ (why = StopBeforeBet -> played < 2).
Proof.
  eassert (H : run_simulation black_red_wheel 2 reference_driver ∅
               = Ok (_, _, _)) by (vm_compute; reflexivity).
  destruct (run_simulation_draws black_red_wheel 2 (of_Z 1000) (of_Z 10)
              (RiskMonitor.init (of_Z 1000) (of_Z 10)) ∅ _ _ _ H)
    as (played & D).
  eexists _, _, _, played. split; [exact H | exact D].
Defined.

Lemma run_simulation_statistics_witness :
  exists s' c' why,
    run_simulation black_red_wheel 2 reference_driver ∅ = Ok (s', c', why)
    /\ statistics_count s'
    /\ initial_bank s' = of_Z 1000
    /\ final_bank (stats s') = current_bank s'
    /\ profit_loss (stats s') = fsub (current_bank s') (of_Z 1000).
Proof.
  eassert (H : run_simulation black_red_wheel 2 reference_driver ∅
               = Ok (_, _, _)) by (vm_compute; reflexivity).
  eexists _, _, _. split; [exact H|].
  exact (run_simulation_statistics black_red_wheel 2 (of_Z 1000) (of_Z 10)
           (RiskMonitor.init (of_Z 1000) (of_Z 10)) ∅ _ _ _ H).
Defined.

Lemma run_simulation_exit_witness :
  exists s' c' why,
    run_simulation zero_wheel 9 reference_driver ∅ = Ok (s', c', why)
    /\ exit_accounted why s'.
Proof.
  eassert (H : run_simulation zero_wheel 9 reference_driver ∅
               = Ok (_, _, _)) by (vm_compute; reflexivity).
  eexists _, _, _. split; [exact H|].
  exact (run_simulation_exit zero_wheel 9 (of_Z 1000) (of_Z 10)
           (RiskMonitor.init (of_Z 1000) (of_Z 10)) ∅ _ _ _ H).
Defined.

Lemma run_simulation_returns_witness :
  exists s' c' why,
    run_simulation black_red_wheel 2 reference_driver ∅ = Ok (s', c', why)
    /\ cache_ok c'.
Proof.
  exact (run_simulation_returns black_red_wheel black_red_wheel_on 2
           (of_Z 1000) (of_Z 10) (of_Z 1000) (of_Z 10) ∅ cache_ok_empty).
Defined.

Lemma run_simulation_solvent_witness :
  exists s' c' why,
    run_simulation black_red_wheel 2 reference_driver ∅ = Ok (s', c', why)
    /\ Forall (fun r => fle (bet_amount r) (bank_before_bet r) = true
                        /\ fge (bank_after_spin r) f0 = true)
         (bet_history s')
    /\ fge (current_bank s') f0 = true
    /\ fge (RiskMonitor.zero_buffer (risk_monitor s')) f0 = true.
Proof.
  eassert (H : run_simulation black_red_wheel 2 reference_driver ∅
               = Ok (_, _, _)) by (vm_compute; reflexivity).
  eexists _, _, _. split; [exact H|].
  apply (run_simulation_solvent black_red_wheel 2 (of_Z 1000) (of_Z 10)
           (of_Z 1000) (of_Z 10) ∅ _ _ _
           eq_refl ltac:(discriminate) cache_ok_empty H).
  repeat constructor; vm_compute; discriminate.
Defined.

End DriverRunsMore.
